(** * Pattern Lab Node: the incremental build orchestrator

    A shallow embedding of [core/lib/patternlab.js]: the busy guard of the
    public build entry points, [buildPatterns], the two-phase traversal,
    [renderSinglePattern] and [writePatternFiles].

    JavaScript objects that are shared and mutated (the [patternlab] context,
    the [Pattern] objects, the nodes of the dependency graph) live in an
    explicit store; a [Pattern] is referred to by its address in the heap.
    Effects the module issues itself (console and log output, lifecycle
    events, file-system calls, the calls of the two-phase traversal) are
    recorded, in program order, in a trace.  The collaborators that are
    [require]d from other modules are an interface ([Collaborators]).

    A piece of code is a function from the world to a completion (it
    returns, it throws, [process.exit] ends the process) and the world it
    leaves.  A call into the file system that writes or clears is recorded
    in the trace and may then throw, as may [JSON.stringify] of the context.
    A promise chain is run to its settlement: JavaScript runs one callback
    at a time, so the chain is the sequence of its callbacks.  The promise
    that a process step of Phase 1 hands back may be pending: its work is
    done when [Promise.all] waits for it, after every step has been started.
    [buildPatterns] and the entry points are split where the source returns
    its promise, so that a change event can find a build in flight.  An
    emission of a lifecycle event is recorded in the trace; the listeners
    that other modules attach to those events are not part of this module.

    The configuration check of the constructor, [checkConfiguration], and
    the entry point [serve] follow the build. *)

From stdpp Require Import base option list gmap strings.
From stdpp Require Import pretty.
From Stdlib Require Import ZArith.

#[local] Set Warnings "-register-all".
Local Open Scope string_scope.
Local Open Scope Z_scope.
Local Open Scope list_scope.

(** ** JavaScript values *)

(** Plain data, as it goes through [JSON.stringify]. *)
Inductive JSON :=
| JNull
| JBool (b : bool)
| JNum (n : Z)
| JStr (s : string)
| JArr (l : list JSON)
| JObj (kvs : list (string * JSON)).

(** An object literal: its own enumerable properties in insertion order,
    every key at most once. *)
Abbreviation Obj := (list (string * JSON)).

Definition keys (o : Obj) : list string := o.*1.

Fixpoint obj_get (k : string) (o : Obj) : option JSON :=
  match o with
  | [] => None
  | (k', v) :: o' => if decide (k' = k) then Some v else obj_get k o'
  end.

(** [o[k] = v]: an existing key keeps its place, a new key goes last. *)
Fixpoint obj_set (k : string) (v : JSON) (o : Obj) : Obj :=
  match o with
  | [] => [(k, v)]
  | (k', v') :: o' =>
      if decide (k' = k) then (k', v) :: o' else (k', v') :: obj_set k v o'
  end.

(** [delete o[k]]. *)
Definition obj_delete (k : string) (o : Obj) : Obj :=
  filter (λ kv, kv.1 ≠ k) o.

(** [Object.assign(target, source)]; an [undefined] or [null] source is
    skipped. *)
Definition obj_assign (target : Obj) (source : option Obj) : Obj :=
  match source with
  | None => target
  | Some s => foldl (λ t kv, obj_set kv.1 kv.2 t) target s
  end.

(** [s.substr(1)]. *)
Definition substr1 (s : string) : string :=
  match s with
  | EmptyString => EmptyString
  | String _ rest => rest
  end.

(** JavaScript truthiness of a string. *)
Definition truthy (s : string) : bool :=
  match s with
  | EmptyString => false
  | String _ _ => true
  end.

Definition nl : string := String (Ascii.ascii_of_nat 10) EmptyString.

(** ** Data model *)

(** [object_factory.CompileState]. *)
Inductive CompileState := NEEDS_REBUILD | BUILDING | CLEAN.

Global Instance CompileState_eq_dec : EqDecision CompileState.
Proof. solve_decision. Defined.

(** The address of a [Pattern] object. *)
Abbreviation ref := nat.

(** A rendering engine is a shared object of the engine registry; a pattern
    holds a reference to it. *)
Abbreviation EngineRef := nat.

(** An error value ([ex], [err]); the model keeps its message. *)
Abbreviation Error := string.

#[local] Set Primitive Projections.

Record Pattern := mkPattern {
  relPath : string;
  isPattern : bool;
  isMetaPattern : bool;
  compileState : CompileState;
  template : string;
  extendedTemplate : string;
  patternPartialCode : string;
  p_header : string;                 (* pattern.header *)
  lineage : list JSON;
  lineageR : list JSON;
  patternLineages : list JSON;
  patternLineageExists : bool;
  patternLineagesR : list JSON;
  patternLineageRExists : bool;
  patternLineageEExists : bool;
  patternDesc : string;
  patternDescExists : bool;
  patternGroup : string;
  patternSubGroup : string;
  fileExtension : string;
  patternName : string;
  patternPartial : string;
  patternState : string;
  engine : EngineRef;
  extraOutput : option Obj;
  allMarkdown : option Obj;
  jsonFileData : JSON;
  patternData : string
}.

Definition set_isPattern (v : bool) (o : Pattern) : Pattern :=
  let 'mkPattern relPath' isPattern' isMetaPattern' compileState' template'
       extendedTemplate' patternPartialCode' p_header' lineage' lineageR'
       patternLineages' patternLineageExists' patternLineagesR'
       patternLineageRExists' patternLineageEExists' patternDesc'
       patternDescExists' patternGroup' patternSubGroup' fileExtension'
       patternName' patternPartial' patternState' engine' extraOutput'
       allMarkdown' jsonFileData' patternData' := o in
  mkPattern relPath' v isMetaPattern' compileState' template'
    extendedTemplate' patternPartialCode' p_header' lineage' lineageR'
    patternLineages' patternLineageExists' patternLineagesR'
    patternLineageRExists' patternLineageEExists' patternDesc'
    patternDescExists' patternGroup' patternSubGroup' fileExtension'
    patternName' patternPartial' patternState' engine' extraOutput'
    allMarkdown' jsonFileData' patternData'.

Definition set_isMetaPattern (v : bool) (o : Pattern) : Pattern :=
  let 'mkPattern relPath' isPattern' isMetaPattern' compileState' template'
       extendedTemplate' patternPartialCode' p_header' lineage' lineageR'
       patternLineages' patternLineageExists' patternLineagesR'
       patternLineageRExists' patternLineageEExists' patternDesc'
       patternDescExists' patternGroup' patternSubGroup' fileExtension'
       patternName' patternPartial' patternState' engine' extraOutput'
       allMarkdown' jsonFileData' patternData' := o in
  mkPattern relPath' isPattern' v compileState' template' extendedTemplate'
    patternPartialCode' p_header' lineage' lineageR' patternLineages'
    patternLineageExists' patternLineagesR' patternLineageRExists'
    patternLineageEExists' patternDesc' patternDescExists' patternGroup'
    patternSubGroup' fileExtension' patternName' patternPartial' patternState'
    engine' extraOutput' allMarkdown' jsonFileData' patternData'.

Definition set_compileState (v : CompileState) (o : Pattern) : Pattern :=
  let 'mkPattern relPath' isPattern' isMetaPattern' compileState' template'
       extendedTemplate' patternPartialCode' p_header' lineage' lineageR'
       patternLineages' patternLineageExists' patternLineagesR'
       patternLineageRExists' patternLineageEExists' patternDesc'
       patternDescExists' patternGroup' patternSubGroup' fileExtension'
       patternName' patternPartial' patternState' engine' extraOutput'
       allMarkdown' jsonFileData' patternData' := o in
  mkPattern relPath' isPattern' isMetaPattern' v template' extendedTemplate'
    patternPartialCode' p_header' lineage' lineageR' patternLineages'
    patternLineageExists' patternLineagesR' patternLineageRExists'
    patternLineageEExists' patternDesc' patternDescExists' patternGroup'
    patternSubGroup' fileExtension' patternName' patternPartial' patternState'
    engine' extraOutput' allMarkdown' jsonFileData' patternData'.

Definition set_template (v : string) (o : Pattern) : Pattern :=
  let 'mkPattern relPath' isPattern' isMetaPattern' compileState' template'
       extendedTemplate' patternPartialCode' p_header' lineage' lineageR'
       patternLineages' patternLineageExists' patternLineagesR'
       patternLineageRExists' patternLineageEExists' patternDesc'
       patternDescExists' patternGroup' patternSubGroup' fileExtension'
       patternName' patternPartial' patternState' engine' extraOutput'
       allMarkdown' jsonFileData' patternData' := o in
  mkPattern relPath' isPattern' isMetaPattern' compileState' v
    extendedTemplate' patternPartialCode' p_header' lineage' lineageR'
    patternLineages' patternLineageExists' patternLineagesR'
    patternLineageRExists' patternLineageEExists' patternDesc'
    patternDescExists' patternGroup' patternSubGroup' fileExtension'
    patternName' patternPartial' patternState' engine' extraOutput'
    allMarkdown' jsonFileData' patternData'.

Definition set_patternPartialCode (v : string) (o : Pattern) : Pattern :=
  let 'mkPattern relPath' isPattern' isMetaPattern' compileState' template'
       extendedTemplate' patternPartialCode' p_header' lineage' lineageR'
       patternLineages' patternLineageExists' patternLineagesR'
       patternLineageRExists' patternLineageEExists' patternDesc'
       patternDescExists' patternGroup' patternSubGroup' fileExtension'
       patternName' patternPartial' patternState' engine' extraOutput'
       allMarkdown' jsonFileData' patternData' := o in
  mkPattern relPath' isPattern' isMetaPattern' compileState' template'
    extendedTemplate' v p_header' lineage' lineageR' patternLineages'
    patternLineageExists' patternLineagesR' patternLineageRExists'
    patternLineageEExists' patternDesc' patternDescExists' patternGroup'
    patternSubGroup' fileExtension' patternName' patternPartial' patternState'
    engine' extraOutput' allMarkdown' jsonFileData' patternData'.

Definition set_p_header (v : string) (o : Pattern) : Pattern :=
  let 'mkPattern relPath' isPattern' isMetaPattern' compileState' template'
       extendedTemplate' patternPartialCode' p_header' lineage' lineageR'
       patternLineages' patternLineageExists' patternLineagesR'
       patternLineageRExists' patternLineageEExists' patternDesc'
       patternDescExists' patternGroup' patternSubGroup' fileExtension'
       patternName' patternPartial' patternState' engine' extraOutput'
       allMarkdown' jsonFileData' patternData' := o in
  mkPattern relPath' isPattern' isMetaPattern' compileState' template'
    extendedTemplate' patternPartialCode' v lineage' lineageR'
    patternLineages' patternLineageExists' patternLineagesR'
    patternLineageRExists' patternLineageEExists' patternDesc'
    patternDescExists' patternGroup' patternSubGroup' fileExtension'
    patternName' patternPartial' patternState' engine' extraOutput'
    allMarkdown' jsonFileData' patternData'.

Definition set_patternLineages (v : list JSON) (o : Pattern) : Pattern :=
  let 'mkPattern relPath' isPattern' isMetaPattern' compileState' template'
       extendedTemplate' patternPartialCode' p_header' lineage' lineageR'
       patternLineages' patternLineageExists' patternLineagesR'
       patternLineageRExists' patternLineageEExists' patternDesc'
       patternDescExists' patternGroup' patternSubGroup' fileExtension'
       patternName' patternPartial' patternState' engine' extraOutput'
       allMarkdown' jsonFileData' patternData' := o in
  mkPattern relPath' isPattern' isMetaPattern' compileState' template'
    extendedTemplate' patternPartialCode' p_header' lineage' lineageR' v
    patternLineageExists' patternLineagesR' patternLineageRExists'
    patternLineageEExists' patternDesc' patternDescExists' patternGroup'
    patternSubGroup' fileExtension' patternName' patternPartial' patternState'
    engine' extraOutput' allMarkdown' jsonFileData' patternData'.

Definition set_patternLineageExists (v : bool) (o : Pattern) : Pattern :=
  let 'mkPattern relPath' isPattern' isMetaPattern' compileState' template'
       extendedTemplate' patternPartialCode' p_header' lineage' lineageR'
       patternLineages' patternLineageExists' patternLineagesR'
       patternLineageRExists' patternLineageEExists' patternDesc'
       patternDescExists' patternGroup' patternSubGroup' fileExtension'
       patternName' patternPartial' patternState' engine' extraOutput'
       allMarkdown' jsonFileData' patternData' := o in
  mkPattern relPath' isPattern' isMetaPattern' compileState' template'
    extendedTemplate' patternPartialCode' p_header' lineage' lineageR'
    patternLineages' v patternLineagesR' patternLineageRExists'
    patternLineageEExists' patternDesc' patternDescExists' patternGroup'
    patternSubGroup' fileExtension' patternName' patternPartial' patternState'
    engine' extraOutput' allMarkdown' jsonFileData' patternData'.

Definition set_patternLineagesR (v : list JSON) (o : Pattern) : Pattern :=
  let 'mkPattern relPath' isPattern' isMetaPattern' compileState' template'
       extendedTemplate' patternPartialCode' p_header' lineage' lineageR'
       patternLineages' patternLineageExists' patternLineagesR'
       patternLineageRExists' patternLineageEExists' patternDesc'
       patternDescExists' patternGroup' patternSubGroup' fileExtension'
       patternName' patternPartial' patternState' engine' extraOutput'
       allMarkdown' jsonFileData' patternData' := o in
  mkPattern relPath' isPattern' isMetaPattern' compileState' template'
    extendedTemplate' patternPartialCode' p_header' lineage' lineageR'
    patternLineages' patternLineageExists' v patternLineageRExists'
    patternLineageEExists' patternDesc' patternDescExists' patternGroup'
    patternSubGroup' fileExtension' patternName' patternPartial' patternState'
    engine' extraOutput' allMarkdown' jsonFileData' patternData'.

Definition set_patternLineageRExists (v : bool) (o : Pattern) : Pattern :=
  let 'mkPattern relPath' isPattern' isMetaPattern' compileState' template'
       extendedTemplate' patternPartialCode' p_header' lineage' lineageR'
       patternLineages' patternLineageExists' patternLineagesR'
       patternLineageRExists' patternLineageEExists' patternDesc'
       patternDescExists' patternGroup' patternSubGroup' fileExtension'
       patternName' patternPartial' patternState' engine' extraOutput'
       allMarkdown' jsonFileData' patternData' := o in
  mkPattern relPath' isPattern' isMetaPattern' compileState' template'
    extendedTemplate' patternPartialCode' p_header' lineage' lineageR'
    patternLineages' patternLineageExists' patternLineagesR' v
    patternLineageEExists' patternDesc' patternDescExists' patternGroup'
    patternSubGroup' fileExtension' patternName' patternPartial' patternState'
    engine' extraOutput' allMarkdown' jsonFileData' patternData'.

Definition set_patternLineageEExists (v : bool) (o : Pattern) : Pattern :=
  let 'mkPattern relPath' isPattern' isMetaPattern' compileState' template'
       extendedTemplate' patternPartialCode' p_header' lineage' lineageR'
       patternLineages' patternLineageExists' patternLineagesR'
       patternLineageRExists' patternLineageEExists' patternDesc'
       patternDescExists' patternGroup' patternSubGroup' fileExtension'
       patternName' patternPartial' patternState' engine' extraOutput'
       allMarkdown' jsonFileData' patternData' := o in
  mkPattern relPath' isPattern' isMetaPattern' compileState' template'
    extendedTemplate' patternPartialCode' p_header' lineage' lineageR'
    patternLineages' patternLineageExists' patternLineagesR'
    patternLineageRExists' v patternDesc' patternDescExists' patternGroup'
    patternSubGroup' fileExtension' patternName' patternPartial' patternState'
    engine' extraOutput' allMarkdown' jsonFileData' patternData'.

Definition set_patternData (v : string) (o : Pattern) : Pattern :=
  let 'mkPattern relPath' isPattern' isMetaPattern' compileState' template'
       extendedTemplate' patternPartialCode' p_header' lineage' lineageR'
       patternLineages' patternLineageExists' patternLineagesR'
       patternLineageRExists' patternLineageEExists' patternDesc'
       patternDescExists' patternGroup' patternSubGroup' fileExtension'
       patternName' patternPartial' patternState' engine' extraOutput'
       allMarkdown' jsonFileData' patternData' := o in
  mkPattern relPath' isPattern' isMetaPattern' compileState' template'
    extendedTemplate' patternPartialCode' p_header' lineage' lineageR'
    patternLineages' patternLineageExists' patternLineagesR'
    patternLineageRExists' patternLineageEExists' patternDesc'
    patternDescExists' patternGroup' patternSubGroup' fileExtension'
    patternName' patternPartial' patternState' engine' extraOutput'
    allMarkdown' jsonFileData' v.

(** The dependency graph, as far as this module touches it: the version
    stamp, and one node per pattern carrying a compile state. *)
Record Graph := mkGraph {
  version : Z;
  nodes : gmap ref CompileState
}.

(** [node.compileState = s] on the node of the pattern at [r]. *)
Definition with_node (r : ref) (s : CompileState) (g : Graph) : Graph :=
  mkGraph (version g) (<[r := s]> (nodes g)).

Record PatternlabFiles := mkPatternlabFiles {
  general_header : string;
  general_footer : string;
  patternSection_file : string;
  patternSectionSubtype_file : string;
  viewall_file : string
}.

Record Paths := mkPaths {
  source_data : string;
  source_meta : string;
  source_patterns : string;
  source_patternlabFiles : PatternlabFiles;
  public_patterns : string;
  public_root : string
}.

Record Config := mkConfig {
  paths : Paths;
  debug : bool;
  cleanOutputHtml : bool;
  cacheBust : bool;
  exportToGraphViz : bool
}.

(** The [patternlab] context object.  [isBusy] is [undefined] (falsy) until
    a build sets it; [graph] is [null] until a build loads it. *)
Record PatternLab := mkPatternLab {
  config : Config;
  isBusy : bool;
  graph : option Graph;
  data : Obj;
  listitems : JSON;
  header : string;
  footer : string;
  patternSection : string;
  patternSectionSubType : string;
  viewAll : string;
  userHead : string;
  userFoot : string;
  patterns : list ref;
  subtypePatterns : Obj;
  partials : Obj;
  cacheBuster : Z
}.

Definition set_isBusy (v : bool) (o : PatternLab) : PatternLab :=
  let 'mkPatternLab config' isBusy' graph' data' listitems' header' footer'
       patternSection' patternSectionSubType' viewAll' userHead' userFoot'
       patterns' subtypePatterns' partials' cacheBuster' := o in
  mkPatternLab config' v graph' data' listitems' header' footer'
    patternSection' patternSectionSubType' viewAll' userHead' userFoot'
    patterns' subtypePatterns' partials' cacheBuster'.

Definition set_graph (v : option Graph) (o : PatternLab) : PatternLab :=
  let 'mkPatternLab config' isBusy' graph' data' listitems' header' footer'
       patternSection' patternSectionSubType' viewAll' userHead' userFoot'
       patterns' subtypePatterns' partials' cacheBuster' := o in
  mkPatternLab config' isBusy' v data' listitems' header' footer'
    patternSection' patternSectionSubType' viewAll' userHead' userFoot'
    patterns' subtypePatterns' partials' cacheBuster'.

Definition set_data (v : Obj) (o : PatternLab) : PatternLab :=
  let 'mkPatternLab config' isBusy' graph' data' listitems' header' footer'
       patternSection' patternSectionSubType' viewAll' userHead' userFoot'
       patterns' subtypePatterns' partials' cacheBuster' := o in
  mkPatternLab config' isBusy' graph' v listitems' header' footer'
    patternSection' patternSectionSubType' viewAll' userHead' userFoot'
    patterns' subtypePatterns' partials' cacheBuster'.

Definition set_listitems (v : JSON) (o : PatternLab) : PatternLab :=
  let 'mkPatternLab config' isBusy' graph' data' listitems' header' footer'
       patternSection' patternSectionSubType' viewAll' userHead' userFoot'
       patterns' subtypePatterns' partials' cacheBuster' := o in
  mkPatternLab config' isBusy' graph' data' v header' footer' patternSection'
    patternSectionSubType' viewAll' userHead' userFoot' patterns'
    subtypePatterns' partials' cacheBuster'.

Definition set_header (v : string) (o : PatternLab) : PatternLab :=
  let 'mkPatternLab config' isBusy' graph' data' listitems' header' footer'
       patternSection' patternSectionSubType' viewAll' userHead' userFoot'
       patterns' subtypePatterns' partials' cacheBuster' := o in
  mkPatternLab config' isBusy' graph' data' listitems' v footer'
    patternSection' patternSectionSubType' viewAll' userHead' userFoot'
    patterns' subtypePatterns' partials' cacheBuster'.

Definition set_footer (v : string) (o : PatternLab) : PatternLab :=
  let 'mkPatternLab config' isBusy' graph' data' listitems' header' footer'
       patternSection' patternSectionSubType' viewAll' userHead' userFoot'
       patterns' subtypePatterns' partials' cacheBuster' := o in
  mkPatternLab config' isBusy' graph' data' listitems' header' v
    patternSection' patternSectionSubType' viewAll' userHead' userFoot'
    patterns' subtypePatterns' partials' cacheBuster'.

Definition set_patternSection (v : string) (o : PatternLab) : PatternLab :=
  let 'mkPatternLab config' isBusy' graph' data' listitems' header' footer'
       patternSection' patternSectionSubType' viewAll' userHead' userFoot'
       patterns' subtypePatterns' partials' cacheBuster' := o in
  mkPatternLab config' isBusy' graph' data' listitems' header' footer' v
    patternSectionSubType' viewAll' userHead' userFoot' patterns'
    subtypePatterns' partials' cacheBuster'.

Definition set_patternSectionSubType (v : string) (o : PatternLab) : PatternLab :=
  let 'mkPatternLab config' isBusy' graph' data' listitems' header' footer'
       patternSection' patternSectionSubType' viewAll' userHead' userFoot'
       patterns' subtypePatterns' partials' cacheBuster' := o in
  mkPatternLab config' isBusy' graph' data' listitems' header' footer'
    patternSection' v viewAll' userHead' userFoot' patterns' subtypePatterns'
    partials' cacheBuster'.

Definition set_viewAll (v : string) (o : PatternLab) : PatternLab :=
  let 'mkPatternLab config' isBusy' graph' data' listitems' header' footer'
       patternSection' patternSectionSubType' viewAll' userHead' userFoot'
       patterns' subtypePatterns' partials' cacheBuster' := o in
  mkPatternLab config' isBusy' graph' data' listitems' header' footer'
    patternSection' patternSectionSubType' v userHead' userFoot' patterns'
    subtypePatterns' partials' cacheBuster'.

Definition set_userHead (v : string) (o : PatternLab) : PatternLab :=
  let 'mkPatternLab config' isBusy' graph' data' listitems' header' footer'
       patternSection' patternSectionSubType' viewAll' userHead' userFoot'
       patterns' subtypePatterns' partials' cacheBuster' := o in
  mkPatternLab config' isBusy' graph' data' listitems' header' footer'
    patternSection' patternSectionSubType' viewAll' v userFoot' patterns'
    subtypePatterns' partials' cacheBuster'.

Definition set_userFoot (v : string) (o : PatternLab) : PatternLab :=
  let 'mkPatternLab config' isBusy' graph' data' listitems' header' footer'
       patternSection' patternSectionSubType' viewAll' userHead' userFoot'
       patterns' subtypePatterns' partials' cacheBuster' := o in
  mkPatternLab config' isBusy' graph' data' listitems' header' footer'
    patternSection' patternSectionSubType' viewAll' userHead' v patterns'
    subtypePatterns' partials' cacheBuster'.

Definition set_patterns (v : list ref) (o : PatternLab) : PatternLab :=
  let 'mkPatternLab config' isBusy' graph' data' listitems' header' footer'
       patternSection' patternSectionSubType' viewAll' userHead' userFoot'
       patterns' subtypePatterns' partials' cacheBuster' := o in
  mkPatternLab config' isBusy' graph' data' listitems' header' footer'
    patternSection' patternSectionSubType' viewAll' userHead' userFoot' v
    subtypePatterns' partials' cacheBuster'.

Definition set_subtypePatterns (v : Obj) (o : PatternLab) : PatternLab :=
  let 'mkPatternLab config' isBusy' graph' data' listitems' header' footer'
       patternSection' patternSectionSubType' viewAll' userHead' userFoot'
       patterns' subtypePatterns' partials' cacheBuster' := o in
  mkPatternLab config' isBusy' graph' data' listitems' header' footer'
    patternSection' patternSectionSubType' viewAll' userHead' userFoot'
    patterns' v partials' cacheBuster'.

Definition set_partials (v : Obj) (o : PatternLab) : PatternLab :=
  let 'mkPatternLab config' isBusy' graph' data' listitems' header' footer'
       patternSection' patternSectionSubType' viewAll' userHead' userFoot'
       patterns' subtypePatterns' partials' cacheBuster' := o in
  mkPatternLab config' isBusy' graph' data' listitems' header' footer'
    patternSection' patternSectionSubType' viewAll' userHead' userFoot'
    patterns' subtypePatterns' v cacheBuster'.

Definition set_cacheBuster (v : Z) (o : PatternLab) : PatternLab :=
  let 'mkPatternLab config' isBusy' graph' data' listitems' header' footer'
       patternSection' patternSectionSubType' viewAll' userHead' userFoot'
       patterns' subtypePatterns' partials' cacheBuster' := o in
  mkPatternLab config' isBusy' graph' data' listitems' header' footer'
    patternSection' patternSectionSubType' viewAll' userHead' userFoot'
    patterns' subtypePatterns' partials' v.

(** The [options] object of a build. *)
Record Options := mkOptions {
  cleanPublic : bool;
  watch : bool
}.

(** The [callback] of a build is a function of the caller; the model knows
    it by a name. *)
Abbreviation CallbackId := nat.

(** A listener registered by [build] on the event bus: the closure over
    [callback] and [options], and the value it gives [options.cleanPublic]. *)
Record Listener := mkListener {
  on_event : string;
  l_cleanPublic : bool;
  l_callback : CallbackId;
  l_options : Options
}.

Record OutputFile := mkOutputFile {
  of_path : string;
  of_content : string
}.

Inductive LogLevel := LError | LWarning | LInfo | LDebug.

(** Calls of the two-phase traversal into the pattern assembler. *)
Inductive Call :=
| load_pattern_iterative_call (file : string)
| process_pattern_iterative_call (pattern : ref)
| process_pattern_recursive_call (file : string).

Inductive Event :=
| ConsoleLog (msg : string)                       (* console.log *)
| Log (level : LogLevel) (msg : string)           (* plutils.error, .warning, .log.info *)
| Emit (name : string) (pattern : option ref)     (* patternlab.events.emit *)
| FsRead (path : string)                          (* fs.readFileSync *)
| FsEmptyDir (path : string)                      (* fs.emptyDirSync *)
| FsOutputFile (path content : string)            (* fs.outputFileSync *)
| Called (c : Call)
| ProcessExit (code : Z).                         (* process.exit *)

Global Instance Call_eq_dec : EqDecision Call.
Proof. solve_decision. Defined.
Global Instance LogLevel_eq_dec : EqDecision LogLevel.
Proof. solve_decision. Defined.
Global Instance Event_eq_dec : EqDecision Event.
Proof. solve_decision. Defined.

Record World := mkWorld {
  pl : PatternLab;
  heap : list Pattern;
  listeners : list Listener;
  trace : list Event
}.

#[local] Unset Primitive Projections.

(** ** Control: completions and promises *)

(** How a piece of synchronous code ends: it returns, it throws, or it ends
    the process. *)
Inductive Completion (A : Type) :=
| Normal (a : A)
| Throw (e : Error)
| Exit (code : Z).
Arguments Normal {A} a.
Arguments Throw {A} e.
Arguments Exit {A} code.

Definition M (A : Type) : Type := World → Completion A * World.

Definition ret {A} (a : A) : M A := λ w, (Normal a, w).

Definition bind {A B} (m : M A) (k : A → M B) : M B := λ w,
  match m w with
  | (Normal a, w') => k a w'
  | (Throw e, w') => (Throw e, w')
  | (Exit c, w') => (Exit c, w')
  end.

Notation "'do' x <- m ; k" := (bind m (λ x, k))
  (at level 10, x name, m at level 100, k at level 200).
Notation "'do' ' p <- m ; k" := (bind m (λ x, match x with p => k end))
  (at level 10, p strict pattern, m at level 100, k at level 200).
Notation "m ;; k" := (bind m (λ _, k))
  (at level 100, k at level 200, right associativity).

Definition throw {A} (e : Error) : M A := λ w, (Throw e, w).

(** [try { m } catch (ex) { h ex }]. *)
Definition try_catch {A} (m : M A) (h : Error → M A) : M A := λ w,
  match m w with
  | (Throw e, w') => h e w'
  | r => r
  end.

(** A settled promise of no value. *)
Inductive Settled := Fulfilled | Rejected (e : Error).

(** [p.then(cb)]: the callback runs when [p] is fulfilled; the promise it
    returns is adopted, an exception it throws rejects. *)
Definition then_ (p : M Settled) (cb : M Settled) : M Settled :=
  do s <- p;
  match s with
  | Fulfilled => try_catch cb (λ e, ret (Rejected e))
  | Rejected e => ret (Rejected e)
  end.

(** [p.catch(h)], for a handler that returns no promise. *)
Definition catch_ (p : M Settled) (h : Error → M unit) : M Settled :=
  do s <- p;
  match s with
  | Fulfilled => ret Fulfilled
  | Rejected e => try_catch (h e;; ret Fulfilled) (λ e', ret (Rejected e'))
  end.

(** ** Primitive effects *)

Definition out (ev : Event) : M unit := λ w,
  (Normal (), mkWorld (pl w) (heap w) (listeners w) (trace w ++ [ev])).

Definition console_log (msg : string) : M unit := out (ConsoleLog msg).
Definition plutils_error (msg : string) : M unit := out (Log LError msg).
Definition plutils_warning (msg : string) : M unit := out (Log LWarning msg).
Definition plutils_log_info (msg : string) : M unit := out (Log LInfo msg).
Definition events_emit (name : string) (pattern : option ref) : M unit :=
  out (Emit name pattern).

(** [process.exit(code)] ends the process: nothing runs after it. *)
Definition process_exit {A} (code : Z) : M A := λ w,
  (Exit code, mkWorld (pl w) (heap w) (listeners w) (trace w ++ [ProcessExit code])).

Definition get_pl : M PatternLab := λ w, (Normal (pl w), w).

Definition modify_pl (f : PatternLab → PatternLab) : M unit := λ w,
  (Normal (), mkWorld (f (pl w)) (heap w) (listeners w) (trace w)).

(** Reading through a reference; the model's only dangling references are
    [undefined] values. *)
Definition deref (r : ref) : M Pattern := λ w,
  match heap w !! r with
  | Some p => (Normal p, w)
  | None => (Throw "TypeError: Cannot read properties of undefined", w)
  end.

(** A property assignment on the object at [r]. *)
Definition assign (r : ref) (f : Pattern → Pattern) : M unit := λ w,
  (Normal (), mkWorld (pl w) (alter f r (heap w)) (listeners w) (trace w)).

(** [new Pattern(...)]: the object is allocated at a fresh address. *)
Definition alloc (p : Pattern) : M ref := λ w,
  (Normal (length (heap w)),
   mkWorld (pl w) (heap w ++ [p]) (listeners w) (trace w)).

Definition add_listener (l : Listener) : M unit := λ w,
  (Normal (), mkWorld (pl w) (heap w) (listeners w ++ [l]) (trace w)).

(** What a collaborator sees and may change: the context object and the
    patterns. *)
Definition Store : Type := PatternLab * list Pattern.

Definition Ext (A : Type) : Type := Store → Completion A * Store.

Definition call {A} (f : Ext A) : M A := λ w,
  let '(c, (pl', heap')) := f (pl w, heap w) in
  (c, mkWorld pl' heap' (listeners w) (trace w)).

(** The promise that a collaborator hands back: it is settled already, or
    it is pending on work that the collaborator does later, when the event
    loop gets to it, and that settles it. *)
Inductive Deferred :=
| settled (s : Settled)
| pending (work : Ext Settled).

(** Waiting for a promise of a collaborator: its pending work is done; an
    exception of that work rejects the promise. *)
Definition await (d : Deferred) : M Settled :=
  match d with
  | settled s => ret s
  | pending work => try_catch (call work) (λ e, ret (Rejected e))
  end.

(** [Promise.all]: fulfilled when every promise is, and not before; rejected
    as soon as one promise is, while the ones that are not settled yet stay
    pending.  Pending work is taken in the order of the list. *)
Fixpoint Promise_all (ps : list Deferred) : M Settled :=
  match ps with
  | [] => ret Fulfilled
  | p :: ps' =>
      do s <- await p;
      match s with
      | Fulfilled => Promise_all ps'
      | Rejected e => ret (Rejected e)
      end
  end.

(** A collaborator that returns a value or throws, and changes nothing. *)
Definition lift {A} (r : Error + A) : M A :=
  match r with
  | inl e => throw e
  | inr a => ret a
  end.

(** [l.forEach(f)]. *)
Fixpoint forEach {A} (f : A → M unit) (l : list A) : M unit :=
  match l with
  | [] => ret ()
  | x :: l' => f x;; forEach f l'
  end.

(** [l.map(f)]. *)
Fixpoint mapM {A B} (f : A → M B) (l : list A) : M (list B) :=
  match l with
  | [] => ret []
  | x :: l' => do y <- f x; do ys <- mapM f l'; ret (y :: ys)
  end.

Definition get_heap : M (list Pattern) := λ w, (Normal (heap w), w).

Definition get_listeners : M (list Listener) := λ w, (Normal (listeners w), w).

Definition get_trace : M (list Event) := λ w, (Normal (trace w), w).

(** A collaborator that is taken to return. *)
Definition call_total (f : Store → Store) : M unit := λ w,
  let '(pl', heap') := f (pl w, heap w) in
  (Normal (), mkWorld pl' heap' (listeners w) (trace w)).

(** ** Collaborators *)

(** A pattern engine, as far as [writePatternFiles] and the metadata use
    it. *)
Record Engine := mkEngine {
  engineName : string;
  renderedCodeFormatter : option (string → Pattern → string);
  rawTemplateCodeFormatter : option (string → Pattern → string);
  markupOnlyCodeFormatter : option (string → Pattern → string);
  addOutputFiles : option (Paths → PatternLab → list OutputFile)
}.

(** [pattern_assembler.renderPattern] takes a template string or a
    pattern. *)
Inductive Renderable :=
| RTemplate (s : string)
| RPattern (p : Pattern).

(** What the module [require]s.  A call of the file system, and a function
    that the source calls inside a [try] or inside the promise chain of
    [buildPatterns], may throw ([Error + A], or an [Ext] completing with
    [Throw]).  The load of the stored graph and [combine_listItems], which
    stand unguarded in the synchronous prefix of [buildPatterns], and the
    synchronous load step of the directory walk are taken to return.  The
    process step of Phase 1 hands back a promise, which may be pending. *)
Class Collaborators := {
  (* package.json, chalk, path *)
  packageInfo_version : string;
  chalk_bold : string → string;
  path_resolve : string → string;
  path_resolve2 : string → string → string;
  path_join : string → string → string;
  path_relative : string → string → string;
  (* js-beautify, JSON, lodash, Date *)
  cleanHtml : string → Z → string;
  JSON_stringify : JSON → string;
  JSON_stringify_patternlab : PatternLab → list Pattern → Error + string;
  lodash_merge : option Obj → JSON → Obj;
  Date_getTime : list Event → Z;
  (* fs, dive, diveSync: what the disk holds *)
  fs_readFileSync : string → Error + string;
  fs_outputFileSync : string → string → Error + unit;
  fs_emptyDirSync : string → Error + unit;
  dive : string → list (Error + string);
  diveSync : string → list (Error + string);
  (* data_loader, json_copy *)
  loadDataFromFolder : string → string → Error + Obj;
  loadDataFromFile : string → Error + JSON;
  jsonCopy : Obj → string → Error + Obj;
  (* pattern_graph *)
  PATTERN_GRAPH_VERSION : Z;
  PatternGraph_empty : Graph;
  PatternGraph_loadFromFile : PatternLab → Graph;
  graph_sync : Ext (list string);
  graph_compileOrder : Ext (list ref);
  PatternGraph_storeToFile : Ext unit;
  PatternGraph_exportToDot : string → Ext unit;
  (* object_factory, pattern_engines *)
  new_Pattern : string → PatternLab → Pattern;
  getPatternLink : Pattern → PatternLab → string → string;
  engines : EngineRef → Engine;
  (* pattern_assembler *)
  load_pattern_iterative : string → Store → Store;
  process_pattern_iterative : ref → Ext Deferred;
  process_pattern_recursive : string → Ext unit;
  decomposePattern : ref → Ext unit;
  combine_listItems : Store → Store;
  parse_data_links : Ext unit;
  mark_modified_patterns : Z → Ext unit;
  renderPattern : Renderable → Obj → Error + string;
  (* lineage_hunter, pattern_exporter, ui_builder, asset_copy *)
  cascade_pattern_states : Ext unit;
  export_patterns : Ext unit;
  buildFrontend : Ext unit;
  copyAssets : Options → Ext unit;
  (* the callback of the caller of a build *)
  run_callback : CallbackId → Ext unit
}.

Section Orchestrator.
Context `{Collaborators}.

(** ** The file system

    A call is recorded in the trace, then it returns or throws. *)

Definition fs_read (path : string) : M string :=
  out (FsRead path);; lift (fs_readFileSync path).

Definition fs_write (path content : string) : M unit :=
  out (FsOutputFile path content);; lift (fs_outputFileSync path content).

Definition fs_empty (path : string) : M unit :=
  out (FsEmptyDir path);; lift (fs_emptyDirSync path).

(** ** [writePatternFiles] *)

Definition nullFormatter (str : string) (_ : Pattern) : string := str.

Definition defaultFormatter (codeString : string) (_ : Pattern) : string :=
  cleanHtml codeString 2.

Record Formatters := mkFormatters {
  fmt_rendered : string → Pattern → string;
  fmt_rawTemplate : string → Pattern → string;
  fmt_markupOnly : string → Pattern → string
}.

(** beautify the output if configured to do so *)
Definition formatters (cfg : Config) (eng : Engine) : Formatters :=
  if cleanOutputHtml cfg then
    mkFormatters (default defaultFormatter (renderedCodeFormatter eng))
                 (default defaultFormatter (rawTemplateCodeFormatter eng))
                 (default defaultFormatter (markupOnlyCodeFormatter eng))
  else
    mkFormatters nullFormatter nullFormatter nullFormatter.

Definition makePath (p : PatternLab) (pattern : Pattern) (type : string) : string :=
  path_join (public_patterns (paths (config p))) (getPatternLink pattern p type).

(** prepare the path and contents of each output file *)
Definition outputFiles (p : PatternLab) (headHTML : string) (pattern : Pattern)
    (footerHTML : string) : list OutputFile :=
  let patternPage := headHTML +:+ patternPartialCode pattern +:+ footerHTML in
  let eng := engines (engine pattern) in
  let fmts := formatters (config p) eng in
  [ mkOutputFile (makePath p pattern "rendered")
                 (fmt_rendered fmts patternPage pattern);
    mkOutputFile (makePath p pattern "rawTemplate")
                 (fmt_rawTemplate fmts (template pattern) pattern);
    mkOutputFile (makePath p pattern "markupOnly")
                 (fmt_markupOnly fmts (patternPartialCode pattern) pattern) ]
  ++ match addOutputFiles eng with
     | Some f => f (paths (config p)) p
     | None => []
     end.

Definition writePatternFiles (headHTML : string) (r : ref) (footerHTML : string)
    : M unit :=
  do pattern <- deref r;
  do p <- get_pl;
  forEach (λ outFile, fs_write (of_path outFile) (of_content outFile))
          (outputFiles p headHTML pattern footerHTML).

(** ** [renderSinglePattern] *)

(** [patternlab.graph.node(pattern).compileState = pattern.compileState = s].
    The node is looked up first, the pattern is assigned next, the node
    last. *)
Definition assign_compileState (r : ref) (s : CompileState) : M unit :=
  do p <- get_pl;
  match graph p with
  | None => throw "TypeError: Cannot read properties of null (reading 'node')"
  | Some g =>
      assign r (set_compileState s);;
      match nodes g !! r with
      | None =>
          throw "TypeError: Cannot set properties of undefined (setting 'compileState')"
      | Some _ =>
          modify_pl (set_graph (Some (with_node r s g)))
      end
  end.

(** The copy of the global data, [undefined] when [jsonCopy] throws. *)
Definition copy_global_data (pattern : Pattern) : M (option Obj) :=
  do p <- get_pl;
  try_catch
    (do d <- lift (jsonCopy (data p) "config.paths.source.data global data");
     ret (Some d))
    (λ err,
       console_log ("There was an error parsing JSON for " +:+ relPath pattern);;
       console_log err;;
       ret None).

(** construct our extraOutput dump *)
Definition extraOutput_dump (pattern : Pattern) : Obj :=
  let extraOutput := obj_assign (obj_assign [] (extraOutput pattern)) (allMarkdown pattern) in
  obj_delete "markdown" (obj_delete "state" (obj_delete "title" extraOutput)).

(** The object that [JSON.stringify] turns into [pattern.patternData]. *)
Definition patternDataObject (pattern : Pattern) : JSON :=
  JObj [
    ("cssEnabled", JBool false);
    ("patternLineageExists", JBool (patternLineageExists pattern));
    ("patternLineages", JArr (patternLineages pattern));
    ("lineage", JArr (patternLineages pattern));
    ("patternLineageRExists", JBool (patternLineageRExists pattern));
    ("patternLineagesR", JArr (patternLineagesR pattern));
    ("lineageR", JArr (patternLineagesR pattern));
    ("patternLineageEExists",
       JBool (patternLineageExists pattern || patternLineageRExists pattern));
    ("patternDesc",
       JStr (if patternDescExists pattern then patternDesc pattern else ""));
    ("patternBreadcrumb",
       if decide (patternGroup pattern = patternSubGroup pattern) then
         JObj [("patternType", JStr (patternGroup pattern))]
       else
         JObj [("patternType", JStr (patternGroup pattern));
               ("patternSubtype", JStr (patternSubGroup pattern))]);
    ("patternExtension", JStr (substr1 (fileExtension pattern)));
    ("patternName", JStr (patternName pattern));
    ("patternPartial", JStr (patternPartial pattern));
    ("patternState", JStr (patternState pattern));
    ("patternEngineName", JStr (engineName (engines (engine pattern))));
    ("extraOutput", JObj (extraOutput_dump pattern))
  ].

(** The body of [renderSinglePattern] between its two transitions of the
    compile state: from the lineage flags to the write-end event. *)
Definition render_and_write (r : ref) (head : string) : M unit :=
  (* todo move this into lineage_hunter *)
  assign r (λ p, set_patternLineages (lineage p) p);;
  assign r (λ p, set_patternLineageExists (bool_decide (0 < length (lineage p))%nat) p);;
  assign r (λ p, set_patternLineagesR (lineageR p) p);;
  assign r (λ p, set_patternLineageRExists (bool_decide (0 < length (lineageR p))%nat) p);;
  assign r (λ p, set_patternLineageEExists
                   (patternLineageExists p || patternLineageRExists p) p);;
  events_emit "patternlab-pattern-before-data-merge" (Some r);;
  (* render the pattern, but first consolidate any data we may have *)
  do pattern <- deref r;
  do copied <- copy_global_data pattern;
  do p <- get_pl;
  let allData :=
    obj_set "cacheBuster" (JNum (cacheBuster p))
            (lodash_merge copied (jsonFileData pattern)) in
  (* re-rendering the headHTML each time allows pattern-specific data to
     influence the head of the pattern *)
  assign r (set_p_header head);;
  do pattern <- deref r;
  do headHTML <- lift (renderPattern (RTemplate (p_header pattern)) allData);
  (* render the extendedTemplate with all data *)
  do code <- lift (renderPattern (RPattern pattern) allData);
  assign r (set_patternPartialCode code);;
  do pattern <- deref r;
  assign r (set_patternData (JSON_stringify (patternDataObject pattern)));;
  do pattern <- deref r;
  (* set the pattern-specific footer by compiling the general-footer with
     data, and then adding it to the meta footer *)
  do footerPartial <-
    lift (renderPattern (RTemplate (footer p))
            [("isPattern", JBool (isPattern pattern));
             ("patternData", JStr (patternData pattern));
             ("cacheBuster", JNum (cacheBuster p))]);
  do copied <- copy_global_data pattern;
  let allFooterData :=
    obj_set "patternLabFoot" (JStr footerPartial)
            (lodash_merge copied (jsonFileData pattern)) in
  do footerHTML <- lift (renderPattern (RTemplate (userFoot p)) allFooterData);
  events_emit "patternlab-pattern-write-begin" (Some r);;
  (* write the compiled template to the public patterns directory *)
  writePatternFiles headHTML r footerHTML;;
  events_emit "patternlab-pattern-write-end" (Some r).

Definition renderSinglePattern (r : ref) (head : string) : M bool :=
  do pattern <- deref r;
  (* Pattern does not need to be built and recompiled more than once *)
  if negb (isPattern pattern) || bool_decide (compileState pattern = CLEAN) then
    ret false
  else
    (* Allows serializing the compile state *)
    assign_compileState r BUILDING;;
    render_and_write r head;;
    (* Allows serializing the compile state *)
    assign_compileState r CLEAN;;
    do pattern <- deref r;
    plutils_log_info ("Built pattern: " +:+ patternPartial pattern);;
    ret true.

(** ** The two-phase traversal *)

Definition buildPatternData (dataFilesPath : string) : Error + Obj :=
  loadDataFromFolder dataFilesPath "listitems".

(** The callback that [processAllPatternsIterative] gives to [dive]: it is
    called once per entry of the walk. *)
Definition load_file (patterns_dir : string) (entry : Error + string) : M unit :=
  match entry with
  | inl err =>
      (* log any errors *)
      console_log ("error in processAllPatternsIterative(): " +:+ err)
  | inr file =>
      (* NOTE: sync for now *)
      let rel := path_relative patterns_dir file in
      out (Called (load_pattern_iterative_call rel));;
      call_total (load_pattern_iterative rel)
  end.

(** The [then] callback of [promiseAllPatternFiles], the second phase: once
    we've loaded all patterns, start analysis. *)
Definition process_all_patterns : M Settled :=
  do p <- get_pl;
  do promises <-
    mapM (λ pattern,
            out (Called (process_pattern_iterative_call pattern));;
            call (process_pattern_iterative pattern))
         (patterns p);
  Promise_all promises.

(** [dive] resolves [promiseAllPatternFiles] when the walk is complete. *)
Definition processAllPatternsIterative (patterns_dir : string) : M Settled :=
  let promiseAllPatternFiles :=
    forEach (load_file patterns_dir) (dive patterns_dir);;
    ret Fulfilled in
  then_ promiseAllPatternFiles process_all_patterns.

Definition processAllPatternsRecursive (patterns_dir : string) : M unit :=
  forEach (λ entry,
             match entry with
             | inl err => console_log err
             | inr file =>
                 let rel := path_relative patterns_dir file in
                 out (Called (process_pattern_recursive_call rel));;
                 call (process_pattern_recursive rel)
             end)
          (diveSync patterns_dir).

(** ** Meta patterns *)

Definition head_missing_message (cfg : Config) : string :=
  nl +:+ "WARNING: Could not find the user-editable header template, currently configured to be at "
  +:+ path_join (source_meta (paths cfg)) "_00-head.mustache"
  +:+ ". Your configured path may be incorrect (check paths.source.meta in your config file), the file may have been deleted, or it may have been left in the wrong place during a migration or update."
  +:+ nl.

Definition foot_missing_message (cfg : Config) : string :=
  nl +:+ "WARNING: Could not find the user-editable footer template, currently configured to be at "
  +:+ path_join (source_meta (paths cfg)) "_01-foot.mustache"
  +:+ ". Your configured path may be incorrect (check paths.source.meta in your config file), the file may have been deleted, or it may have been left in the wrong place during a migration or update."
  +:+ nl.

(** Process the user-defined pattern head and prepare it for rendering *)
Definition processHeadPattern : M unit :=
  do p0 <- get_pl;
  try_catch
    (let headPath := path_resolve2 (source_meta (paths (config p0))) "_00-head.mustache" in
     do headPattern <- alloc (new_Pattern headPath p0);
     do t <- fs_read headPath;
     assign headPattern (set_template t);;
     assign headPattern (set_isPattern false);;
     assign headPattern (set_isMetaPattern true);;
     call (decomposePattern headPattern);;
     do hp <- deref headPattern;
     modify_pl (set_userHead (extendedTemplate hp)))
    (λ ex,
       plutils_error (head_missing_message (config p0));;
       do p <- get_pl;
       (if debug (config p) then console_log ex else ret ());;
       process_exit 1).

(** Process the user-defined pattern footer and prepare it for rendering *)
Definition processFootPattern : M unit :=
  do p0 <- get_pl;
  try_catch
    (let footPath := path_resolve2 (source_meta (paths (config p0))) "_01-foot.mustache" in
     do footPattern <- alloc (new_Pattern footPath p0);
     do t <- fs_read footPath;
     assign footPattern (set_template t);;
     assign footPattern (set_isPattern false);;
     assign footPattern (set_isMetaPattern true);;
     call (decomposePattern footPattern);;
     do fp <- deref footPattern;
     modify_pl (set_userFoot (extendedTemplate fp)))
    (λ ex,
       plutils_error (foot_missing_message (config p0));;
       do p <- get_pl;
       (if debug (config p) then console_log ex else ret ());;
       process_exit 1).

(** ** [buildPatterns] *)

(** Modelled from the spec: [PatternGraph.checkVersion] is not in this
    module; it checks the loaded graph's version stamp against the current
    schema version. *)
Definition checkVersion (g : Graph) : bool :=
  bool_decide (version g = PATTERN_GRAPH_VERSION).

(** Modelled from the spec: [graph.upgradeVersion] is not in this module;
    it upgrades the in-memory graph's version stamp and leaves the node
    states as they are. *)
Definition upgradeVersion (g : Graph) : Graph :=
  mkGraph PATTERN_GRAPH_VERSION (nodes g).

Definition loadPatternGraph (deletePatternDir : bool) : M Graph :=
  (* Sanity check to prevent problems when code is refactored *)
  if deletePatternDir then ret PatternGraph_empty
  else do p <- get_pl; ret (PatternGraph_loadFromFile p).

Definition setCacheBust : M unit :=
  do p <- get_pl;
  if cacheBust (config p) then
    (if debug (config p)
     then console_log "setting cacheBuster value for frontend assets."
     else ret ());;
    do t <- get_trace;
    modify_pl (set_cacheBuster (Date_getTime t))
  else
    modify_pl (set_cacheBuster 0).

Definition upgrade_message : string :=
  "Due to an upgrade, a complete rebuild is required and the public/patterns directory was deleted. "
  +:+ "Incremental build is available again on the next successful run.".

(** [paths.source.patternlabFiles] is an object: concatenated into a
    message it reads [[object Object]]. *)
Definition essential_file_message : string :=
  nl +:+ "ERROR: missing an essential file from " +:+ "[object Object]"
  +:+ ". Pattern Lab won't work without this file." +:+ nl.

(** The five structural templates, read in this order; each is stored as
    soon as it is read. *)
Definition read_structural_templates : M unit :=
  do p <- get_pl;
  let files := source_patternlabFiles (paths (config p)) in
  try_catch
    (do t <- fs_read (path_resolve (general_header files));
     modify_pl (set_header t);;
     do t <- fs_read (path_resolve (general_footer files));
     modify_pl (set_footer t);;
     do t <- fs_read (path_resolve (patternSection_file files));
     modify_pl (set_patternSection t);;
     do t <- fs_read (path_resolve (patternSectionSubtype_file files));
     modify_pl (set_patternSectionSubType t);;
     do t <- fs_read (path_resolve (viewall_file files));
     modify_pl (set_viewAll t))
    (λ ex,
       console_log ex;;
       plutils_error essential_file_message;;
       process_exit 1).

(** The first part of [buildPatterns]: the graph is loaded and checked, the
    flag [incrementalBuildsEnabled] is computed, and the public patterns
    directory is cleared when the flag is off. *)
Definition decide_rebuild (deletePatternDir : bool) : M bool :=
  do p <- get_pl;
  (if debug (config p) then
     console_log (chalk_bold (nl +:+ "====[ Pattern Lab / Node") +:+ " "
                  +:+ "- v" +:+ packageInfo_version +:+ " "
                  +:+ chalk_bold ("]====" +:+ nl))
   else ret ());;
  events_emit "patternlab-build-pattern-start" None;;
  do graph <- loadPatternGraph deletePatternDir;
  modify_pl (set_graph (Some graph));;
  let graphNeedsUpgrade := negb (checkVersion graph) in
  (if graphNeedsUpgrade then
     plutils_log_info upgrade_message;;
     (* Ensure that the freshly built graph has the latest version again. *)
     modify_pl (set_graph (Some (upgradeVersion graph)))
   else ret ());;
  (* Flags *)
  let incrementalBuildsEnabled := negb (deletePatternDir || graphNeedsUpgrade) in
  (if incrementalBuildsEnabled then
     plutils_log_info "Incremental builds enabled."
   else
     (* needs to be done BEFORE processing patterns *)
     fs_empty (public_patterns (paths (config p))));;
  ret incrementalBuildsEnabled.

(** The second part of [buildPatterns]: the global data, the structural
    templates, the reset of the pattern collection. *)
Definition load_global_data : M unit :=
  do p <- get_pl;
  let paths := paths (config p) in
  try_catch
    (do d <- lift (buildPatternData (source_data paths));
     modify_pl (set_data d))
    (λ ex,
       plutils_error ("missing or malformed" +:+ source_data paths
                      +:+ "data.json  Pattern Lab may not work without this file.");;
       modify_pl (set_data []));;
  try_catch
    (do l <- lift (loadDataFromFile (path_resolve2 (source_data paths) "listitems"));
     modify_pl (set_listitems l))
    (λ ex,
       plutils_warning ("WARNING: missing or malformed " +:+ source_data paths
                        +:+ "listitems file.  Pattern Lab may not work without this file.");;
       modify_pl (set_listitems (JObj [])));;
  read_structural_templates;;
  modify_pl (set_patterns []);;
  modify_pl (set_subtypePatterns []);;
  modify_pl (set_partials []);;
  modify_pl (λ p, set_data (obj_set "link" (JObj []) (data p)) p);;
  setCacheBust;;
  call_total combine_listItems;;
  events_emit "patternlab-build-global-data-end" None.

(** [buildPatterns] up to the point where the directory walk of [dive] is
    started: this part runs before [buildPatterns] returns its promise.  It
    yields [incrementalBuildsEnabled], which the rest of the build closes
    over. *)
Definition buildPatterns_sync (deletePatternDir : bool) : M bool :=
  do incrementalBuildsEnabled <- decide_rebuild deletePatternDir;
  load_global_data;;
  ret incrementalBuildsEnabled.

(** The first steps of the [then] callback, up to the meta patterns. *)
Definition expand_patterns : M unit :=
  do p <- get_pl;
  events_emit "patternlab-pattern-iteration-end" None;;
  (* now that all the main patterns are known, look for any links that
     might be within data and expand them *)
  call parse_data_links;;
  (* diveSync again to recursively include partials *)
  processAllPatternsRecursive (source_patterns (paths (config p))).

(** The render set. *)
Definition patternsToBuild (incrementalBuildsEnabled : bool) : M (list ref) :=
  if incrementalBuildsEnabled then
    (* When the graph was loaded from file, some patterns might have been
       moved/deleted between runs so the graph data become out of sync *)
    do moved <- call graph_sync;
    forEach (λ n, plutils_log_info ("[Deleted/Moved] " +:+ n)) moved;;
    do t <- get_trace;
    let now := Date_getTime t in
    call (mark_modified_patterns now);;
    call graph_compileOrder
  else
    (* build all patterns, mark all to be rebuilt *)
    do p <- get_pl;
    let patternsToBuild := patterns p in
    forEach (λ r, assign r (set_compileState NEEDS_REBUILD)) patternsToBuild;;
    ret patternsToBuild.

(** render all patterns last, so lineageR works *)
Definition render_loop (head : string) (patternsToBuild : list ref) : M unit :=
  forEach (λ pattern, renderSinglePattern pattern head;; ret ()) patternsToBuild.

(** The cascade of the pattern states and the head of the pages: it yields
    [head]. *)
Definition effective_head : M string :=
  (* cascade any patternStates *)
  call cascade_pattern_states;;
  (* set pattern-specific header if necessary *)
  do p <- get_pl;
  let head := if truthy (userHead p) then userHead p else header p in
  do patternLabHead <-
    lift (renderPattern (RTemplate (header p)) [("cacheBuster", JNum (cacheBuster p))]);
  modify_pl (λ p, set_data (obj_set "patternLabHead" (JStr patternLabHead) (data p)) p);;
  ret head.

(** The last steps of the [then] callback. *)
Definition store_and_export : M unit :=
  (* Saves the pattern graph when all files have been compiled *)
  call PatternGraph_storeToFile;;
  do p <- get_pl;
  (if exportToGraphViz (config p) then
     call (PatternGraph_exportToDot "dependencyGraph.dot");;
     plutils_log_info ("Exported pattern graph to "
                       +:+ path_join (public_root (paths (config p))) "dependencyGraph.dot")
   else ret ());;
  (* export patterns if necessary *)
  call export_patterns.

(** The steps of the [then] callback after the meta patterns. *)
Definition render_and_store (incrementalBuildsEnabled : bool) : M unit :=
  do head <- effective_head;
  do patternsToBuild <- patternsToBuild incrementalBuildsEnabled;
  render_loop head patternsToBuild;;
  store_and_export.

(** The [then] callback of [buildPatterns]: everything after discovery. *)
Definition after_discovery (incrementalBuildsEnabled : bool) : M unit :=
  expand_patterns;;
  (* take the user defined head and foot and process any data and patterns
     that apply *)
  processHeadPattern;;
  processFootPattern;;
  render_and_store incrementalBuildsEnabled.

(** The rest of [buildPatterns]: the promise chain, run until it settles. *)
Definition buildPatterns_async (incrementalBuildsEnabled : bool) : M Settled :=
  do p <- get_pl;
  catch_
    (then_ (processAllPatternsIterative (source_patterns (paths (config p))))
           (after_discovery incrementalBuildsEnabled;; ret Fulfilled))
    (λ err, console_log ("Error in buildPatterns(): " +:+ err)).

(** [buildPatterns], from the call to the settlement of its promise. *)
Definition buildPatterns (deletePatternDir : bool) : M Settled :=
  do incrementalBuildsEnabled <- buildPatterns_sync deletePatternDir;
  buildPatterns_async incrementalBuildsEnabled.

(** ** The public entry points *)

Definition printDebug : M unit :=
  do p <- get_pl;
  (* debug file can be written by setting flag on patternlab-config.json *)
  if debug (config p) then
    console_log "writing patternlab debug file to ./patternlab.json";;
    do p <- get_pl;
    do patterns <- get_heap;
    do json <- lift (JSON_stringify_patternlab p patterns);
    fs_write "./patternlab.json" json
  else ret ().

Definition busy_message : string :=
  "Pattern Lab is busy building a previous run - returning early.".

(** The promise an entry point returns: already resolved, or pending on the
    build that the call started. *)
Inductive Promise :=
| Resolved
| Pending (incrementalBuildsEnabled : bool).

(** An entry point up to its [return]: the busy guard, and the synchronous
    part of [buildPatterns]. *)
Definition enter_build (options : Options) : M Promise :=
  do p <- get_pl;
  if isBusy p then
    console_log busy_message;;
    ret Resolved
  else
    modify_pl (set_isBusy true);;
    do incrementalBuildsEnabled <- buildPatterns_sync (cleanPublic options);
    ret (Pending incrementalBuildsEnabled).

(** The [then] callback of [build]. *)
Definition build_then (callback : CallbackId) (options : Options) : M Settled :=
  call buildFrontend;;
  call (copyAssets options);;
  add_listener (mkListener "patternlab-pattern-change" false callback options);;
  add_listener (mkListener "patternlab-global-change" true callback options);;
  printDebug;;
  modify_pl (set_isBusy false);;
  call (run_callback callback);;
  ret Fulfilled.

(** The [then] callback of [patternsonly]. *)
Definition patternsonly_then (callback : CallbackId) : M Settled :=
  printDebug;;
  modify_pl (set_isBusy false);;
  call (run_callback callback);;
  ret Fulfilled.

(** The promise of an entry point, run until it settles. *)
Definition settle (cb : M Settled) (pr : Promise) : M Settled :=
  match pr with
  | Resolved => ret Fulfilled
  | Pending incrementalBuildsEnabled =>
      then_ (buildPatterns_async incrementalBuildsEnabled) cb
  end.

(** build patterns, copy assets, and construct ui *)
Definition build (callback : CallbackId) (options : Options) : M Settled :=
  do pr <- enter_build options;
  settle (build_then callback options) pr.

(** build patterns only, leaving existing public files intact *)
Definition patternsonly (callback : CallbackId) (options : Options) : M Settled :=
  do pr <- enter_build options;
  settle (patternsonly_then callback) pr.

(** ** The change events *)

(** The options a listener rebuilds with: the [options] it closes over,
    after its assignment to [options.cleanPublic]. *)
Definition rebuild_options (l : Listener) : Options :=
  mkOptions (l_cleanPublic l) (watch (l_options l)).

(** The body of a listener that [build] registers, up to its [return]. *)
Definition on_change (l : Listener) : M Promise :=
  do p <- get_pl;
  if negb (isBusy p) then enter_build (rebuild_options l)
  else ret Resolved.

Definition listeners_of (name : string) (ls : list Listener) : list Listener :=
  filter (λ l, on_event l = name) ls.

(** [events.emit(name)] for a change event: every listener registered under
    the name is called, in the order of registration.  The promises they
    return are handed back for the account of the calls. *)
Definition emit_change (name : string) : M (list Promise) :=
  do ls <- get_listeners;
  mapM on_change (listeners_of name ls).

(** The context as the constructor leaves it for a configuration. *)
Definition new_patternlab (cfg : Config) : World :=
  mkWorld (mkPatternLab cfg false None [] JNull "" "" "" "" "" "" "" [] [] [] 0)
          [] [] [].

End Orchestrator.

(** ** A small pattern library

    One pattern, [00-atoms/button.mustache], a mustache-like engine that
    renders a template to itself, and a disk on which the files listed in
    [missing] cannot be read.  [bad_links] makes [parse_data_links] throw;
    [stored_version] is the version stamp of the graph stored by the last
    run; [bad_template] makes the engine throw on every pattern. *)
Module Demo.

Definition mustache : Engine := mkEngine "mustache" None None None None.

Definition button (rel : string) : Pattern :=
  mkPattern rel true false NEEDS_REBUILD
    "<button>{{ label }}</button>" "<button>{{ label }}</button>" "" ""
    [] [] [] false [] false false
    "" false "atoms" "atoms" ".mustache" "button" "atoms-button" "inprogress"
    0%nat (Some [("title", JStr "Button"); ("order", JNum 1)])
    (Some [("state", JStr "inprogress"); ("markdown", JStr "<p>A button</p>")])
    (JObj [("label", JStr "OK")]) "".

Definition meta (path : string) : Pattern :=
  mkPattern path true false NEEDS_REBUILD "" "" "" ""
    [] [] [] false [] false false
    "" false "" "" ".mustache" "" "" "" 0%nat None None JNull "".

Definition add_pattern (rel : string) (st : Store) : Store :=
  let '(p, h) := st in
  (set_graph (with_node (length h) NEEDS_REBUILD <$> graph p)
     (set_patterns (patterns p ++ [length h]) p),
   h ++ [button rel]).

Definition nothing {A} (a : A) : Ext A := λ st, (Normal a, st).

Definition env (missing : list string) (bad_links : bool) (stored_version : Z)
    (bad_template : bool) : Collaborators := {|
  packageInfo_version := "3.0.0";
  chalk_bold := λ s, s;
  path_resolve := λ p, p;
  path_resolve2 := λ a b, a +:+ "/" +:+ b;
  path_join := λ a b, a +:+ "/" +:+ b;
  path_relative := λ _ file, file;
  cleanHtml := λ s _, s;
  JSON_stringify := λ _, "{...}";
  JSON_stringify_patternlab := λ _ _, inr "{...}";
  lodash_merge := λ copied j,
    obj_assign (default [] copied)
               (match j with JObj kvs => Some kvs | _ => None end);
  Date_getTime := λ t, Z.of_nat (length t);
  fs_readFileSync := λ path,
    if bool_decide (path ∈ missing)
    then inl ("ENOENT: no such file or directory, open '" +:+ path +:+ "'")
    else inr ("<!-- " +:+ path +:+ " -->");
  fs_outputFileSync := λ _ _, inr ();
  fs_emptyDirSync := λ _, inr ();
  dive := λ _, [inr "00-atoms/button.mustache"];
  diveSync := λ _, [inr "00-atoms/button.mustache"];
  loadDataFromFolder := λ _ _, inr [];
  loadDataFromFile := λ _, inr (JObj []);
  jsonCopy := λ o _, inr o;
  PATTERN_GRAPH_VERSION := 1;
  PatternGraph_empty := mkGraph 1 ∅;
  PatternGraph_loadFromFile := λ _, mkGraph stored_version ∅;
  graph_sync := nothing [];
  graph_compileOrder := λ st, (Normal (patterns st.1), st);
  PatternGraph_storeToFile := nothing ();
  PatternGraph_exportToDot := λ _, nothing ();
  new_Pattern := λ path _, meta path;
  getPatternLink := λ pattern _ type, patternPartial pattern +:+ "." +:+ type +:+ ".html";
  engines := λ _, mustache;
  load_pattern_iterative := add_pattern;
  process_pattern_iterative := λ _, nothing (pending (nothing Fulfilled));
  process_pattern_recursive := λ _, nothing ();
  decomposePattern := λ _, nothing ();
  combine_listItems := λ st, st;
  parse_data_links := λ st,
    if bad_links then (Throw "TypeError: Cannot read properties of undefined", st)
    else (Normal (), st);
  mark_modified_patterns := λ _, nothing ();
  renderPattern := λ what _,
    match what with
    | RTemplate s => inr s
    | RPattern p =>
        if bad_template then inl ("Error: Unclosed tag in " +:+ relPath p)
        else inr (extendedTemplate p)
    end;
  cascade_pattern_states := nothing ();
  export_patterns := nothing ();
  buildFrontend := nothing ();
  copyAssets := λ _, nothing ();
  run_callback := λ _, nothing ()
|}.

Definition files : PatternlabFiles :=
  mkPatternlabFiles "styleguide/general-header.mustache"
    "styleguide/general-footer.mustache" "styleguide/patternSection.mustache"
    "styleguide/patternSectionSubtype.mustache" "styleguide/viewall.mustache".

Definition config : Config :=
  mkConfig (mkPaths "source/_data" "source/_meta" "source/_patterns" files
              "public/patterns" "public")
           false false false false.

Definition options : Options := mkOptions true false.

(** A context with one pattern in the given state. *)
Definition loaded (isPattern : bool) (state : CompileState) : World :=
  let p := set_isPattern isPattern (set_compileState state (button "00-atoms/button.mustache")) in
  mkWorld (mkPatternLab config false (Some (mkGraph 1 {[ 0%nat := state ]}))
             [] JNull "<head>" "<foot>" "" "" "" "" "" [0%nat] [] [] 0)
          [p] [] [].

(** The library on a good disk, and with data links that do not parse. *)
Definition sunny : Collaborators := env [] false 1 false.
Definition bad_links : Collaborators := env [] true 1 false.
Definition bad_template : Collaborators := env [] false 1 true.

(** The library after an upgrade: the stored graph has an old stamp. *)
Definition upgraded : Collaborators := env [] false 0 false.



(** A session before its first build, and one in the middle of a build. *)
Definition fresh : World := new_patternlab config.
Definition busy : World :=
  mkWorld (set_isBusy true (pl fresh)) [] [] [].

(** A full rebuild with bad data links: the context when [buildPatterns]
    returns its promise, and when Phase 1 is fulfilled. *)
Definition bootstrapped : World :=
  snd (@buildPatterns_sync bad_links true fresh).
Definition discovered : World :=
  snd (@processAllPatternsIterative bad_links "source/_patterns" bootstrapped).

(** A full rebuild on a given disk, up to the meta patterns: the context
    when [buildPatterns] returns its promise, when Phase 1 is fulfilled, when
    the patterns are expanded, when the user head is processed. *)
Definition started (disk : Collaborators) : World :=
  snd (@buildPatterns_sync disk true fresh).

(** An incremental build after an upgrade, step by step up to its render
    set. *)
Definition upgrade_started : World :=
  snd (@buildPatterns_sync upgraded false fresh).
Definition upgrade_loaded : World :=
  snd (@processAllPatternsIterative upgraded "source/_patterns" upgrade_started).
Definition upgrade_expanded : World :=
  snd (@expand_patterns upgraded upgrade_loaded).
Definition upgrade_with_head : World :=
  snd (@processHeadPattern upgraded upgrade_expanded).
Definition upgrade_with_foot : World :=
  snd (@processFootPattern upgraded upgrade_with_head).
Definition upgrade_at_render_set : World :=
  snd (@effective_head upgraded upgrade_with_foot).

End Demo.

(** * Specification vocabulary

    What the properties below are stated with: relations between the world
    before and after a run, and readings of a trace. *)

Section Vocabulary.
Context `{Collaborators}.

(** ** Relations between the world before and after a run *)

(** [m] relates every world it starts in to the world it leaves. *)
Definition preserves {A} (R : relation World) (m : M A) : Prop :=
  ∀ w c w', m w = (c, w') → R w w'.

(** The trace grows by events that satisfy [P]. *)
Definition extends (P : Event → Prop) : relation World := λ w w',
  ∃ t, trace w' = trace w ++ t ∧ Forall P t.

(** The heap is the same outside of [r]. *)
Definition frame (r : ref) : relation World := λ w w',
  ∀ r', r' ≠ r → heap w' !! r' = heap w !! r'.

(** The pattern at [r] keeps its [proj]. *)
Definition keeps {A} (proj : Pattern → A) (r : ref) : relation World := λ w w',
  proj <$> heap w' !! r = proj <$> heap w !! r.

(** The graph is left as it is. *)
Definition same_graph : relation World := λ w w',
  graph (pl w') = graph (pl w).

(** The listeners are left as they are. *)
Definition same_listeners : relation World := λ w w',
  listeners w' = listeners w.

(** ** A render *)

Definition is_console (ev : Event) : Prop :=
  match ev with
  | ConsoleLog _ => True
  | _ => False
  end.

Definition writes (files : list OutputFile) : list Event :=
  (λ outFile, FsOutputFile (of_path outFile) (of_content outFile)) <$> files.

(** The five lineage assignments of [renderSinglePattern]. *)
Definition lineage_flags (p : Pattern) : Pattern :=
  let p := set_patternLineages (lineage p) p in
  let p := set_patternLineageExists (bool_decide (0 < length (lineage p))%nat) p in
  let p := set_patternLineagesR (lineageR p) p in
  let p := set_patternLineageRExists (bool_decide (0 < length (lineageR p))%nat) p in
  set_patternLineageEExists (patternLineageExists p || patternLineageRExists p) p.

Definition with_patternData (p : Pattern) : Pattern :=
  set_patternData (JSON_stringify (patternDataObject p)) p.

(** The pattern as [writePatternFiles] finds it, for the pattern [p] that
    entered [render_and_write]. *)
Definition composed (head code : string) (p : Pattern) : Pattern :=
  with_patternData (set_patternPartialCode code (set_p_header head (lineage_flags p))).

Definition before_data_merge (r : ref) : Event :=
  Emit "patternlab-pattern-before-data-merge" (Some r).
Definition write_begin (r : ref) : Event :=
  Emit "patternlab-pattern-write-begin" (Some r).
Definition write_end (r : ref) : Event :=
  Emit "patternlab-pattern-write-end" (Some r).

(** What a render that returns [true] has done. *)
Definition rendered (r : ref) (head : string) (w w' : World) : Prop :=
  ∃ p0 g st code headHTML footerHTML logs allData allFooterData,
    heap w !! r = Some p0 ∧ isPattern p0 = true ∧ compileState p0 ≠ CLEAN ∧
    graph (pl w) = Some g ∧ nodes g !! r = Some st ∧
    let building := set_compileState BUILDING p0 in
    let written := composed head code building in
    renderPattern (RTemplate head) allData = inr headHTML ∧
    renderPattern (RPattern (set_p_header head (lineage_flags building))) allData
      = inr code ∧
    renderPattern (RTemplate (userFoot (pl w))) allFooterData = inr footerHTML ∧
    heap w' !! r = Some (set_compileState CLEAN written) ∧
    pl w' = set_graph (Some (with_node r CLEAN (with_node r BUILDING g))) (pl w) ∧
    listeners w' = listeners w ∧
    Forall is_console logs ∧
    trace w' =
      trace w ++ before_data_merge r :: logs
      ++ write_begin r
         :: writes (outputFiles (set_graph (Some (with_node r BUILDING g)) (pl w))
                      headHTML written footerHTML)
      ++ [write_end r; Log LInfo ("Built pattern: " +:+ patternPartial p0)].

(** ** The render loop *)

(** The number of times [write_begin r] occurs in a trace: the renders of
    [r]. *)
Definition renders (r : ref) (t : list Event) : nat :=
  length (filter (λ ev, ev = write_begin r) t).

Definition not_render_of (r : ref) (ev : Event) : Prop := ev ≠ write_begin r.

(** [m] renders [r] at most once. *)
Definition once (r : ref) {A} (m : M A) : Prop :=
  ∀ w c w', m w = (c, w') → ∃ t, trace w' = trace w ++ t ∧ (renders r t ≤ 1)%nat.

(** A pattern that [renderSinglePattern] leaves alone. *)
Definition skipped (r : ref) (w : World) : Prop :=
  ∃ p, heap w !! r = Some p ∧ (isPattern p = false ∨ compileState p = CLEAN).

(** The compile state of the pattern at [r]: on the [Pattern] object and on
    its node of the dependency graph. *)
Definition compileStates (r : ref) (w : World)
    : option CompileState * option CompileState :=
  (compileState <$> heap w !! r, g ← graph (pl w); nodes g !! r).

Definition is_pattern (r : ref) (w : World) : Prop :=
  isPattern <$> heap w !! r = Some true.

Definition clean (r : ref) (w : World) : Prop :=
  compileState <$> heap w !! r = Some CLEAN.

Definition patternData_fields : list string :=
  ["cssEnabled"; "patternLineageExists"; "patternLineages"; "lineage";
   "patternLineageRExists"; "patternLineagesR"; "lineageR";
   "patternLineageEExists"; "patternDesc"; "patternBreadcrumb";
   "patternExtension"; "patternName"; "patternPartial"; "patternState";
   "patternEngineName"; "extraOutput"].

Definition not_a_write (ev : Event) : Prop :=
  match ev with
  | FsOutputFile _ _ => False
  | _ => True
  end.

(** What an engine adds to the three variants. *)
Definition engine_files (p : PatternLab) (pattern : Pattern) : list OutputFile :=
  match addOutputFiles (engines (engine pattern)) with
  | Some f => f (paths (config p)) p
  | None => []
  end.

(** ** Full rebuilds *)

Definition not_a_clearing (ev : Event) : Prop :=
  match ev with
  | FsEmptyDir _ => False
  | _ => True
  end.

Definition mark_all (l : list ref) (h : list Pattern) : list Pattern :=
  foldl (λ h r, alter (set_compileState NEEDS_REBUILD) r h) h l.

(** The log of the nodes that [graph.sync] reports. *)
Definition deleted_or_moved (nodes : list string) : list Event :=
  (λ n, Log LInfo ("[Deleted/Moved] " +:+ n)) <$> nodes.

(** The build that [buildPatterns deletePatternDir] starts in [w] gets to
    its render set in [w'], with the flag [incrementalBuildsEnabled] and
    with [head]: the part that runs before the promise is returned has
    returned, Phase 1 is fulfilled, and every step of the [then] callback
    before the render set has returned. *)
Definition at_render_set (deletePatternDir : bool) (w : World)
    (incrementalBuildsEnabled : bool) (head : string) (w' : World) : Prop :=
  ∃ w1 w2 w3 w4 w5,
    buildPatterns_sync deletePatternDir w = (Normal incrementalBuildsEnabled, w1)
    ∧ processAllPatternsIterative (source_patterns (paths (config (pl w1)))) w1
      = (Normal Fulfilled, w2)
    ∧ expand_patterns w2 = (Normal (), w3)
    ∧ processHeadPattern w3 = (Normal (), w4)
    ∧ processFootPattern w4 = (Normal (), w5)
    ∧ effective_head w5 = (Normal head, w').

(** The end of the promise chain of [buildPatterns], from the render loop
    on: the loop over the render set, the graph stored and the patterns
    exported, and the final [catch]. *)
Definition render_and_settle (head : string) (patternsToBuild : list ref) : M Settled :=
  catch_
    (try_catch (render_loop head patternsToBuild;; store_and_export;; ret Fulfilled)
               (λ e, ret (Rejected e)))
    (λ err, console_log ("Error in buildPatterns(): " +:+ err)).

(** ** Phase 1 *)

(** The files of a walk: its entries that are not errors. *)
Definition walked_files (entries : list (Error + string)) : list string :=
  omap (λ entry, match entry with inr file => Some file | inl _ => None end) entries.

(** The load steps of a trace, and its process steps. *)
Definition load_calls (t : list Event) : list string :=
  omap (λ ev, match ev with
              | Called (load_pattern_iterative_call file) => Some file
              | _ => None
              end) t.

Definition process_calls (t : list Event) : list ref :=
  omap (λ ev, match ev with
              | Called (process_pattern_iterative_call pattern) => Some pattern
              | _ => None
              end) t.

Definition is_process_call (ev : Event) : Prop :=
  match ev with
  | Called (process_pattern_iterative_call _) => True
  | _ => False
  end.

(** The store after the load step of every file, in the order of the
    walk. *)
Definition load_all (patterns_dir : string) (files : list string) (st : Store) : Store :=
  foldl (λ st file, load_pattern_iterative (path_relative patterns_dir file) st) st files.

Definition process_events (l : list ref) : list Event :=
  (λ pattern, Called (process_pattern_iterative_call pattern)) <$> l.

(** The process steps of the patterns of [l], started one after the other
    from the store [st]: the promises they hand back, and the store they
    leave.  There is no result when a step throws or ends the process. *)
Fixpoint start_steps (l : list ref) (st : Store) : option (list Deferred * Store) :=
  match l with
  | [] => Some ([], st)
  | pattern :: l' =>
      match process_pattern_iterative pattern st with
      | (Normal promise, st1) =>
          '(promises, st2) ← start_steps l' st1; Some (promise :: promises, st2)
      | _ => None
      end
  end.

(** The store in which every promise of [ps] is fulfilled: the work of
    each pending one has been done, from the store [st] on, and has
    fulfilled it.  There is no result when a promise is rejected, or when
    its work throws or ends the process. *)
Fixpoint all_fulfilled (ps : list Deferred) (st : Store) : option Store :=
  match ps with
  | [] => Some st
  | settled Fulfilled :: ps' => all_fulfilled ps' st
  | settled (Rejected _) :: _ => None
  | pending work :: ps' =>
      match work st with
      | (Normal Fulfilled, st1) => all_fulfilled ps' st1
      | _ => None
      end
  end.

Definition iteration_end : Event := Emit "patternlab-pattern-iteration-end" None.

Definition not_iteration_end (ev : Event) : Prop := ev ≠ iteration_end.

(** ** Fatal failures *)

(** An event of a build that has not rendered anything: no lifecycle event
    of a pattern, no file written. *)
Definition before_rendering (ev : Event) : Prop :=
  match ev with
  | Emit _ (Some _) => False
  | FsOutputFile _ _ => False
  | _ => True
  end.

(** The process has been ended with status 1 after the error [msg] was
    logged, and nothing has been rendered or written since [w]. *)
Definition fatal (msg : string) (w w' : World) : Prop :=
  ∃ t, trace w' = trace w ++ t
       ∧ Forall before_rendering t
       ∧ Log LError msg ∈ t
       ∧ last t = Some (ProcessExit 1).

Definition unreadable (path : string) : Prop :=
  ∃ ex, fs_readFileSync path = inl ex.


(** The five structural templates of a configuration. *)
Definition structural_templates (cfg : Config) : list string :=
  let files := source_patternlabFiles (paths cfg) in
  [ path_resolve (general_header files);
    path_resolve (general_footer files);
    path_resolve (patternSection_file files);
    path_resolve (patternSectionSubtype_file files);
    path_resolve (viewall_file files) ].



(** ** Exceptions and listeners *)

Definition never_throws {A} (m : M A) : Prop :=
  ∀ w c w', m w = (c, w') → ∀ e, c ≠ Throw e.

Definition pattern_change : string := "patternlab-pattern-change".
Definition global_change : string := "patternlab-global-change".

(** The two listeners that the [then] callback of [build] registers. *)
Definition registered (callback : CallbackId) (options : Options) : list Listener :=
  [mkListener pattern_change false callback options;
   mkListener global_change true callback options].

(** [n] builds in a row, each entered while the context is not busy and
    each fulfilled. *)
Inductive successful_builds : nat → World → World → Prop :=
| no_build w : successful_builds 0 w w
| next_build n w w1 w2 callback options :
    successful_builds n w w1 →
    isBusy (pl w1) = false →
    build callback options w1 = (Normal Fulfilled, w2) →
    successful_builds (S n) w w2.

End Vocabulary.

(** * The configuration check and the live server

    [checkConfiguration], which the constructor runs on the configuration
    it is given, and [serve], the entry point that builds and then starts
    the live server.  The configuration is here the object as it is parsed
    from [patternlab-config.json]; [Config] is the reading of it that a
    build uses. *)

(** ** JavaScript values, continued *)

(** A double quote. *)
Definition dq : string := String (Ascii.ascii_of_nat 34) EmptyString.

(** [!v], for a value that may be [undefined]. *)
Definition falsy (v : option JSON) : bool :=
  match v with
  | None | Some JNull | Some (JBool false) | Some (JNum 0)
  | Some (JStr EmptyString) => true
  | _ => false
  end.

(** [v[k]], for a key that is neither an index, nor [length], nor a
    property of a prototype: [undefined] on anything but an object that has
    the key, and a [TypeError] on [undefined] and on [null]. *)
Definition member (k : string) (v : option JSON) : Error + option JSON :=
  match v with
  | None =>
      inl ("TypeError: Cannot read properties of undefined (reading '" +:+ k +:+ "')")
  | Some JNull =>
      inl ("TypeError: Cannot read properties of null (reading '" +:+ k +:+ "')")
  | Some (JObj o) => inr (obj_get k o)
  | Some _ => inr None
  end.

(** What [_.extend] copies from a source: the properties of an object, the
    indices of an array or of a string, nothing of a number or of a
    boolean. *)
Definition enumerable (source : JSON) : Obj :=
  match source with
  | JObj o => o
  | JArr l => imap (λ i x, (pretty i, x)) l
  | JStr s => imap (λ i c, (pretty i, JStr (String c EmptyString))) (String.list_ascii_of_string s)
  | _ => []
  end.

(** [_.extend(object, source)]: a falsy source is skipped. *)
Definition lodash_extend (object : Obj) (source : option JSON) : Obj :=
  if falsy source then object else obj_assign object (enumerable <$> source).

(** ** [checkConfiguration] *)

Definition defaultOutputFileSuffixes : Obj :=
  [("rendered", JStr ".rendered");
   ("rawTemplate", JStr "");
   ("markupOnly", JStr ".markup-only")].

(** What [console.log] prints for an object: the text of [util.inspect],
    which depends on the version of Node. *)
Class Console := {
  util_inspect : JSON → string
}.

Definition suffixes_not_found_message : string :=
  "Configuration Object " +:+ dq +:+ "outputFileSuffixes" +:+ dq
  +:+ " not found, and defaulted to the following:".

Definition suffixes_required_message : string :=
  "Since Pattern Lab Node Core 2.3.0 this configuration option is required. "
  +:+ "Suggest you add it to your patternlab-config.json file.".

Definition patternlabFiles_string_message (found : string) : string :=
  "Configuration key [paths.source.patternlabFiles] inside patternlab-config.json "
  +:+ "was found as the string '" +:+ found +:+ "'".

Definition patternlabFiles_object_message : string :=
  "Since Pattern Lab Node Core 3.0.0 this key is an object. Suggest you update this "
  +:+ "key following this issue: https://github.com/pattern-lab/patternlab-node/issues/683.".

Section Configuration.
Context `{Console}.

(** [checkConfiguration(patternlab)] reads and assigns [patternlab.config]
    only: the configuration goes in, and comes out as the function leaves
    it when it returns.  When it throws, the constructor throws with it and
    hands out no [patternlab]; what the object of the caller then holds is
    not kept. *)
Definition checkConfiguration (config : Obj) : M Obj :=
  (* default the output suffixes if not present *)
  let outputFileSuffixes := defaultOutputFileSuffixes in
  (if falsy (obj_get "outputFileSuffixes" config) then
     plutils_warning suffixes_not_found_message;;
     console_log (util_inspect (JObj outputFileSuffixes));;
     plutils_warning suffixes_required_message;;
     console_log ""
   else ret ());;
  let config :=
    obj_set "outputFileSuffixes"
      (JObj (lodash_extend outputFileSuffixes (obj_get "outputFileSuffixes" config)))
      config in
  do source <- lift (member "source" (obj_get "paths" config));
  do patternlabFiles <- lift (member "patternlabFiles" source);
  match patternlabFiles with
  | Some (JStr found) =>
      plutils_warning (patternlabFiles_string_message found);;
      plutils_warning patternlabFiles_object_message
  | _ => ret ()
  end;;
  ret config.

(** What the check reads of the paths: [config.paths.source], which is
    [undefined] also when [config.paths] has no properties to read, and
    [config.paths.source.patternlabFiles]. *)
Definition nullish (v : option JSON) : bool :=
  match v with
  | None | Some JNull => true
  | _ => false
  end.

Definition paths_source (config : Obj) : option JSON :=
  match obj_get "paths" config with
  | Some (JObj paths) => obj_get "source" paths
  | _ => None
  end.

Definition paths_source_patternlabFiles (config : Obj) : option JSON :=
  match paths_source config with
  | Some (JObj source) => obj_get "patternlabFiles" source
  | _ => None
  end.

Definition suffix_warnings : list Event :=
  [Log LWarning suffixes_not_found_message;
   ConsoleLog (util_inspect (JObj defaultOutputFileSuffixes));
   Log LWarning suffixes_required_message;
   ConsoleLog ""].

End Configuration.

(** ** [serve] *)

(** [require('./serve')], and the empty function that [serve] gives to
    [build] as its callback. *)
Class Server `{Collaborators} := {
  serve_module : Ext unit;
  noop : CallbackId;
  noop_returns : ∀ st, run_callback noop st = (Normal (), st)
}.

Section Serve.
Context `{Server}.

(** build patterns, copy assets, and construct ui, watch source files, and
    serve locally *)
Definition serve (options : Options) : M Settled :=
  let options := mkOptions (cleanPublic options) true in
  then_ (build noop options) (call serve_module;; ret Fulfilled).

End Serve.

(** ** A library with faults

    The small pattern library in four more conditions: the global data
    cannot be loaded, the front end cannot be built, the user head or foot
    cannot be decomposed, the disk is full. *)
Module Faulty.

Definition env (no_data broken_frontend undecomposable full_disk : bool)
    : Collaborators := {|
  packageInfo_version := @packageInfo_version Demo.sunny;
  chalk_bold := @chalk_bold Demo.sunny;
  path_resolve := @path_resolve Demo.sunny;
  path_resolve2 := @path_resolve2 Demo.sunny;
  path_join := @path_join Demo.sunny;
  path_relative := @path_relative Demo.sunny;
  cleanHtml := @cleanHtml Demo.sunny;
  JSON_stringify := @JSON_stringify Demo.sunny;
  JSON_stringify_patternlab := @JSON_stringify_patternlab Demo.sunny;
  lodash_merge := @lodash_merge Demo.sunny;
  Date_getTime := @Date_getTime Demo.sunny;
  fs_readFileSync := @fs_readFileSync Demo.sunny;
  fs_outputFileSync := λ path _,
    if full_disk then inl ("ENOSPC: no space left on device, open '" +:+ path +:+ "'")
    else inr ();
  fs_emptyDirSync := @fs_emptyDirSync Demo.sunny;
  dive := @dive Demo.sunny;
  diveSync := @diveSync Demo.sunny;
  loadDataFromFolder := λ dir _,
    if no_data then inl ("SyntaxError: Unexpected end of JSON input in " +:+ dir)
    else inr [];
  loadDataFromFile := λ file,
    if no_data then inl ("ENOENT: no such file or directory, open '" +:+ file +:+ "'")
    else inr (JObj []);
  jsonCopy := @jsonCopy Demo.sunny;
  PATTERN_GRAPH_VERSION := @PATTERN_GRAPH_VERSION Demo.sunny;
  PatternGraph_empty := @PatternGraph_empty Demo.sunny;
  PatternGraph_loadFromFile := @PatternGraph_loadFromFile Demo.sunny;
  graph_sync := @graph_sync Demo.sunny;
  graph_compileOrder := @graph_compileOrder Demo.sunny;
  PatternGraph_storeToFile := @PatternGraph_storeToFile Demo.sunny;
  PatternGraph_exportToDot := @PatternGraph_exportToDot Demo.sunny;
  new_Pattern := @new_Pattern Demo.sunny;
  getPatternLink := @getPatternLink Demo.sunny;
  engines := @engines Demo.sunny;
  load_pattern_iterative := @load_pattern_iterative Demo.sunny;
  process_pattern_iterative := @process_pattern_iterative Demo.sunny;
  process_pattern_recursive := @process_pattern_recursive Demo.sunny;
  decomposePattern := λ _ st,
    if undecomposable then (Throw "Error: Could not find pattern partial", st)
    else (Normal (), st);
  combine_listItems := @combine_listItems Demo.sunny;
  parse_data_links := @parse_data_links Demo.sunny;
  mark_modified_patterns := @mark_modified_patterns Demo.sunny;
  renderPattern := @renderPattern Demo.sunny;
  cascade_pattern_states := @cascade_pattern_states Demo.sunny;
  export_patterns := @export_patterns Demo.sunny;
  buildFrontend := λ st,
    if broken_frontend then (Throw "Error: ENOENT: no such file or directory, scandir 'public/styleguide'", st)
    else (Normal (), st);
  copyAssets := @copyAssets Demo.sunny;
  run_callback := @run_callback Demo.sunny
|}.

Definition no_data : Collaborators := env true false false false.
Definition broken_frontend : Collaborators := env false true false false.
Definition undecomposable : Collaborators := env false false true false.
Definition full_disk : Collaborators := env false false false true.

(** A console that prints an object on one line. *)
Definition console : Console := {|
  util_inspect := λ v,
    match v with
    | JObj _ => "{ rendered: '.rendered', rawTemplate: '', markupOnly: '.markup-only' }"
    | _ => ""
    end
|}.

(** A live server that starts, for the library on a good disk. *)
Definition server : @Server Demo.sunny :=
  @Build_Server Demo.sunny (Demo.nothing ()) 7%nat
    (λ st, eq_refl : @run_callback Demo.sunny 7%nat st = (Normal (), st)).

(** A session in debug mode before its first build. *)
Definition debugging : World :=
  new_patternlab (mkConfig (paths Demo.config) true false false false).

(** A session with one finished build, and with two. *)
Definition built : World :=
  snd (@build Demo.sunny 0%nat Demo.options Demo.fresh).
Definition rebuilt : World :=
  snd (@build Demo.sunny 0%nat Demo.options built).

(** A configuration file that says nothing about the suffixes, one that
    sets one of them, one from before version 3. *)
Definition paths : JSON :=
  JObj [("source",
         JObj [("patterns", JStr "./source/_patterns/");
               ("patternlabFiles",
                JObj [("general-header", JStr "./node_modules/styleguidekit/views/general-header.mustache")])])].

Definition suffixed : Obj :=
  [("outputFileSuffixes", JObj [("rendered", JStr ""); ("markupOnly", JStr ".markup")]);
   ("paths", paths)].

Definition legacy : Obj :=
  [("paths",
    JObj [("source",
           JObj [("patternlabFiles", JStr "./node_modules/styleguidekit/views/")])])].

Definition pathless : Obj := [("cacheBust", JBool true)].

End Faulty.

(** * Vocabulary, continued *)

Section Stages.
Context `{Collaborators}.

Definition readable (path : string) : Prop :=
  ∃ content, fs_readFileSync path = inr content.

(** ** The lifecycle of a build *)

(** The lifecycle events of a trace that are not about one pattern. *)
Definition lifecycle (t : list Event) : list string :=
  omap (λ ev, match ev with
              | Emit name None => Some name
              | _ => None
              end) t.

Definition build_stages : list string :=
  ["patternlab-build-pattern-start";
   "patternlab-build-global-data-end";
   "patternlab-pattern-iteration-end"].

(** The stage of a build: the number of lifecycle events it has emitted.
    An event is in order at a stage if it is the lifecycle event that is
    next, or an event of a pattern or a file write when all the stages are
    passed, or any other event. *)
Definition stage_step (s : nat) (ev : Event) : option nat :=
  match ev with
  | Emit name None =>
      if decide (build_stages !! s = Some name) then Some (S s) else None
  | Emit _ (Some _) | FsOutputFile _ _ =>
      if decide (s = length build_stages) then Some s else None
  | _ => Some s
  end.

Fixpoint stage_run (s : nat) (t : list Event) : option nat :=
  match t with
  | [] => Some s
  | ev :: t' => s' ← stage_step s ev; stage_run s' t'
  end.

(** The trace grows by events in order, from stage [s] to stage [s']. *)
Definition advances (s s' : nat) : relation World := λ w w',
  ∃ t, trace w' = trace w ++ t ∧ stage_run s t = Some s'.

(** An event that is in order at every stage and leaves the stage as it
    is. *)
Definition quiet (ev : Event) : Prop :=
  match ev with
  | Emit _ _ => False
  | FsOutputFile _ _ => False
  | _ => True
  end.

(** An event that is in order once all the stages are passed. *)
Definition not_lifecycle (ev : Event) : Prop :=
  match ev with
  | Emit _ None => False
  | _ => True
  end.

(** [m], started at stage [s], emits its events in order; when it returns,
    the stage is [s']. *)
Definition reaches (s s' : nat) {A} (m : M A) : Prop :=
  ∀ w c w', m w = (c, w') →
    ∃ s'', advances s s'' w w' ∧ ∀ a, c = Normal a → s'' = s'.

(** [m], started at stage [s], emits its events in order. *)
Definition in_order (s : nat) {A} (m : M A) : Prop :=
  ∀ w c w', m w = (c, w') → ∃ s'', advances s s'' w w'.

(** ** The busy flag *)

(** The busy flag is left as it is. *)
Definition same_flag : relation World := λ w w',
  isBusy (pl w') = isBusy (pl w).

Definition leaves_flag {A} (f : Ext A) : Prop :=
  ∀ st, isBusy (f st).2.1 = isBusy st.1.

(** No collaborator assigns [patternlab.isBusy]: the flag belongs to the
    entry points. *)
Record private_flag : Prop := {
  flag_load_pattern_iterative :
    ∀ file st, isBusy (load_pattern_iterative file st).1 = isBusy st.1;
  flag_combine_listItems : ∀ st, isBusy (combine_listItems st).1 = isBusy st.1;
  flag_process_pattern_iterative : ∀ r, leaves_flag (process_pattern_iterative r);
  flag_pending :
    ∀ r st work, (process_pattern_iterative r st).1 = Normal (pending work) →
      leaves_flag work;
  flag_process_pattern_recursive : ∀ file, leaves_flag (process_pattern_recursive file);
  flag_decomposePattern : ∀ r, leaves_flag (decomposePattern r);
  flag_parse_data_links : leaves_flag parse_data_links;
  flag_mark_modified_patterns : ∀ now, leaves_flag (mark_modified_patterns now);
  flag_graph_sync : leaves_flag graph_sync;
  flag_graph_compileOrder : leaves_flag graph_compileOrder;
  flag_PatternGraph_storeToFile : leaves_flag PatternGraph_storeToFile;
  flag_PatternGraph_exportToDot : ∀ name, leaves_flag (PatternGraph_exportToDot name);
  flag_cascade_pattern_states : leaves_flag cascade_pattern_states;
  flag_export_patterns : leaves_flag export_patterns;
  flag_buildFrontend : leaves_flag buildFrontend;
  flag_copyAssets : ∀ options, leaves_flag (copyAssets options);
  flag_run_callback : ∀ callback, leaves_flag (run_callback callback)
}.

(** ** The order of the render loop *)

(** The patterns of the write-begin events of a trace. *)
Definition write_begins (t : list Event) : list ref :=
  omap (λ ev, match ev with
              | Emit name (Some r) =>
                  if decide (name = "patternlab-pattern-write-begin") then Some r
                  else None
              | _ => None
              end) t.

(** [m] begins to write the patterns of a part of [l], in the order of
    [l]. *)
Definition writes_in_order (l : list ref) {A} (m : M A) : Prop :=
  ∀ w c w', m w = (c, w') →
    ∃ t, trace w' = trace w ++ t ∧ write_begins t `sublist_of` l.

(** ** Change events *)

(** The two listeners of one registration are there or none is. *)
Definition balanced (ls : list Listener) : Prop :=
  length (listeners_of pattern_change ls) = length (listeners_of global_change ls).

End Stages.

(** * Properties *)

(** ** Objects *)

Lemma keys_obj_delete (k k' : string) (o : Obj) :
  k' ∈ keys (obj_delete k o) ↔ k' ∈ keys o ∧ k' ≠ k.
Proof.
  unfold keys, obj_delete. rewrite !list_elem_of_fmap. split.
  - intros [[k0 v] [-> Hin]]. apply list_elem_of_filter in Hin as [Hne Hin].
    split; [exists (k0, v); done | done].
  - intros [[[k0 v] [-> Hin]] Hne]. exists (k0, v). split; [done|].
    apply list_elem_of_filter. done.
Qed.

Lemma keys_obj_set (k k' : string) (v : JSON) (o : Obj) :
  k' ∈ keys (obj_set k v o) ↔ k' = k ∨ k' ∈ keys o.
Proof.
  unfold keys. induction o as [|[k0 v0] o IH]; simpl.
  - rewrite list_elem_of_singleton. split; [by left | intros [?|Hin]; [done|]].
    by apply elem_of_nil in Hin.
  - case_decide as Hk; simpl; rewrite !elem_of_cons.
    + subst. tauto.
    + rewrite IH. tauto.
Qed.

Lemma keys_obj_assign (k : string) (target : Obj) (source : option Obj) :
  k ∈ keys (obj_assign target source) ↔ k ∈ keys target ∨ k ∈ keys (default [] source).
Proof.
  destruct source as [s|]; simpl.
  - revert target. induction s as [|[k0 v0] s IH]; intros target; simpl.
    + split; [by left | intros [?|Hin]; [done|]]. by apply elem_of_nil in Hin.
    + rewrite IH, keys_obj_set. unfold keys. simpl. rewrite elem_of_cons. tauto.
  - split; [by left | intros [?|Hin]; [done|]]. by apply elem_of_nil in Hin.
Qed.

(** ** Relations between the world before and after a run *)

Global Instance keeps_preorder {A} (proj : Pattern → A) r : PreOrder (keeps proj r).
Proof.
  split.
  - by intros w.
  - intros w1 w2 w3 E1 E2. unfold keeps in *. by rewrite E2.
Qed.

Global Instance same_graph_preorder : PreOrder same_graph.
Proof.
  split.
  - by intros w.
  - intros w1 w2 w3 E1 E2. unfold same_graph in *. by rewrite E2.
Qed.

Global Instance same_listeners_preorder : PreOrder same_listeners.
Proof.
  split.
  - by intros w.
  - intros w1 w2 w3 E1 E2. unfold same_listeners in *. by rewrite E2.
Qed.

Global Instance extends_preorder P : PreOrder (extends P).
Proof.
  split.
  - intros w. exists []. by rewrite app_nil_r.
  - intros w1 w2 w3 (t1 & E1 & F1) (t2 & E2 & F2). exists (t1 ++ t2).
    rewrite E2, E1, <- app_assoc. split; [done|]. by apply Forall_app.
Qed.

Global Instance frame_preorder r : PreOrder (frame r).
Proof.
  split.
  - by intros w r' _.
  - intros w1 w2 w3 F1 F2 r' Hr. by rewrite F2, F1.
Qed.

Section preserves.
Context (R : relation World) `{!PreOrder R}.

Lemma preserves_ret {A} (a : A) : preserves R (ret a).
Proof. intros w c w' [= <- <-]. reflexivity. Qed.

Lemma preserves_throw {A} e : preserves R (@throw A e).
Proof. intros w c w' [= <- <-]. reflexivity. Qed.

Lemma preserves_bind {A B} (m : M A) (k : A → M B) :
  preserves R m → (∀ a, preserves R (k a)) → preserves R (bind m k).
Proof.
  intros Hm Hk w c w'. unfold bind.
  destruct (m w) as [[a|e|code] w1] eqn:E; intros Hrun.
  - etrans; [exact (Hm _ _ _ E) | exact (Hk _ _ _ _ Hrun)].
  - injection Hrun as <- <-. exact (Hm _ _ _ E).
  - injection Hrun as <- <-. exact (Hm _ _ _ E).
Qed.

Lemma preserves_try_catch {A} (m : M A) (h : Error → M A) :
  preserves R m → (∀ e, preserves R (h e)) → preserves R (try_catch m h).
Proof.
  intros Hm Hh w c w'. unfold try_catch.
  destruct (m w) as [[a|e|code] w1] eqn:E; intros Hrun.
  - injection Hrun as <- <-. exact (Hm _ _ _ E).
  - etrans; [exact (Hm _ _ _ E) | exact (Hh _ _ _ _ Hrun)].
  - injection Hrun as <- <-. exact (Hm _ _ _ E).
Qed.

Lemma preserves_lift {A} (r : Error + A) : preserves R (lift r).
Proof. destruct r; [apply preserves_throw | apply preserves_ret]. Qed.

Lemma preserves_get_pl : preserves R get_pl.
Proof. intros w c w' [= <- <-]. reflexivity. Qed.

Lemma preserves_get_heap : preserves R get_heap.
Proof. intros w c w' [= <- <-]. reflexivity. Qed.

Lemma preserves_get_trace : preserves R get_trace.
Proof. intros w c w' [= <- <-]. reflexivity. Qed.

Lemma preserves_get_listeners : preserves R get_listeners.
Proof. intros w c w' [= <- <-]. reflexivity. Qed.

Lemma preserves_deref r : preserves R (deref r).
Proof.
  intros w c w'. unfold deref. destruct (heap w !! r); intros [= <- <-]; reflexivity.
Qed.

Lemma preserves_forEach {A} (f : A → M unit) (l : list A) :
  (∀ x, preserves R (f x)) → preserves R (forEach f l).
Proof.
  intros Hf. induction l as [|x l IH]; simpl.
  - apply preserves_ret.
  - apply preserves_bind; [apply Hf | intros _; exact IH].
Qed.

Lemma preserves_mapM {A B} (f : A → M B) (l : list A) :
  (∀ x, preserves R (f x)) → preserves R (mapM f l).
Proof.
  intros Hf. induction l as [|x l IH]; simpl.
  - apply preserves_ret.
  - apply preserves_bind; [apply Hf | intros y].
    apply preserves_bind; [exact IH | intros ys; apply preserves_ret].
Qed.

Lemma preserves_then (p cb : M Settled) :
  preserves R p → preserves R cb → preserves R (then_ p cb).
Proof.
  intros Hp Hcb. apply preserves_bind; [done|]. intros [|e].
  - apply preserves_try_catch; [done | intros; apply preserves_ret].
  - apply preserves_ret.
Qed.

Lemma preserves_catch (p : M Settled) (h : Error → M unit) :
  preserves R p → (∀ e, preserves R (h e)) → preserves R (catch_ p h).
Proof.
  intros Hp Hh. apply preserves_bind; [done|]. intros [|e].
  - apply preserves_ret.
  - apply preserves_try_catch; [|intros; apply preserves_ret].
    apply preserves_bind; [apply Hh | intros; apply preserves_ret].
Qed.

Lemma preserves_Promise_all (ps : list Deferred) :
  (∀ work : Ext Settled, preserves R (call work)) → preserves R (Promise_all ps).
Proof.
  intros Hcall. induction ps as [|[s|work] ps IH]; simpl.
  - apply preserves_ret.
  - apply preserves_bind; [apply preserves_ret | intros [|e]; [exact IH|]].
    apply preserves_ret.
  - apply preserves_bind; [|intros [|e]; [exact IH | apply preserves_ret]].
    apply preserves_try_catch; [apply Hcall | intros; apply preserves_ret].
Qed.
End preserves.

(** The primitive effects and the trace. *)
Lemma extends_out P ev : P ev → preserves (extends P) (out ev).
Proof. intros HP w c w' [= <- <-]. exists [ev]. split; [done | by constructor]. Qed.

Lemma extends_process_exit P {A} code :
P (ProcessExit code) → preserves (extends P) (@process_exit A code).
Proof.
intros HP w c w' [= <- <-]. exists [ProcessExit code]. split; [done | by constructor].
Qed.

Lemma extends_same P (w w' : World) : trace w' = trace w → extends P w w'.
Proof. intros E. exists []. by rewrite app_nil_r. Qed.

Lemma extends_modify_pl P f : preserves (extends P) (modify_pl f).
Proof. intros w c w' [= <- <-]. by apply extends_same. Qed.

Lemma extends_assign P r f : preserves (extends P) (assign r f).
Proof. intros w c w' [= <- <-]. by apply extends_same. Qed.

Lemma extends_alloc P p : preserves (extends P) (alloc p).
Proof. intros w c w' [= <- <-]. by apply extends_same. Qed.

Lemma extends_add_listener P l : preserves (extends P) (add_listener l).
Proof. intros w c w' [= <- <-]. by apply extends_same. Qed.

Lemma extends_call P {A} (f : Ext A) : preserves (extends P) (call f).
Proof.
intros w c w'. unfold call. destruct (f (pl w, heap w)) as [c1 [pl1 heap1]].
intros [= <- <-]. by apply extends_same.
Qed.

Lemma extends_call_total P f : preserves (extends P) (call_total f).
Proof.
intros w c w'. unfold call_total. destruct (f (pl w, heap w)) as [pl1 heap1].
intros [= <- <-]. by apply extends_same.
Qed.

(** The primitive effects and the heap. *)
Lemma frame_same r (w w' : World) : heap w' = heap w → frame r w w'.
Proof. intros E r' _. by rewrite E. Qed.

Lemma frame_out r ev : preserves (frame r) (out ev).
Proof. intros w c w' [= <- <-]. by apply frame_same. Qed.

Lemma frame_modify_pl r f : preserves (frame r) (modify_pl f).
Proof. intros w c w' [= <- <-]. by apply frame_same. Qed.

Lemma frame_assign r f : preserves (frame r) (assign r f).
Proof.
intros w c w' [= <- <-] r' Hne. simpl. by rewrite list_lookup_alter_ne.
Qed.

Lemma keeps_out {A} (proj : Pattern → A) r ev : preserves (keeps proj r) (out ev).
Proof. by intros w c w' [= <- <-]. Qed.

Lemma keeps_modify_pl {A} (proj : Pattern → A) r f :
preserves (keeps proj r) (modify_pl f).
Proof. by intros w c w' [= <- <-]. Qed.

Lemma keeps_assign {A} (proj : Pattern → A) r r' f :
(∀ p, proj (f p) = proj p) → preserves (keeps proj r) (assign r' f).
Proof.
intros Hf w c w' [= <- <-]. unfold keeps. simpl. rewrite list_lookup_alter.
case_decide; [subst|done]. rewrite <- option_fmap_compose.
by apply option_fmap_ext.
Qed.

Lemma same_graph_out ev : preserves same_graph (out ev).
Proof. by intros w c w' [= <- <-]. Qed.

Lemma same_graph_assign r f : preserves same_graph (assign r f).
Proof. by intros w c w' [= <- <-]. Qed.

Lemma same_listeners_out ev : preserves same_listeners (out ev).
Proof. by intros w c w' [= <- <-]. Qed.

Lemma same_listeners_process_exit {A} code :
preserves same_listeners (@process_exit A code).
Proof. by intros w c w' [= <- <-]. Qed.

Lemma same_listeners_modify_pl f : preserves same_listeners (modify_pl f).
Proof. by intros w c w' [= <- <-]. Qed.

Lemma same_listeners_assign r f : preserves same_listeners (assign r f).
Proof. by intros w c w' [= <- <-]. Qed.

Lemma same_listeners_alloc p : preserves same_listeners (alloc p).
Proof. by intros w c w' [= <- <-]. Qed.

Lemma same_listeners_call {A} (f : Ext A) : preserves same_listeners (call f).
Proof.
intros w c w'. unfold call. destruct (f (pl w, heap w)) as [c1 [pl1 heap1]].
by intros [= <- <-].
Qed.

Lemma same_listeners_call_total f : preserves same_listeners (call_total f).
Proof.
intros w c w'. unfold call_total. destruct (f (pl w, heap w)) as [pl1 heap1].
by intros [= <- <-].
Qed.

Ltac head_of t :=
lazymatch t with
| ?f _ => head_of f
| _ => t
end.

(** One structural step of a [preserves] goal. *)
Ltac preserves_step :=
lazymatch goal with
| |- preserves _ (bind _ _) => apply preserves_bind; [tc_solve | | intros]
| |- preserves _ (ret _) => apply preserves_ret; tc_solve
| |- preserves _ (throw _) => apply preserves_throw; tc_solve
| |- preserves _ (try_catch _ _) => apply preserves_try_catch; [tc_solve | | intros]
| |- preserves _ (lift _) => apply preserves_lift; tc_solve
| |- preserves _ get_pl => apply preserves_get_pl; tc_solve
| |- preserves _ get_heap => apply preserves_get_heap; tc_solve
| |- preserves _ get_trace => apply preserves_get_trace; tc_solve
| |- preserves _ get_listeners => apply preserves_get_listeners; tc_solve
| |- preserves _ (deref _) => apply preserves_deref; tc_solve
| |- preserves _ (forEach _ _) => apply preserves_forEach; [tc_solve | intros]
| |- preserves _ (mapM _ _) => apply preserves_mapM; [tc_solve | intros]
| |- preserves _ (then_ _ _) => apply preserves_then; [tc_solve | | ]
| |- preserves _ (catch_ _ _) => apply preserves_catch; [tc_solve | | intros]
| |- preserves _ (Promise_all _) => apply preserves_Promise_all; [tc_solve | intros]
| |- preserves (extends _) (out _) => apply extends_out; simpl; try done
| |- preserves (extends _) (process_exit _) => apply extends_process_exit; simpl; try done
| |- preserves (extends _) (modify_pl _) => apply extends_modify_pl
| |- preserves (extends _) (assign _ _) => apply extends_assign
| |- preserves (extends _) (alloc _) => apply extends_alloc
| |- preserves (extends _) (add_listener _) => apply extends_add_listener
| |- preserves (extends _) (call _) => apply extends_call
| |- preserves (extends _) (call_total _) => apply extends_call_total
| |- preserves (keeps _ _) (out _) => apply keeps_out
| |- preserves (keeps _ _) (modify_pl _) => apply keeps_modify_pl
| |- preserves (keeps _ _) (assign _ _) => apply keeps_assign; intros; reflexivity
| |- preserves same_graph (out _) => apply same_graph_out
| |- preserves same_graph (assign _ _) => apply same_graph_assign
| |- preserves same_listeners (out _) => apply same_listeners_out
| |- preserves same_listeners (process_exit _) => apply same_listeners_process_exit
| |- preserves same_listeners (modify_pl _) => apply same_listeners_modify_pl
| |- preserves same_listeners (assign _ _) => apply same_listeners_assign
| |- preserves same_listeners (alloc _) => apply same_listeners_alloc
| |- preserves same_listeners (call _) => apply same_listeners_call
| |- preserves same_listeners (call_total _) => apply same_listeners_call_total
| |- preserves (frame _) (out _) => apply frame_out
| |- preserves (frame _) (modify_pl _) => apply frame_modify_pl
| |- preserves (frame ?r) (assign ?r _) => apply frame_assign
| |- preserves _ (if ?b then _ else _) => destruct b
| |- preserves _ (match ?x with _ => _ end) => destruct x
| |- preserves _ (λ _, _) => fail
| |- preserves _ ?m => let h := head_of m in progress unfold h
end.

Ltac preserves_auto := repeat preserves_step.

Section Properties.
Context `{Collaborators}.

(** ** Runs that return *)

Lemma bind_Normal {A B} (m : M A) (k : A → M B) w b w' :
bind m k w = (Normal b, w') →
∃ a w1, m w = (Normal a, w1) ∧ k a w1 = (Normal b, w').
Proof.
unfold bind. destruct (m w) as [[a|e|code] w1]; [|done..].
intros Hk. by exists a, w1.
Qed.

Lemma bind_eq_Normal {A B} (m : M A) (k : A → M B) w a w1 :
m w = (Normal a, w1) → bind m k w = k a w1.
Proof. unfold bind. by intros ->. Qed.

Lemma bind_eq_Throw {A B} (m : M A) (k : A → M B) w e w1 :
m w = (Throw e, w1) → bind m k w = (Throw e, w1).
Proof. unfold bind. by intros ->. Qed.

Lemma bind_eq_Exit {A B} (m : M A) (k : A → M B) w code w1 :
m w = (Exit code, w1) → bind m k w = (Exit code, w1).
Proof. unfold bind. by intros ->. Qed.

Lemma bind_run {A B} (m : M A) (k : A → M B) w c w' :
bind m k w = (c, w') →
∃ c1 w1, m w = (c1, w1)
  ∧ match c1 with
    | Normal a => k a w1 = (c, w')
    | Throw e => c = Throw e ∧ w' = w1
    | Exit code => c = Exit code ∧ w' = w1
    end.
Proof.
unfold bind. destruct (m w) as [[a|e|code] w1]; intros Hrun; eexists _, _;
  (split; [reflexivity|]); [done | by injection Hrun as <- <- ..].
Qed.

Lemma deref_Normal r w p w' :
deref r w = (Normal p, w') → heap w !! r = Some p ∧ w' = w.
Proof. unfold deref. destruct (heap w !! r); [|done]. by intros [= -> ->]. Qed.

Lemma lift_Normal {A} (x : Error + A) w a w' :
lift x w = (Normal a, w') → x = inr a ∧ w' = w.
Proof. destruct x; [done|]. by intros [= -> ->]. Qed.

Lemma copy_global_data_Normal pattern w copied w' :
copy_global_data pattern w = (Normal copied, w') →
∃ logs, Forall is_console logs ∧
  w' = mkWorld (pl w) (heap w) (listeners w) (trace w ++ logs).
Proof.
unfold copy_global_data, bind, get_pl, try_catch, lift, console_log, out, ret, throw.
destruct (jsonCopy _ _) as [err|d]; intros [= <- <-].
- exists [ConsoleLog ("There was an error parsing JSON for " +:+ relPath pattern);
          ConsoleLog err].
  split; [by repeat constructor|]. simpl. by rewrite <- app_assoc.
- exists []. split; [done|]. destruct w; simpl. by rewrite app_nil_r.
Qed.

#[local] Arguments writes : simpl never.
#[local] Arguments outputFiles : simpl never.
#[local] Arguments patternDataObject : simpl never.

(** The writes of a list of files: the calls are made in order, up to the
    first that throws. *)
Lemma forEach_fs_write files : ∀ w c w',
forEach (λ outFile, fs_write (of_path outFile) (of_content outFile)) files w = (c, w') →
∃ called,
  w' = mkWorld (pl w) (heap w) (listeners w) (trace w ++ writes called)
  ∧ called `prefix_of` files
  ∧ (c = Normal () → called = files)
  ∧ (∀ code, c ≠ Exit code).
Proof.
induction files as [|f files IH]; intros w c w'; simpl.
- intros [= <- <-]. exists []. unfold writes. simpl. rewrite app_nil_r.
  by destruct w.
- unfold bind at 1, fs_write, bind at 1, out at 1.
  destruct (fs_outputFileSync (of_path f) (of_content f)) as [e|[]]; simpl.
  + intros [= <- <-]. exists [f]. split; [done|].
    split; [apply prefix_cons, prefix_nil | done].
  + intros Hrun. apply IH in Hrun as (called & -> & Hpre & Hall & Hexit).
    exists (f :: called). unfold writes. simpl. rewrite <- app_assoc.
    split; [done|]. split; [by apply prefix_cons|]. split; [|done].
    intros Hc. by rewrite Hall.
Qed.

Lemma writePatternFiles_Normal headHTML r footerHTML w u w' :
writePatternFiles headHTML r footerHTML w = (Normal u, w') →
∃ pattern, heap w !! r = Some pattern ∧
  w' = mkWorld (pl w) (heap w) (listeners w)
         (trace w ++ writes (outputFiles (pl w) headHTML pattern footerHTML)).
Proof.
unfold writePatternFiles. intros Hrun.
apply bind_Normal in Hrun as (pattern & w1 & Hd & Hrun).
apply deref_Normal in Hd as [Hd ->].
apply bind_Normal in Hrun as (p & w1 & [= <- <-] & Hrun).
apply forEach_fs_write in Hrun as (called & -> & _ & Hall & _).
destruct u. rewrite Hall by done. by exists pattern.
Qed.

Ltac prim H :=
first
  [ apply deref_Normal in H as [H ->]
  | apply lift_Normal in H as [H ->]
  | apply copy_global_data_Normal in H as (? & ? & ->)
  | apply writePatternFiles_Normal in H as (? & H & ->)
  | injection H as <- <- ];
simpl in *; try rewrite !list_lookup_alter_eq in H.

(** Steps through a run [H : m w = (Normal a, w')] of a sequence. *)
Ltac run H :=
repeat
  (let Hs := fresh "Hstep" in
   apply bind_Normal in H as (? & ? & Hs & H); prim Hs).

Lemma render_and_write_Normal r head w u w' :
render_and_write r head w = (Normal u, w') →
∃ p0 code headHTML footerHTML logs allData allFooterData,
  heap w !! r = Some p0 ∧
  renderPattern (RTemplate head) allData = inr headHTML ∧
  renderPattern (RPattern (set_p_header head (lineage_flags p0))) allData = inr code ∧
  renderPattern (RTemplate (userFoot (pl w))) allFooterData = inr footerHTML ∧
  heap w' !! r = Some (composed head code p0) ∧
  pl w' = pl w ∧
  listeners w' = listeners w ∧
  Forall is_console logs ∧
  trace w' =
    trace w ++ before_data_merge r :: logs
    ++ write_begin r
       :: writes (outputFiles (pl w) headHTML (composed head code p0) footerHTML)
    ++ [write_end r].
Proof.
unfold render_and_write. intros Hrun. run Hrun. prim Hrun.
remember (heap w !! r) as o eqn:Hp0. destruct o as [p0|]; simplify_eq/=.
lazymatch goal with
| |- context [((trace w ++ _) ++ ?l1) ++ ?l2] =>
    eexists p0, _, _, _, (l1 ++ l2), _, _
end.
repeat split; [exact Hstep1 | exact Hstep2 | exact Hstep6 | | | ].
- rewrite !list_lookup_alter_eq, <- Hp0. reflexivity.
- apply Forall_app; split; assumption.
- rewrite <- !app_assoc. simpl. rewrite <- ?app_assoc. reflexivity.
Qed.

Lemma assign_compileState_Normal r s w u w' :
assign_compileState r s w = (Normal u, w') →
∃ g st, graph (pl w) = Some g ∧ nodes g !! r = Some st ∧
  w' = mkWorld (set_graph (Some (with_node r s g)) (pl w))
         (alter (set_compileState s) r (heap w)) (listeners w) (trace w).
Proof.
unfold assign_compileState, bind, get_pl, assign, throw, modify_pl.
destruct (graph (pl w)) as [g|]; [|done]. simpl.
destruct (nodes g !! r) as [st|] eqn:Hst; [|done].
intros [= <-]. by exists g, st.
Qed.

Lemma assign_compileState_succeeds r s w g st :
graph (pl w) = Some g → nodes g !! r = Some st →
assign_compileState r s w =
  (Normal (), mkWorld (set_graph (Some (with_node r s g)) (pl w))
                (alter (set_compileState s) r (heap w)) (listeners w) (trace w)).
Proof.
intros Hg Hst. unfold assign_compileState, bind, get_pl, assign, throw, modify_pl.
rewrite Hg. simpl. by rewrite Hst.
Qed.

Lemma graph_set_graph g p : graph (set_graph g p) = g.
Proof. by destruct p. Qed.

Lemma set_graph_set_graph g1 g2 p : set_graph g1 (set_graph g2 p) = set_graph g1 p.
Proof. by destruct p. Qed.

Lemma patternPartial_composed head code p :
patternPartial (composed head code p) = patternPartial p.
Proof. by destruct p. Qed.

#[local] Opaque outputFiles writes composed.

Lemma renderSinglePattern_Normal r head w b w' :
renderSinglePattern r head w = (Normal b, w') →
(b = false ∧ w' = w ∧
 ∃ p0, heap w !! r = Some p0 ∧ (isPattern p0 = false ∨ compileState p0 = CLEAN))
∨ (b = true ∧ rendered r head w w').
Proof.
unfold renderSinglePattern. intros Hrun.
apply bind_Normal in Hrun as (p0 & w1 & Hd & Hrun).
apply deref_Normal in Hd as [Hp0 ->].
destruct (negb (isPattern p0) || bool_decide (compileState p0 = CLEAN)) eqn:Hguard.
- injection Hrun as <- <-. left. repeat split. exists p0. split; [done|].
  apply orb_true_iff in Hguard as [Hn|Hc].
  + left. by apply negb_true_iff.
  + right. by apply bool_decide_eq_true in Hc.
- right. apply orb_false_iff in Hguard as [Hn Hc].
  apply negb_false_iff in Hn. apply bool_decide_eq_false in Hc.
  apply bind_Normal in Hrun as (u1 & w1 & Hb & Hrun).
  apply assign_compileState_Normal in Hb as (g & st & Hg & Hst & ->).
  apply bind_Normal in Hrun as (u2 & w2 & Hr & Hrun).
  apply render_and_write_Normal in Hr
    as (pb & code & headHTML & footerHTML & logs & allData & allFooterData
        & Hpb & Hhead & Hcode & Hfoot & Hheap & Hpl & Hls & Hlogs & Htr).
  simpl in *. rewrite list_lookup_alter_eq, Hp0 in Hpb. simplify_eq/=.
  apply bind_Normal in Hrun as (u3 & w3 & Hc' & Hrun).
  apply assign_compileState_Normal in Hc' as (g' & st' & Hg' & Hst' & ->).
  rewrite Hpl, graph_set_graph in Hg'. simplify_eq/=.
  apply bind_Normal in Hrun as (p4 & w4 & Hd & Hrun).
  apply deref_Normal in Hd as [Hp4 ->]. simpl in *.
  rewrite list_lookup_alter_eq, Hheap in Hp4. simplify_eq/=.
  apply bind_Normal in Hrun as (u5 & w5 & Hlog & Hret).
  unfold plutils_log_info, out in Hlog. unfold ret in Hret. simplify_eq.
  split; [done|].
  exists p0, g, st, code, headHTML, footerHTML, logs, allData, allFooterData.
  simpl. rewrite list_lookup_alter_eq, Hheap, Hpl, set_graph_set_graph, Htr.
  repeat split; try done.
  rewrite patternPartial_composed.
  repeat (progress (rewrite <- ?app_assoc; simpl)). reflexivity.
Qed.

#[local] Transparent outputFiles writes composed.

(** ** At most one render per pattern and pass *)

Lemma renders_app r t1 t2 : renders r (t1 ++ t2) = (renders r t1 + renders r t2)%nat.
Proof. unfold renders. by rewrite filter_app, length_app. Qed.

Lemma renders_none r t : Forall (not_render_of r) t → renders r t = 0%nat.
Proof.
unfold renders. induction 1 as [|ev t Hev _ IH]; [done|].
by rewrite filter_cons_False.
Qed.

Lemma once_of_preserves r {A} (m : M A) :
preserves (extends (not_render_of r)) m → once r m.
Proof.
intros Hm w c w' Hrun. destruct (Hm _ _ _ Hrun) as (t & Ht & Hno).
exists t. split; [done|]. rewrite renders_none; [lia | done].
Qed.

Lemma once_bind_l r {A B} (m : M A) (k : A → M B) :
preserves (extends (not_render_of r)) m → (∀ a, once r (k a)) → once r (bind m k).
Proof.
intros Hm Hk w c w'. unfold bind.
destruct (m w) as [[a|e|code] w1] eqn:E; intros Hrun;
  destruct (Hm _ _ _ E) as (t1 & Ht1 & Hno).
- destruct (Hk _ _ _ _ Hrun) as (t2 & Ht2 & Hle). exists (t1 ++ t2).
  rewrite Ht2, Ht1, <- app_assoc. split; [done|].
  rewrite renders_app, renders_none; [lia | done].
- injection Hrun as <- <-. exists t1. split; [done|].
  rewrite renders_none; [lia | done].
- injection Hrun as <- <-. exists t1. split; [done|].
  rewrite renders_none; [lia | done].
Qed.

Lemma once_bind_r r {A B} (m : M A) (k : A → M B) :
once r m → (∀ a, preserves (extends (not_render_of r)) (k a)) → once r (bind m k).
Proof.
intros Hm Hk w c w'. unfold bind.
destruct (m w) as [[a|e|code] w1] eqn:E; intros Hrun;
  destruct (Hm _ _ _ E) as (t1 & Ht1 & Hle).
- destruct (Hk _ _ _ _ Hrun) as (t2 & Ht2 & Hno). exists (t1 ++ t2).
  rewrite Ht2, Ht1, <- app_assoc. split; [done|].
  rewrite renders_app, (renders_none _ t2); [lia | done].
- injection Hrun as <- <-. by exists t1.
- injection Hrun as <- <-. by exists t1.
Qed.

Lemma once_out r ev : once r (out ev).
Proof.
intros w c w' [= <- <-]. exists [ev]. split; [done|].
unfold renders. simpl. destruct (decide (ev = write_begin r)).
- by rewrite filter_cons_True.
- rewrite filter_cons_False; [simpl; lia | done].
Qed.

Lemma not_render_of_other (r r' : ref) : r ≠ r' → not_render_of r (write_begin r').
Proof. intros Hne [= ?]. done. Qed.

Lemma renderSinglePattern_once r r' head : once r (renderSinglePattern r' head).
Proof.
unfold renderSinglePattern.
apply once_bind_l; [preserves_auto|]. intros pattern.
destruct (negb (isPattern pattern) || bool_decide (compileState pattern = CLEAN)).
{ apply once_of_preserves. preserves_auto. }
apply once_bind_l; [preserves_auto|]. intros _.
apply once_bind_r; [|intros; preserves_auto].
unfold render_and_write.
repeat (apply once_bind_l; [solve [preserves_auto]|]; intros).
apply once_bind_r; [apply once_out|]. intros. preserves_auto.
Qed.

Lemma renderSinglePattern_other r r' head :
r ≠ r' → preserves (extends (not_render_of r)) (renderSinglePattern r' head).
Proof.
intros Hne. pose proof (not_render_of_other r r' Hne). preserves_auto.
Qed.

Lemma renderSinglePattern_frame r head :
preserves (frame r) (renderSinglePattern r head).
Proof. preserves_auto. Qed.

Lemma renderSinglePattern_skipped r head w :
skipped r w → renderSinglePattern r head w = (Normal false, w).
Proof.
intros (p & Hp & Hskip). unfold renderSinglePattern, bind, deref. rewrite Hp.
destruct Hskip as [-> | ->]; [done|].
rewrite bool_decide_eq_true_2 by done. by rewrite orb_true_r.
Qed.

Lemma renderSinglePattern_leaves_skipped r head w b w' :
renderSinglePattern r head w = (Normal b, w') → skipped r w'.
Proof.
intros Hrun. apply renderSinglePattern_Normal in Hrun as [(-> & -> & Hs) | (-> & Hr)].
- done.
- destruct Hr as (p0 & g & st & code & headHTML & footerHTML & logs & allData
                  & allFooterData & _ & _ & _ & _ & _ & _ & _ & _ & Hheap & _).
  eexists. split; [exact Hheap|]. by right.
Qed.

Lemma skipped_frame r r' w w' : r ≠ r' → frame r' w w' → skipped r w → skipped r w'.
Proof. intros Hne Hf (p & Hp & Hs). exists p. rewrite (Hf r Hne). done. Qed.

Lemma render_loop_once head l : ∀ w c w',
render_loop head l w = (c, w') →
∃ t, trace w' = trace w ++ t
     ∧ ∀ r, (renders r t ≤ 1)%nat ∧ (skipped r w → renders r t = 0%nat).
Proof.
induction l as [|x l IH]; intros w c w'; unfold render_loop; simpl.
- intros [= <- <-]. exists []. rewrite app_nil_r. split; [done|].
  intros r. unfold renders. simpl. split; [lia | done].
- unfold bind at 1 2.
  destruct (renderSinglePattern x head w) as [c1 w1] eqn:E.
  destruct (renderSinglePattern_once x x head _ _ _ E) as (t1 & Ht1 & Hle1).
  assert (Hother : ∀ r, r ≠ x → renders r t1 = 0%nat).
  { intros r Hne.
    destruct (renderSinglePattern_other r x head Hne _ _ _ E) as (t1' & Ht1' & Hno).
    rewrite Ht1 in Ht1'. apply app_inv_head in Ht1' as <-. by apply renders_none. }
  assert (Hskip : skipped x w → c1 = Normal false ∧ t1 = []).
  { intros Hs. rewrite (renderSinglePattern_skipped _ _ _ Hs) in E.
    injection E as <- <-. split; [done|].
    rewrite <- (app_nil_r (trace w)) in Ht1 at 1. by apply app_inv_head in Ht1 as <-. }
  destruct c1 as [b|e|code]; simpl.
  + intros Hrest. destruct (IH _ _ _ Hrest) as (t2 & Ht2 & Hall).
    exists (t1 ++ t2). rewrite Ht2, Ht1, <- app_assoc. split; [done|].
    intros r. rewrite renders_app.
    destruct (decide (r = x)) as [->|Hne].
    * destruct (Hall x) as [_ Hzero].
      rewrite Hzero by (by eapply renderSinglePattern_leaves_skipped).
      split; [lia|]. intros Hs. destruct (Hskip Hs) as [_ ->]. done.
    * rewrite (Hother r Hne). destruct (Hall r) as [Hle Hzero].
      split; [lia|]. intros Hs. apply Hzero.
      eapply (skipped_frame r x); [done| |done].
      eapply renderSinglePattern_frame. exact E.
  + intros [= <- <-]. exists t1. split; [done|]. intros r.
    destruct (decide (r = x)) as [->|Hne].
    * split; [done|]. intros Hs. by destruct (Hskip Hs).
    * rewrite (Hother r Hne). split; [lia | done].
  + intros [= <- <-]. exists t1. split; [done|]. intros r.
    destruct (decide (r = x)) as [->|Hne].
    * split; [done|]. intros Hs. by destruct (Hskip Hs).
    * rewrite (Hother r Hne). split; [lia | done].
Qed.

(** C4. A pattern whose [isPattern] flag is false, or whose compile state is
  CLEAN, is left alone by [renderSinglePattern]: the call returns [false]
  and the world (patterns, graph, listeners, trace of events and file
  writes) is the one it started in.  Consequently, in a pass of the render
  loop over any render set, no pattern is rendered more than once, and a
  pattern that is skipped at the start of the pass is not rendered at
  all. *)
Theorem renderSinglePattern_noop_at_most_once
  (r : ref) (head : string) (w : World) (pattern : Pattern)
  (Hpattern : heap w !! r = Some pattern)
  (Hskip : isPattern pattern = false ∨ compileState pattern = CLEAN) :
renderSinglePattern r head w = (Normal false, w)
∧ ∀ patternsToBuild c w',
    render_loop head patternsToBuild w = (c, w') →
    ∃ t, trace w' = trace w ++ t
         ∧ renders r t = 0%nat
         ∧ ∀ r', (renders r' t ≤ 1)%nat.
Proof.
assert (Hs : skipped r w) by (by exists pattern).
split; [by apply renderSinglePattern_skipped|].
intros l c w' Hrun. destruct (render_loop_once _ _ _ _ _ Hrun) as (t & Ht & Hall).
exists t. split; [done|]. split; [by apply Hall | intros r'; by apply Hall].
Qed.

(** ** The two transitions of the compile state *)

Lemma render_and_write_keeps_states r head w c w' :
render_and_write r head w = (c, w') → compileStates r w' = compileStates r w.
Proof.
intros Hrun. unfold compileStates. f_equal.
- assert (Hk : preserves (keeps compileState r) (render_and_write r head))
    by preserves_auto.
  exact (Hk _ _ _ Hrun).
- assert (Hg : preserves same_graph (render_and_write r head)) by preserves_auto.
  by rewrite (Hg _ _ _ Hrun).
Qed.

Lemma renderSinglePattern_keeps_isPattern r r' head :
preserves (keeps isPattern r) (renderSinglePattern r' head).
Proof. preserves_auto. Qed.

Lemma rendered_clean r head w w' :
rendered r head w w' → compileStates r w' = (Some CLEAN, Some CLEAN).
Proof.
intros (p0 & g & st & code & headHTML & footerHTML & logs & allData
        & allFooterData & _ & _ & _ & _ & _ & _ & _ & _ & Hheap & Hpl & _).
unfold compileStates. rewrite Hheap, Hpl. simpl.
by rewrite lookup_insert_eq.
Qed.

Lemma renderSinglePattern_clean r r' head w c w' :
renderSinglePattern r' head w = (c, w') → clean r w → clean r w'.
Proof.
intros Hrun Hclean. destruct (decide (r = r')) as [->|Hne].
- rewrite renderSinglePattern_skipped in Hrun; [by injection Hrun as <- <-|].
  unfold clean in Hclean. destruct (heap w !! r') as [p|] eqn:Hp; [|done].
  exists p. split; [done|]. right. simpl in Hclean. by injection Hclean.
- unfold clean. by rewrite (renderSinglePattern_frame _ _ _ _ _ Hrun r Hne).
Qed.

Lemma render_loop_clean head l : ∀ w c w' r,
render_loop head l w = (c, w') → clean r w → clean r w'.
Proof.
induction l as [|x l IH]; intros w c w' r; unfold render_loop; simpl.
- by intros [= <- <-].
- unfold bind at 1 2.
  destruct (renderSinglePattern x head w) as [[b|e|code] w1] eqn:E; simpl.
  + intros Hrest Hc. eapply IH; [exact Hrest|].
    by eapply renderSinglePattern_clean.
  + intros [= <- <-] Hc. by eapply renderSinglePattern_clean.
  + intros [= <- <-] Hc. by eapply renderSinglePattern_clean.
Qed.

Lemma render_loop_cleans head l : ∀ w w' r,
render_loop head l w = (Normal (), w') → r ∈ l → is_pattern r w → clean r w'.
Proof.
induction l as [|x l IH]; intros w w' r; unfold render_loop; simpl.
- intros _ Hin. by apply elem_of_nil in Hin.
- unfold bind at 1 2.
  destruct (renderSinglePattern x head w) as [[b|e|code] w1] eqn:E; simpl; [|done..].
  intros Hrest Hin Hisp.
  assert (Hisp1 : is_pattern r w1).
  { unfold is_pattern. by rewrite (renderSinglePattern_keeps_isPattern r _ _ _ _ _ E). }
  destruct (decide (r = x)) as [->|Hne].
  + eapply render_loop_clean; [exact Hrest|].
    apply renderSinglePattern_Normal in E as [(-> & -> & p & Hp & Hs) | (-> & Hr)].
    * unfold clean, is_pattern in *. rewrite Hp in *. simpl in *.
      destruct Hs as [Hs|Hs]; congruence.
    * apply rendered_clean in Hr. unfold compileStates in Hr. by injection Hr.
  + apply elem_of_cons in Hin as [->|Hin]; [done|]. by eapply IH.
Qed.

(** C5, as amended.  For a pattern that is a pattern ([isPattern]) and
  enters with NEEDS_REBUILD, and whose node is in the graph,
  [renderSinglePattern] first sets the state to BUILDING, on the [Pattern]
  object and on the graph node; the two stay BUILDING up to the write-end
  event; and when [renderSinglePattern] returns, it returns [true] and the
  state is CLEAN on both.  When a pass of the render loop returns, every
  pattern of the render set that is a pattern is CLEAN. *)
Theorem renderSinglePattern_building_then_clean
  (r : ref) (head : string) (w : World) (pattern : Pattern) (g : Graph)
  (st : CompileState)
  (Hpattern : heap w !! r = Some pattern)
  (HisPattern : isPattern pattern = true)
  (Hstate : compileState pattern = NEEDS_REBUILD)
  (Hgraph : graph (pl w) = Some g)
  (Hnode : nodes g !! r = Some st) :
∃ w1,
  assign_compileState r BUILDING w = (Normal (), w1)
  ∧ compileStates r w1 = (Some BUILDING, Some BUILDING)
  ∧ renderSinglePattern r head w =
      (render_and_write r head;;
       assign_compileState r CLEAN;;
       do pattern <- deref r;
       plutils_log_info ("Built pattern: " +:+ patternPartial pattern);;
       ret true) w1
  ∧ (∀ c w2, render_and_write r head w1 = (c, w2) →
       compileStates r w2 = (Some BUILDING, Some BUILDING))
  ∧ (∀ b w', renderSinglePattern r head w = (Normal b, w') →
       b = true ∧ compileStates r w' = (Some CLEAN, Some CLEAN))
  ∧ (∀ patternsToBuild w' r',
       render_loop head patternsToBuild w = (Normal (), w') →
       r' ∈ patternsToBuild → is_pattern r' w →
       compileState <$> heap w' !! r' = Some CLEAN).
Proof.
eexists. split; [by eapply assign_compileState_succeeds|].
assert (Hb : compileStates r
               (mkWorld (set_graph (Some (with_node r BUILDING g)) (pl w))
                  (alter (set_compileState BUILDING) r (heap w))
                  (listeners w) (trace w))
             = (Some BUILDING, Some BUILDING)).
{ unfold compileStates. simpl. rewrite list_lookup_alter_eq, Hpattern. simpl.
  by rewrite lookup_insert_eq. }
split; [exact Hb|]. split; [|split; [|split]].
- unfold renderSinglePattern at 1, bind at 1, deref. rewrite Hpattern.
  rewrite HisPattern, Hstate. simpl. unfold bind at 1.
  by erewrite assign_compileState_succeeds.
- intros c w2 Hrun. by rewrite (render_and_write_keeps_states _ _ _ _ _ Hrun).
- intros b w' Hrun.
  apply renderSinglePattern_Normal in Hrun as [(-> & -> & p & Hp & Hs) | (-> & Hr)].
  + rewrite Hpattern in Hp. injection Hp as <-. destruct Hs; congruence.
  + split; [done|]. by eapply rendered_clean.
- intros l w' r' Hrun Hin Hisp. by eapply render_loop_cleans.
Qed.

(** ** The metadata of a rendered pattern *)

Lemma extraOutput_dump_keys (pattern : Pattern) (k : string) :
k ∈ keys (extraOutput_dump pattern) ↔
  (k ∈ keys (default [] (extraOutput pattern))
   ∨ k ∈ keys (default [] (allMarkdown pattern)))
  ∧ k ≠ "title" ∧ k ≠ "state" ∧ k ≠ "markdown".
Proof.
unfold extraOutput_dump. rewrite !keys_obj_delete, !keys_obj_assign.
split.
- intros [[[[[Hin|?]|?] ?] ?] ?]; [by apply elem_of_nil in Hin|tauto..].
- tauto.
Qed.

(** C7. For every rendered pattern (a call of [renderSinglePattern] that
  returns [true]), [pattern.patternData] is the [JSON.stringify] of an
  object with exactly the sixteen fields of the source, in which
  [cssEnabled] is [false]; the forward lineage list is under both
  [patternLineages] and [lineage], the reverse one under both
  [patternLineagesR] and [lineageR]; [patternBreadcrumb] has the single
  key [patternType] when the group equals the subgroup, and the keys
  [patternType] and [patternSubtype] otherwise; [patternExtension] is the
  file extension without its first character, hence without its leading
  dot; and [extraOutput] holds the keys of [pattern.extraOutput] and
  [pattern.allMarkdown] except [title], [state] and [markdown], which it
  never contains. *)
Theorem patternData_contract
  (r : ref) (head : string) (w w' : World)
  (Hrun : renderSinglePattern r head w = (Normal true, w')) :
∃ pattern md extra,
  heap w' !! r = Some pattern
  ∧ patternData pattern = JSON_stringify (JObj md)
  ∧ keys md = patternData_fields
  ∧ obj_get "cssEnabled" md = Some (JBool false)
  ∧ obj_get "patternLineages" md = Some (JArr (lineage pattern))
  ∧ obj_get "lineage" md = Some (JArr (lineage pattern))
  ∧ obj_get "patternLineagesR" md = Some (JArr (lineageR pattern))
  ∧ obj_get "lineageR" md = Some (JArr (lineageR pattern))
  ∧ obj_get "patternBreadcrumb" md =
      Some (if decide (patternGroup pattern = patternSubGroup pattern) then
              JObj [("patternType", JStr (patternGroup pattern))]
            else
              JObj [("patternType", JStr (patternGroup pattern));
                    ("patternSubtype", JStr (patternSubGroup pattern))])
  ∧ obj_get "patternExtension" md = Some (JStr (substr1 (fileExtension pattern)))
  ∧ (∀ ext, fileExtension pattern = "." +:+ ext →
       obj_get "patternExtension" md = Some (JStr ext))
  ∧ obj_get "extraOutput" md = Some (JObj extra)
  ∧ ("title" ∉ keys extra) ∧ ("state" ∉ keys extra) ∧ ("markdown" ∉ keys extra)
  ∧ (∀ k, k ∈ keys extra ↔
       (k ∈ keys (default [] (extraOutput pattern))
        ∨ k ∈ keys (default [] (allMarkdown pattern)))
       ∧ k ≠ "title" ∧ k ≠ "state" ∧ k ≠ "markdown").
Proof.
apply renderSinglePattern_Normal in Hrun as [(? & _) | (_ & Hr)]; [done|].
destruct Hr as (p0 & g & st & code & headHTML & footerHTML & logs & allData
                & allFooterData & _ & _ & _ & _ & _ & _ & _ & _ & Hheap & _).
eexists _, _, (extraOutput_dump p0). split; [exact Hheap|].
split; [reflexivity|]. split; [reflexivity|].
repeat (split; [reflexivity|]).
split.
{ intros ext Hext. pose proof (f_equal substr1 Hext) as He.
  exact (f_equal (λ x, Some (JStr x)) He). }
split; [reflexivity|].
pose proof (extraOutput_dump_keys p0) as Hkeys.
split; [|split; [|split]].
- intros Hin. apply Hkeys in Hin. tauto.
- intros Hin. apply Hkeys in Hin. tauto.
- intros Hin. apply Hkeys in Hin. tauto.
- exact Hkeys.
Qed.

(** ** The files of a rendered pattern *)

(** C8. For every rendered pattern, the trace of [renderSinglePattern] is:
  events that write no file, the write-begin event, the file writes, the
  write-end event, the completion log.  The writes are, in this order: the
  rendered file (head fragment, then pattern body, then foot fragment),
  the rawTemplate file (the template source of the pattern, which the
  render leaves as it was), the markupOnly file (the pattern body), each
  under the public patterns directory at the link of the pattern for its
  variant; then the files the engine adds, as the engine gives them.  With
  [cleanOutputHtml] off the three contents are written as they are; with
  it on each goes through the formatter of the engine for the variant when
  the engine has one, and through [cleanHtml] with an indent of 2
  otherwise. *)
Theorem written_output_variants
  (r : ref) (head : string) (w w' : World)
  (Hrun : renderSinglePattern r head w = (Normal true, w')) :
∃ g pattern source headHTML footerHTML allData allFooterData before,
  let p := set_graph (Some (with_node r BUILDING g)) (pl w) in
  let body := patternPartialCode pattern in
  let page := headHTML +:+ body +:+ footerHTML in
  let eng := engines (engine pattern) in
  let dest (type : string) :=
    path_join (public_patterns (paths (config (pl w)))) (getPatternLink pattern p type) in
  let formatted (formatter : option (string → Pattern → string)) (content : string) :=
    if cleanOutputHtml (config (pl w)) then
      match formatter with
      | Some format => format content pattern
      | None => cleanHtml content 2
      end
    else content in
  trace w' =
    trace w ++ before
    ++ write_begin r
       :: FsOutputFile (dest "rendered") (formatted (renderedCodeFormatter eng) page)
       :: FsOutputFile (dest "rawTemplate")
            (formatted (rawTemplateCodeFormatter eng) (template pattern))
       :: FsOutputFile (dest "markupOnly") (formatted (markupOnlyCodeFormatter eng) body)
       :: writes (engine_files p pattern)
    ++ [write_end r; Log LInfo ("Built pattern: " +:+ patternPartial pattern)]
  ∧ Forall not_a_write before
  ∧ graph (pl w) = Some g
  ∧ heap w !! r = Some source
  ∧ heap w' !! r = Some (set_compileState CLEAN pattern)
  ∧ template pattern = template source
  ∧ renderPattern (RTemplate head) allData = inr headHTML
  ∧ renderPattern
      (RPattern (set_p_header head (lineage_flags (set_compileState BUILDING source))))
      allData = inr body
  ∧ renderPattern (RTemplate (userFoot (pl w))) allFooterData = inr footerHTML.
Proof.
apply renderSinglePattern_Normal in Hrun as [(? & _) | (_ & Hr)]; [done|].
destruct Hr as (p0 & g & st & code & headHTML & footerHTML & logs & allData
                & allFooterData & Hp0 & _ & _ & Hg & _ & Hhead & Hcode & Hfoot
                & Hheap & _ & _ & Hlogs & Htr).
exists g, (composed head code (set_compileState BUILDING p0)), p0, headHTML,
  footerHTML, allData, allFooterData, (before_data_merge r :: logs).
cbv zeta. split.
{ rewrite Htr. unfold outputFiles, formatters, makePath, engine_files, writes,
    defaultFormatter, nullFormatter.
  assert (Hcfg : config (set_graph (Some (with_node r BUILDING g)) (pl w))
                 = config (pl w)) by (by destruct (pl w)).
  rewrite Hcfg.
  set (eng := engines (engine (composed head code (set_compileState BUILDING p0)))).
  destruct (cleanOutputHtml (config (pl w)));
    destruct (renderedCodeFormatter eng), (rawTemplateCodeFormatter eng),
      (markupOnlyCodeFormatter eng); reflexivity. }
split.
{ constructor; [done|]. eapply Forall_impl; [exact Hlogs|]. by intros []. }
repeat (split; [done|]). done.
Qed.

(** ** The busy guard *)

(** C2. While [isBusy] is true, a call of [build] or of [patternsonly] logs
  the busy message and does nothing else: the promise it returns is
  already resolved when the call returns, and the world it leaves is the
  world it found (context, patterns, listeners) with that one line added
  to the trace, hence without any file-system call.  The request is
  dropped: no build is pending. *)
Theorem build_while_busy_is_dropped
  (callback : CallbackId) (options : Options) (w : World)
  (Hbusy : isBusy (pl w) = true) :
let w' := mkWorld (pl w) (heap w) (listeners w)
            (trace w ++ [ConsoleLog busy_message]) in
enter_build options w = (Normal Resolved, w')
∧ build callback options w = (Normal Fulfilled, w')
∧ patternsonly callback options w = (Normal Fulfilled, w').
Proof.
assert (He : enter_build options w
             = (Normal Resolved,
                mkWorld (pl w) (heap w) (listeners w)
                  (trace w ++ [ConsoleLog busy_message]))).
{ unfold enter_build, bind, get_pl. simpl. by rewrite Hbusy. }
simpl. split; [exact He|].
unfold build, patternsonly, bind. by rewrite He.
Qed.

(** ** The steps before the render loop *)

Lemma buildPatterns_sync_before_rendering d :
preserves (extends before_rendering) (buildPatterns_sync d).
Proof. preserves_auto. Qed.

Lemma processAllPatternsIterative_before_rendering dir :
preserves (extends before_rendering) (processAllPatternsIterative dir).
Proof. preserves_auto. Qed.

Lemma expand_patterns_before_rendering :
preserves (extends before_rendering) expand_patterns.
Proof. preserves_auto. Qed.

Lemma processHeadPattern_before_rendering :
preserves (extends before_rendering) processHeadPattern.
Proof. preserves_auto. Qed.

Lemma processFootPattern_before_rendering :
preserves (extends before_rendering) processFootPattern.
Proof. preserves_auto. Qed.

(** The promise chain of [buildPatterns], once Phase 1 is fulfilled. *)
Lemma buildPatterns_async_after_discovery inc w w1 :
processAllPatternsIterative (source_patterns (paths (config (pl w)))) w
  = (Normal Fulfilled, w1) →
buildPatterns_async inc w =
  match after_discovery inc w1 with
  | (Normal _, w2) => (Normal Fulfilled, w2)
  | (Throw e, w2) =>
      (Normal Fulfilled,
       mkWorld (pl w2) (heap w2) (listeners w2)
         (trace w2 ++ [ConsoleLog ("Error in buildPatterns(): " +:+ e)]))
  | (Exit code, w2) => (Exit code, w2)
  end.
Proof.
intros Hp. unfold buildPatterns_async, catch_, then_. unfold bind at 1, get_pl.
unfold bind at 1. unfold bind at 1. rewrite Hp.
unfold try_catch at 1, bind at 1.
by destruct (after_discovery inc w1) as [[u|e|code] w2].
Qed.

(** ** Full and incremental rebuilds *)

Lemma decide_rebuild_run (deletePatternDir : bool) (w : World) :
let graph :=
  if deletePatternDir then PatternGraph_empty else PatternGraph_loadFromFile (pl w) in
let incrementalBuildsEnabled := negb (deletePatternDir || negb (checkVersion graph)) in
∃ c w1 decided,
  decide_rebuild deletePatternDir w = (c, w1)
  ∧ (c = Normal incrementalBuildsEnabled
     ∨ incrementalBuildsEnabled = false ∧ ∃ e, c = Throw e)
  ∧ trace w1 = trace w ++ decided
  ∧ config (pl w1) = config (pl w)
  ∧ listeners w1 = listeners w
  ∧ Forall not_a_write decided
  ∧ Forall before_rendering decided
  ∧ (if incrementalBuildsEnabled then Forall not_a_clearing decided
     else ∃ t, decided = t ++ [FsEmptyDir (public_patterns (paths (config (pl w))))]
               ∧ Forall not_a_clearing t).
Proof.
unfold decide_rebuild, loadPatternGraph, bind, get_pl, console_log, events_emit,
  plutils_log_info, fs_empty, bind, out, modify_pl, ret, lift, throw.
destruct (debug (config (pl w))), deletePatternDir; simpl;
  try destruct (checkVersion (PatternGraph_loadFromFile (pl w)));
  try destruct (checkVersion PatternGraph_empty); simpl;
  try destruct (fs_emptyDirSync _) as [e|[]]; simpl;
  eexists _, _, _; (split; [reflexivity|]); simpl; rewrite <- ?app_assoc; simpl;
  (split; [first [by left | by right; split; [|eexists]]|]);
  (split; [reflexivity|]); (split; [reflexivity|]); (split; [reflexivity|]);
  (split; [by repeat constructor|]); (split; [by repeat constructor|]);
  first [ by repeat constructor
        | by eexists [_; _; _]; split; [reflexivity | repeat constructor]
        | by eexists [_; _]; split; [reflexivity | repeat constructor]
        | by eexists [_]; split; [reflexivity | repeat constructor] ].
Qed.

Lemma load_global_data_no_clearing :
preserves (extends not_a_clearing) load_global_data.
Proof. preserves_auto. Qed.

Lemma forEach_mark l w :
forEach (λ r, assign r (set_compileState NEEDS_REBUILD)) l w
= (Normal (), mkWorld (pl w) (mark_all l (heap w)) (listeners w) (trace w)).
Proof.
revert w. induction l as [|x l IH]; intros w; simpl.
- by destruct w.
- unfold bind, assign at 1. by rewrite IH.
Qed.

Lemma mark_all_lookup l : ∀ h r,
compileState <$> mark_all l h !! r
= if decide (r ∈ l) then (λ _, NEEDS_REBUILD) <$> h !! r
  else compileState <$> h !! r.
Proof.
induction l as [|x l IH]; intros h r.
- case_decide as Hin; [by apply elem_of_nil in Hin | done].
- cbn [mark_all foldl]. fold (mark_all l (alter (set_compileState NEEDS_REBUILD) x h)).
  rewrite IH, list_lookup_alter.
  destruct (decide (r ∈ l)) as [Hin|Hnin], (decide (r ∈ x :: l)) as [Hin'|Hnin'],
    (decide (x = r)) as [->|Hne];
    try (by destruct (h !! r)).
  + exfalso. apply Hnin'. by right.
  + exfalso. apply Hnin'. by right.
  + apply elem_of_cons in Hin' as [->|?]; done.
  + exfalso. apply Hnin'. by left.
Qed.

Lemma effective_head_before_rendering :
preserves (extends before_rendering) effective_head.
Proof. preserves_auto. Qed.

Lemma buildPatterns_async_before_rendering_or_at_render_set inc w c w' :
buildPatterns_async inc w = (c, w') →
(∃ w2 w3 w4 w5 head w6,
   processAllPatternsIterative (source_patterns (paths (config (pl w)))) w
   = (Normal Fulfilled, w2)
   ∧ expand_patterns w2 = (Normal (), w3)
   ∧ processHeadPattern w3 = (Normal (), w4)
   ∧ processFootPattern w4 = (Normal (), w5)
   ∧ effective_head w5 = (Normal head, w6))
∨ extends before_rendering w w'.
Proof.
intros Hrun.
assert (Hlog : ∀ e w0, extends before_rendering w w0 →
          extends before_rendering w
            (mkWorld (pl w0) (heap w0) (listeners w0)
               (trace w0 ++ [ConsoleLog ("Error in buildPatterns(): " +:+ e)]))).
{ intros e w0 (t & Ht & Hq). exists (t ++ [ConsoleLog ("Error in buildPatterns(): " +:+ e)]).
  simpl. rewrite Ht, <- app_assoc. split; [done|].
  apply Forall_app. split; [done | by repeat constructor]. }
destruct (processAllPatternsIterative (source_patterns (paths (config (pl w)))) w)
  as [[[|e]|e|code] w2] eqn:Hp;
  pose proof (processAllPatternsIterative_before_rendering _ _ _ _ Hp) as H2.
2:{ right. revert Hrun. unfold buildPatterns_async, catch_, then_.
    unfold bind at 1, get_pl. unfold bind at 1. unfold bind at 1. rewrite Hp.
    intros [= <- <-]. by apply Hlog. }
2:{ right. revert Hrun. unfold buildPatterns_async, catch_, then_.
    unfold bind at 1, get_pl. unfold bind at 1. unfold bind at 1. rewrite Hp.
    by intros [= <- <-]. }
2:{ right. revert Hrun. unfold buildPatterns_async, catch_, then_.
    unfold bind at 1, get_pl. unfold bind at 1. unfold bind at 1. rewrite Hp.
    by intros [= <- <-]. }
rewrite (buildPatterns_async_after_discovery _ _ _ Hp) in Hrun.
unfold after_discovery in Hrun.
destruct (expand_patterns w2) as [[[]|e|code] w3] eqn:He;
  pose proof (expand_patterns_before_rendering _ _ _ He) as H3;
  [erewrite bind_eq_Normal in Hrun by exact He
  |erewrite bind_eq_Throw in Hrun by exact He; injection Hrun as <- <-;
   right; apply Hlog; by etrans
  |erewrite bind_eq_Exit in Hrun by exact He; injection Hrun as <- <-;
   right; by etrans].
assert (H3' : extends before_rendering w w3) by (by etrans). clear H2 H3.
destruct (processHeadPattern w3) as [[[]|e|code] w4] eqn:Hh;
  pose proof (processHeadPattern_before_rendering _ _ _ Hh) as H4;
  [erewrite bind_eq_Normal in Hrun by exact Hh
  |erewrite bind_eq_Throw in Hrun by exact Hh; injection Hrun as <- <-;
   right; apply Hlog; by etrans
  |erewrite bind_eq_Exit in Hrun by exact Hh; injection Hrun as <- <-;
   right; by etrans].
assert (H4' : extends before_rendering w w4) by (by etrans). clear H3' H4.
destruct (processFootPattern w4) as [[[]|e|code] w5] eqn:Hf;
  pose proof (processFootPattern_before_rendering _ _ _ Hf) as H5;
  [erewrite bind_eq_Normal in Hrun by exact Hf
  |erewrite bind_eq_Throw in Hrun by exact Hf; injection Hrun as <- <-;
   right; apply Hlog; by etrans
  |erewrite bind_eq_Exit in Hrun by exact Hf; injection Hrun as <- <-;
   right; by etrans].
assert (H5' : extends before_rendering w w5) by (by etrans). clear H4' H5.
unfold render_and_store in Hrun.
destruct (effective_head w5) as [[head|e|code] w6] eqn:Hhead;
  pose proof (effective_head_before_rendering _ _ _ Hhead) as H6;
  [|erewrite bind_eq_Throw in Hrun by exact Hhead; injection Hrun as <- <-;
    right; apply Hlog; by etrans
   |erewrite bind_eq_Exit in Hrun by exact Hhead; injection Hrun as <- <-;
    right; by etrans].
left. by exists w2, w3, w4, w5, head, w6.
Qed.

(** The promise chain of [buildPatterns] from the render set on. *)
Lemma buildPatterns_from_render_set d w inc head w1 l w2 :
at_render_set d w inc head w1 →
patternsToBuild inc w1 = (Normal l, w2) →
buildPatterns d w = render_and_settle head l w2.
Proof.
intros (v1 & v2 & v3 & v4 & v5 & Hs & Hp & He & Hh & Hf & Hhead) Hl.
unfold buildPatterns. erewrite bind_eq_Normal; [|exact Hs].
rewrite (buildPatterns_async_after_discovery _ _ _ Hp).
unfold after_discovery.
erewrite bind_eq_Normal; [|exact He]. erewrite bind_eq_Normal; [|exact Hh].
erewrite bind_eq_Normal; [|exact Hf]. unfold render_and_store.
erewrite bind_eq_Normal; [|exact Hhead]. erewrite bind_eq_Normal; [|exact Hl].
unfold render_and_settle, catch_, try_catch, bind, console_log, out, ret.
destruct (render_loop head l w2) as [[[]|e|code] w3]; [|done..].
by destruct (store_and_export w3) as [[[]|e|code] w4].
Qed.

Lemma mark_all_lookup_ne l : ∀ h r, r ∉ l → mark_all l h !! r = h !! r.
Proof.
induction l as [|x l IH]; intros h r Hnin; [done|].
cbn [mark_all foldl]. fold (mark_all l (alter (set_compileState NEEDS_REBUILD) x h)).
apply not_elem_of_cons in Hnin as [Hne Hnin].
rewrite IH by done. by apply list_lookup_alter_ne.
Qed.

Lemma forEach_deleted_or_moved moved : ∀ w,
forEach (λ n, plutils_log_info ("[Deleted/Moved] " +:+ n)) moved w
= (Normal (), mkWorld (pl w) (heap w) (listeners w) (trace w ++ deleted_or_moved moved)).
Proof.
induction moved as [|n moved IH]; intros w; simpl.
- unfold ret, deleted_or_moved. simpl. rewrite app_nil_r. by destruct w.
- unfold bind, plutils_log_info, out at 1. rewrite IH. unfold deleted_or_moved.
  simpl. by rewrite <- app_assoc.
Qed.

Lemma after_decision_no_clearing inc :
preserves (extends not_a_clearing)
  (bind (load_global_data;; ret inc) buildPatterns_async).
Proof. preserves_auto. Qed.

Lemma buildPatterns_sync_flag d w inc w1 :
buildPatterns_sync d w = (Normal inc, w1) →
inc = negb (d || negb (checkVersion
                         (if d then PatternGraph_empty
                          else PatternGraph_loadFromFile (pl w)))).
Proof.
unfold buildPatterns_sync. intros Hs.
apply bind_Normal in Hs as (a & w0 & Hd & Hs).
apply bind_Normal in Hs as (u & w2 & _ & [= <- _]).
destruct (decide_rebuild_run d w) as (c0 & v0 & decided & Hd' & Hc0 & _).
rewrite Hd in Hd'. injection Hd' as <- <-.
destruct Hc0 as [[= ->] | (_ & e & [=])]. done.
Qed.

(** C3. For every run of [buildPatterns], the flag
  [incrementalBuildsEnabled] is [not (deletePatternDir or
  graphNeedsUpgrade)], and it is off whenever the version stamp of the
  loaded graph is not the current one.  When the flag is off, the public
  patterns directory is cleared, once, and no pattern event and no file
  write comes before the clearing; when it is on, the build clears no
  directory.  The flag is the one that decides the render set: when the
  build gets to its render set with the flag off, the set is the whole
  pattern collection, every pattern of which is marked NEEDS_REBUILD
  whatever its state was, while the context, the graph and the trace stay
  as they are (no modification time is looked at); the rest of the build
  is the render loop over that collection.  With the flag on, the rest of
  the build is the render loop over the compile order of the graph.  A
  build that does not get to its render set renders nothing. *)
Theorem full_or_incremental_rebuild
  (deletePatternDir : bool) (w w' : World) (c : Completion Settled)
  (Hrun : buildPatterns deletePatternDir w = (c, w')) :
let graph :=
  if deletePatternDir then PatternGraph_empty else PatternGraph_loadFromFile (pl w) in
let graphNeedsUpgrade := negb (checkVersion graph) in
let incrementalBuildsEnabled := negb (deletePatternDir || graphNeedsUpgrade) in
let clearing := FsEmptyDir (public_patterns (paths (config (pl w)))) in
(version graph ≠ PATTERN_GRAPH_VERSION → incrementalBuildsEnabled = false)
∧ (∃ t, trace w' = trace w ++ t
     ∧ if incrementalBuildsEnabled then Forall not_a_clearing t
       else ∃ t1 t2, t = t1 ++ clearing :: t2
                     ∧ Forall before_rendering t1
                     ∧ Forall not_a_clearing t1
                     ∧ Forall not_a_clearing t2)
∧ (∀ inc head w1,
     at_render_set deletePatternDir w inc head w1 →
     inc = incrementalBuildsEnabled
     ∧ (∀ l w2, patternsToBuild inc w1 = (Normal l, w2) →
          (c, w') = render_and_settle head l w2)
     ∧ if inc then
         ∀ l w2, patternsToBuild inc w1 = (Normal l, w2) →
           ∃ moved st1 st2,
             let logged := trace w1 ++ deleted_or_moved moved in
             graph_sync (pl w1, heap w1) = (Normal moved, st1)
             ∧ mark_modified_patterns (Date_getTime logged) st1 = (Normal (), st2)
             ∧ graph_compileOrder st2 = (Normal l, (pl w2, heap w2))
             ∧ trace w2 = logged
       else
         let marked :=
           mkWorld (pl w1) (mark_all (patterns (pl w1)) (heap w1))
                   (listeners w1) (trace w1) in
         patternsToBuild inc w1 = (Normal (patterns (pl w1)), marked)
         ∧ (∀ r pattern, r ∈ patterns (pl w1) → heap w1 !! r = Some pattern →
              compileState <$> heap marked !! r = Some NEEDS_REBUILD)
         ∧ (∀ r, r ∉ patterns (pl w1) → heap marked !! r = heap w1 !! r))
∧ ((∃ inc head w1, at_render_set deletePatternDir w inc head w1)
   ∨ ∃ t, trace w' = trace w ++ t ∧ Forall before_rendering t).
Proof.
cbv zeta. split; [|split; [|split]].
- intros Hv. unfold checkVersion. rewrite bool_decide_eq_false_2 by done.
  by rewrite orb_true_r.
- destruct (decide_rebuild_run deletePatternDir w)
    as (c0 & w0 & decided & Hd & Hc0 & Htr & _ & _ & _ & Hbr & Hclear).
  cbv zeta in Hc0, Hclear.
  assert (Hassoc : buildPatterns deletePatternDir w
            = bind (decide_rebuild deletePatternDir)
                (λ inc, bind (load_global_data;; ret inc) buildPatterns_async) w).
  { unfold buildPatterns, buildPatterns_sync, bind.
    by destruct (decide_rebuild deletePatternDir w) as [[?|?|?] ?]. }
  rewrite Hassoc in Hrun. apply bind_run in Hrun as (c1 & w1 & Hd' & Hk).
  rewrite Hd in Hd'. injection Hd' as <- <-.
  assert (Hrest : ∃ rest, trace w' = trace w0 ++ rest ∧ Forall not_a_clearing rest).
  { destruct Hc0 as [-> | (_ & e & ->)].
    - exact (after_decision_no_clearing _ _ _ _ Hk).
    - destruct Hk as [_ ->]. exists []. by rewrite app_nil_r. }
  destruct Hrest as (rest & Hrest & Hnc). rewrite Htr in Hrest.
  exists (decided ++ rest). rewrite <- app_assoc in Hrest. split; [exact Hrest|].
  destruct (negb _).
  + apply Forall_app. split; [exact Hclear | exact Hnc].
  + destruct Hclear as (t & -> & Ht). exists t, rest.
    rewrite <- app_assoc. split; [done|].
    apply Forall_app in Hbr as [Hbr _]. done.
- intros inc head w1 Hat.
  assert (Hinc : inc = negb (deletePatternDir
                             || negb (checkVersion
                                        (if deletePatternDir then PatternGraph_empty
                                         else PatternGraph_loadFromFile (pl w))))).
  { destruct Hat as (v1 & _ & _ & _ & _ & Hs & _).
    by eapply buildPatterns_sync_flag. }
  split; [exact Hinc|]. split.
  { intros l w2 Hl. rewrite <- Hrun. by eapply buildPatterns_from_render_set. }
  clear Hinc. destruct inc.
  + intros l w2 Hl. unfold patternsToBuild in Hl.
    apply bind_Normal in Hl as (moved & wa & Hsync & Hl).
    unfold call in Hsync.
    destruct (graph_sync (pl w1, heap w1)) as [c1 [p1 h1]] eqn:E1.
    injection Hsync as -> <-.
    apply bind_Normal in Hl as ([] & wb & Hlog & Hl).
    rewrite forEach_deleted_or_moved in Hlog. injection Hlog as <-.
    apply bind_Normal in Hl as (t & wc & [= <- <-] & Hl).
    apply bind_Normal in Hl as ([] & wd & Hmark & Hl).
    unfold call in Hmark, Hl. cbn [pl heap listeners trace] in Hmark.
    destruct (mark_modified_patterns _ (p1, h1)) as [c2 [p2 h2]] eqn:E2.
    injection Hmark as -> <-. cbn [pl heap listeners trace] in Hl.
    destruct (graph_compileOrder (p2, h2)) as [c3 [p3 h3]] eqn:E3.
    injection Hl as -> <-.
    exists moved, (p1, h1), (p2, h2). cbn [pl heap listeners trace]. done.
  + cbv zeta. unfold patternsToBuild, bind at 1, get_pl. unfold bind at 1.
    rewrite forEach_mark. split; [reflexivity|]. cbn [heap]. split.
    * intros r pattern Hin Hp. rewrite mark_all_lookup, decide_True by done.
      by rewrite Hp.
    * intros r Hnin. by apply mark_all_lookup_ne.
- unfold buildPatterns in Hrun. apply bind_run in Hrun as (c1 & v1 & Hs & Hk).
  pose proof (buildPatterns_sync_before_rendering _ _ _ _ Hs) as H1.
  destruct c1 as [inc|e|code].
  + apply buildPatterns_async_before_rendering_or_at_render_set in Hk
      as [(w2 & w3 & w4 & w5 & head & w6 & Hp & He & Hh & Hf & Hhead) | H2].
    * left. exists inc, head, w6, v1, w2, w3, w4, w5. done.
    * right. change (extends before_rendering w w'). by etrans.
  + right. destruct Hk as [_ ->]. exact H1.
  + right. destruct Hk as [_ ->]. exact H1.
Qed.

(** ** Phase 1 of the traversal *)

Lemma walk_run patterns_dir entries : ∀ w,
∃ w1 loading,
  forEach (load_file patterns_dir) entries w = (Normal (), w1)
  ∧ trace w1 = trace w ++ loading
  ∧ listeners w1 = listeners w
  ∧ load_calls loading = path_relative patterns_dir <$> walked_files entries
  ∧ process_calls loading = []
  ∧ (pl w1, heap w1) = load_all patterns_dir (walked_files entries) (pl w, heap w).
Proof.
induction entries as [|[err|file] entries IH]; intros w.
- exists w, []. rewrite app_nil_r. by destruct w.
- destruct (IH (mkWorld (pl w) (heap w) (listeners w)
                  (trace w ++ [ConsoleLog
                     ("error in processAllPatternsIterative(): " +:+ err)])))
    as (w1 & loading & Hrun & Htr & Hls & Hl & Hp & Hst).
  exists w1, (ConsoleLog ("error in processAllPatternsIterative(): " +:+ err) :: loading).
  split; [exact Hrun|]. split; [by rewrite Htr; simpl; rewrite <- app_assoc|].
  done.
- destruct (load_pattern_iterative (path_relative patterns_dir file) (pl w, heap w))
    as [pl1 heap1] eqn:E.
  destruct (IH (mkWorld pl1 heap1 (listeners w)
                  (trace w ++ [Called (load_pattern_iterative_call
                                         (path_relative patterns_dir file))])))
    as (w1 & loading & Hrun & Htr & Hls & Hl & Hp & Hst).
  exists w1, (Called (load_pattern_iterative_call (path_relative patterns_dir file))
              :: loading).
  split.
  { simpl. unfold bind at 1 2, out, call_total. simpl. rewrite E. exact Hrun. }
  split; [by rewrite Htr; simpl; rewrite <- app_assoc|].
  split; [done|]. split; [by simpl; rewrite Hl|]. split; [done|].
  rewrite Hst. simpl. by rewrite E.
Qed.

Lemma forEach_load_file_never_throws dir entries :
never_throws (forEach (load_file dir) entries).
Proof.
intros w c w' Hrun e ->.
destruct (walk_run dir entries w) as (w1 & loading & Hw & _). congruence.
Qed.

Lemma then_never_throws (p cb : M Settled) :
never_throws p → never_throws (then_ p cb).
Proof.
intros Hp w c w'. unfold then_, bind.
destruct (p w) as [[[|e0]|e0|code] w1] eqn:E.
- unfold try_catch. destruct (cb w1) as [[s|e1|code] w2]; by intros [= <- <-].
- by intros [= <- <-].
- by destruct (Hp _ _ _ E e0).
- by intros [= <- <-].
Qed.

Lemma processAllPatternsIterative_never_throws dir :
never_throws (processAllPatternsIterative dir).
Proof.
apply then_never_throws. intros w c w'. unfold bind.
destruct (forEach _ _ w) as [[u|e0|code] w1] eqn:E.
- by intros [= <- <-].
- by destruct (forEach_load_file_never_throws _ _ _ _ _ E e0).
- by intros [= <- <-].
Qed.

Lemma process_calls_events l : process_calls (process_events l) = l.
Proof. induction l as [|x l IH]; [done|]. simpl. by rewrite IH. Qed.

Lemma load_calls_events l : load_calls (process_events l) = [].
Proof. by induction l. Qed.

Lemma is_process_call_events l : Forall is_process_call (process_events l).
Proof. induction l; by constructor. Qed.

Lemma mapM_process_run l : ∀ w c w',
mapM (λ pattern,
        out (Called (process_pattern_iterative_call pattern));;
        call (process_pattern_iterative pattern)) l w = (c, w') →
∃ started, trace w' = trace w ++ process_events started
  ∧ listeners w' = listeners w
  ∧ started `prefix_of` l
  ∧ ∀ settled, c = Normal settled → started = l.
Proof.
induction l as [|x l IH]; intros w c w'; simpl.
- intros [= <- <-]. exists []. by rewrite app_nil_r.
- unfold bind at 1 2, out at 1, call at 1. simpl.
  destruct (process_pattern_iterative x (pl w, heap w)) as [[s|e|code] [pl1 heap1]];
    simpl.
  + unfold bind at 1.
    destruct (mapM _ l _) as [[ss|e|code] w2] eqn:E;
      destruct (IH _ _ _ E) as (started & Htr & Hls & Hpre & Hall); simpl in *;
      intros [= <- <-]; exists (x :: started);
      (split; [by rewrite Htr, <- app_assoc|]);
      (split; [done|]); (split; [by apply prefix_cons|]).
    * intros _ _. f_equal. by eapply Hall.
    * done.
    * done.
  + intros [= <- <-]. exists [x]. split; [done|]. split; [done|].
    split; [|done]. apply prefix_cons, prefix_nil.
  + intros [= <- <-]. exists [x]. split; [done|]. split; [done|].
    split; [|done]. apply prefix_cons, prefix_nil.
Qed.

Lemma mapM_process_start l : ∀ w c w',
mapM (λ pattern,
        out (Called (process_pattern_iterative_call pattern));;
        call (process_pattern_iterative pattern)) l w = (c, w') →
match start_steps l (pl w, heap w) with
| Some (promises, st) => c = Normal promises ∧ (pl w', heap w') = st
| None => ∀ promises, c ≠ Normal promises
end.
Proof.
induction l as [|x l IH]; intros w c w'; simpl.
- by intros [= <- <-].
- unfold bind at 1 2, out at 1, call at 1. simpl.
  destruct (process_pattern_iterative x (pl w, heap w)) as [[d|e|code] [pl1 heap1]];
    simpl; [|by intros [= <- <-]..].
  unfold bind at 1.
  destruct (mapM _ l _) as [[ds|e|code] w2] eqn:E; apply IH in E; simpl in E;
    destruct (start_steps l (pl1, heap1)) as [[promises st]|]; simpl;
    intros [= <- <-]; try done.
  + by destruct E as [[= ->] ->].
  + by destruct (E ds).
  + by destruct E.
  + by destruct E.
Qed.

Lemma Promise_all_run ps : ∀ w c w',
Promise_all ps w = (c, w') →
trace w' = trace w ∧ listeners w' = listeners w
∧ match all_fulfilled ps (pl w, heap w) with
  | Some st => c = Normal Fulfilled ∧ (pl w', heap w') = st
  | None => c ≠ Normal Fulfilled
  end.
Proof.
induction ps as [|[[|e]|work] ps IH]; intros w c w'; simpl.
- by intros [= <- <-].
- unfold bind, ret. apply IH.
- by intros [= <- <-].
- unfold bind at 1, try_catch, call.
  destruct (work (pl w, heap w)) as [[[|e]|e|code] [pl1 heap1]]; simpl;
    try by intros [= <- <-].
  intros Hrun. by apply IH in Hrun.
Qed.

Lemma process_all_patterns_run w c w' :
try_catch process_all_patterns (λ e, ret (Rejected e)) w = (c, w') →
(∃ started, trace w' = trace w ++ process_events started
   ∧ listeners w' = listeners w
   ∧ started `prefix_of` patterns (pl w)
   ∧ (c = Normal Fulfilled → started = patterns (pl w)))
∧ (c = Normal Fulfilled ↔
     ∃ promises st,
       start_steps (patterns (pl w)) (pl w, heap w) = Some (promises, st)
       ∧ all_fulfilled promises st = Some (pl w', heap w')).
Proof.
intros Hrun.
assert (∃ c1, process_all_patterns w = (c1, w')
              ∧ (c = Normal Fulfilled ↔ c1 = Normal Fulfilled)) as (c1 & Hp & Hc).
{ revert Hrun. unfold try_catch.
  destruct (process_all_patterns w) as [[s|e|code] w1]; intros [= <- <-];
    eexists; (split; [reflexivity|]); done. }
clear Hrun.
enough ((∃ started, trace w' = trace w ++ process_events started
           ∧ listeners w' = listeners w
           ∧ started `prefix_of` patterns (pl w)
           ∧ (c1 = Normal Fulfilled → started = patterns (pl w)))
        ∧ (c1 = Normal Fulfilled ↔
             ∃ promises st,
               start_steps (patterns (pl w)) (pl w, heap w) = Some (promises, st)
               ∧ all_fulfilled promises st = Some (pl w', heap w')))
  as [(started & ? & ? & ? & Hall) Hiff].
{ split; [|by rewrite Hc]. exists started. repeat (split; [done|]).
  intros Hx. by apply Hall, Hc. }
clear Hc c.
unfold process_all_patterns in Hp. apply bind_run in Hp as (c0 & w0 & [= <- <-] & Hp).
apply bind_run in Hp as (c2 & w2 & E & Hp).
destruct (mapM_process_run _ _ _ _ E) as (started & Htr & Hls & Hpre & Hall).
apply mapM_process_start in E.
destruct c2 as [ds|e|code].
- apply Promise_all_run in Hp as (Htr2 & Hls2 & Hful).
  destruct (start_steps _ _) as [[promises st]|]; [|by destruct (E ds)].
  destruct E as [[= <-] <-]. split.
  + exists started. rewrite Htr2, Hls2. repeat (split; [done|]).
    intros _. by eapply Hall.
  + destruct (all_fulfilled ds (pl w2, heap w2)) as [st|] eqn:Ea.
    * destruct Hful as [-> <-]. split; [|done].
      intros _. by exists ds, (pl w2, heap w2).
    * split; [done|]. intros (promises & st & [= <- <-] & Hst). congruence.
- destruct Hp as [-> ->]. split.
  + exists started. by repeat (split; [done|]).
  + split; [done|]. intros (promises & st & Hst & _).
    destruct (start_steps _ _) as [[ps st']|]; [by destruct E | done].
- destruct Hp as [-> ->]. split.
  + exists started. by repeat (split; [done|]).
  + split; [done|]. intros (promises & st & Hst & _).
    destruct (start_steps _ _) as [[ps st']|]; [by destruct E | done].
Qed.

Lemma start_steps_length l : ∀ st promises st',
start_steps l st = Some (promises, st') → length promises = length l.
Proof.
induction l as [|x l IH]; intros st promises st'; simpl.
- by intros [= <- _].
- destruct (process_pattern_iterative x st) as [[d|e|code] st1]; [|done..].
  destruct (start_steps l st1) as [[ps st2]|] eqn:E; [|done]. simpl.
  intros [= <- _]. simpl. f_equal. by eapply IH.
Qed.

Lemma processAllPatternsIterative_not_iteration_end dir :
preserves (extends not_iteration_end) (processAllPatternsIterative dir).
Proof. preserves_auto. Qed.

(** C6. The walk of the source pattern directory always runs to its end
  before any process step: it calls the load step once per discovered
  file, in the order of the walk, and no process step.  Only then the
  process steps are started, in the order of [patternlab.patterns]: the
  first on the store that the complete walk has left, which holds every
  loaded pattern, each next one on the store that the steps before it have
  left; no load step follows them.  Each step hands back a promise, which
  may be pending.  The promise of Phase 1 is fulfilled exactly when the
  step of every pattern of that collection has been started and every one
  of these promises is fulfilled, its pending work done; the store that
  Phase 1 leaves is then the one that this work has left.  In a build,
  the [then] callback of [buildPatterns], which begins with the
  iteration-end event, runs only when Phase 1 is fulfilled. *)
Theorem process_after_complete_walk (patterns_dir : string) (w : World) :
∃ w1 loading,
  let complete := patterns (pl w1) in
  forEach (load_file patterns_dir) (dive patterns_dir) w = (Normal (), w1)
  ∧ trace w1 = trace w ++ loading
  ∧ load_calls loading = path_relative patterns_dir <$> walked_files (dive patterns_dir)
  ∧ process_calls loading = []
  ∧ (pl w1, heap w1) = load_all patterns_dir (walked_files (dive patterns_dir)) (pl w, heap w)
  ∧ (∀ c w',
       processAllPatternsIterative patterns_dir w = (c, w') →
       (∃ processing,
          trace w' = trace w1 ++ processing
          ∧ Forall is_process_call processing
          ∧ load_calls processing = []
          ∧ process_calls processing `prefix_of` complete
          ∧ (c = Normal Fulfilled → process_calls processing = complete))
       ∧ (c = Normal Fulfilled ↔
            ∃ promises st,
              start_steps complete (pl w1, heap w1) = Some (promises, st)
              ∧ length promises = length complete
              ∧ all_fulfilled promises st = Some (pl w', heap w')))
  ∧ (patterns_dir = source_patterns (paths (config (pl w))) →
     ∀ incrementalBuildsEnabled c w' t,
       buildPatterns_async incrementalBuildsEnabled w = (c, w') →
       trace w' = trace w ++ t →
       iteration_end ∈ t →
       ∃ w2 promises st,
         processAllPatternsIterative patterns_dir w = (Normal Fulfilled, w2)
         ∧ start_steps complete (pl w1, heap w1) = Some (promises, st)
         ∧ all_fulfilled promises st = Some (pl w2, heap w2)).
Proof.
destruct (walk_run patterns_dir (dive patterns_dir) w)
  as (w1 & loading & Hrun & Htr & _ & Hl & Hp & Hst).
exists w1, loading. cbv zeta. repeat (split; [done|]).
assert (Hphase : ∀ c w',
          processAllPatternsIterative patterns_dir w = (c, w') →
          try_catch process_all_patterns (λ e, ret (Rejected e)) w1 = (c, w')).
{ intros c w'. unfold processAllPatternsIterative, then_.
  erewrite bind_eq_Normal; [|erewrite bind_eq_Normal; [|exact Hrun]; reflexivity].
  done. }
split.
- intros c w' Hproc. apply Hphase in Hproc.
  destruct (process_all_patterns_run _ _ _ Hproc)
    as ((started & Htr' & _ & Hpre & Hall) & Hiff).
  split.
  + exists (process_events started). split; [done|].
    split; [apply is_process_call_events|]. split; [apply load_calls_events|].
    rewrite process_calls_events. done.
  + rewrite Hiff. split.
    * intros (promises & st & Hs & Ha). exists promises, st.
      split; [done|]. split; [by eapply start_steps_length | done].
    * intros (promises & st & Hs & _ & Ha). by exists promises, st.
- intros -> inc c w' t Hb Ht Hin.
  destruct (processAllPatternsIterative (source_patterns (paths (config (pl w)))) w)
    as [[[|e]|e|code] w2] eqn:Hproc.
  + pose proof (Hphase _ _ eq_refl) as Hproc'.
    destruct (process_all_patterns_run _ _ _ Hproc') as (_ & Hiff).
    destruct (proj1 Hiff eq_refl) as (promises & st & Hs & Ha).
    by exists w2, promises, st.
  + exfalso.
    pose proof (processAllPatternsIterative_not_iteration_end _ _ _ _ Hproc)
      as (t2 & Ht2 & Hn).
    revert Hb. unfold buildPatterns_async, catch_, then_.
    unfold bind at 1, get_pl. unfold bind at 1. unfold bind at 1. rewrite Hproc.
    unfold try_catch, bind, console_log, out, ret. intros [= <- <-].
    simpl in Ht. rewrite Ht2, <- app_assoc in Ht. apply app_inv_head in Ht as <-.
    apply elem_of_app in Hin as [Hin|Hin].
    * by apply (proj1 (Forall_forall _ _) Hn _ Hin).
    * apply list_elem_of_singleton in Hin. discriminate Hin.
  + exfalso. eapply processAllPatternsIterative_never_throws; [exact Hproc | done].
  + exfalso.
    pose proof (processAllPatternsIterative_not_iteration_end _ _ _ _ Hproc)
      as (t2 & Ht2 & Hn).
    revert Hb. unfold buildPatterns_async, catch_, then_.
    unfold bind at 1, get_pl. unfold bind at 1. unfold bind at 1. rewrite Hproc.
    intros [= <- <-]. rewrite Ht2 in Ht. apply app_inv_head in Ht as <-.
    by apply (proj1 (Forall_forall _ _) Hn _ Hin).
Qed.

(** ** Fatal failures: structural templates and meta patterns *)

Lemma fatal_intro msg w w' t0 tail :
trace w' = trace w ++ t0 ++ tail ++ [ProcessExit 1] →
Log LError msg ∈ tail →
(∃ t, trace w' = trace w ++ t ∧ Forall before_rendering t) →
fatal msg w w'.
Proof.
intros Htr Hin (t & Ht & Hq). exists t. split; [done|]. split; [done|].
rewrite Htr in Ht. apply app_inv_head in Ht as <-.
split.
- rewrite !elem_of_app. tauto.
- by rewrite !app_assoc, last_snoc.
Qed.

Lemma read_structural_templates_fatal w :
Exists unreadable (structural_templates (config (pl w))) →
∃ w' ex t0,
  read_structural_templates w = (Exit 1, w')
  ∧ trace w' = trace w ++ t0
               ++ [ConsoleLog ex; Log LError essential_file_message] ++ [ProcessExit 1].
Proof.
intros Hex.
unfold read_structural_templates, fs_read, console_log, plutils_error, bind,
  try_catch, get_pl, lift, out, throw, ret, modify_pl, process_exit.
cbn [pl heap listeners trace].
unfold structural_templates in Hex.
set (files := source_patternlabFiles (paths (config (pl w)))) in *.
destruct (fs_readFileSync (path_resolve (general_header files))) as [ex|?] eqn:E1;
  cbn [pl heap listeners trace].
{ eexists _, ex, [FsRead _]. split; [reflexivity|].
  cbn [trace]. by rewrite <- !app_assoc. }
destruct (fs_readFileSync (path_resolve (general_footer files))) as [ex|?] eqn:E2;
  cbn [pl heap listeners trace].
{ eexists _, ex, [FsRead _; FsRead _]. split; [reflexivity|].
  cbn [trace]. by rewrite <- !app_assoc. }
destruct (fs_readFileSync (path_resolve (patternSection_file files))) as [ex|?] eqn:E3;
  cbn [pl heap listeners trace].
{ eexists _, ex, [FsRead _; FsRead _; FsRead _]. split; [reflexivity|].
  cbn [trace]. by rewrite <- !app_assoc. }
destruct (fs_readFileSync (path_resolve (patternSectionSubtype_file files)))
  as [ex|?] eqn:E4; cbn [pl heap listeners trace].
{ eexists _, ex, [FsRead _; FsRead _; FsRead _; FsRead _]. split; [reflexivity|].
  cbn [trace]. by rewrite <- !app_assoc. }
destruct (fs_readFileSync (path_resolve (viewall_file files))) as [ex|?] eqn:E5;
  cbn [pl heap listeners trace].
{ eexists _, ex, [FsRead _; FsRead _; FsRead _; FsRead _; FsRead _].
  split; [reflexivity|]. cbn [trace]. by rewrite <- !app_assoc. }
exfalso.
repeat (apply Exists_cons in Hex as [[ex Hex]|Hex]; [congruence|]).
by apply Exists_nil in Hex.
Qed.

Lemma load_global_data_fatal w :
Exists unreadable (structural_templates (config (pl w))) →
∃ w' ex t0,
  load_global_data w = (Exit 1, w')
  ∧ trace w' = trace w ++ t0
               ++ [ConsoleLog ex; Log LError essential_file_message] ++ [ProcessExit 1].
Proof.
intros Hex.
unfold load_global_data, plutils_error, plutils_warning, bind, try_catch, lift,
  get_pl, throw, ret, modify_pl, out.
destruct (buildPatternData _) as [e1|d]; destruct (loadDataFromFile _) as [e2|l];
  cbn [pl heap listeners trace].
all: lazymatch goal with
     | |- context [read_structural_templates ?w0] =>
         destruct (read_structural_templates_fatal w0 Hex) as (w' & ex & t0 & Hr & Htr);
         rewrite Hr; cbn [trace] in Htr
     end.
- eexists w', ex, ([Log LError _; Log LWarning _] ++ t0). split; [reflexivity|].
  rewrite Htr. rewrite <- !app_assoc. reflexivity.
- eexists w', ex, ([Log LError _] ++ t0). split; [reflexivity|].
  rewrite Htr. rewrite <- !app_assoc. reflexivity.
- eexists w', ex, ([Log LWarning _] ++ t0). split; [reflexivity|].
  rewrite Htr. rewrite <- !app_assoc. reflexivity.
- exists w', ex, t0. split; [reflexivity|]. exact Htr.
Qed.











(** ** Exceptions of the pipeline *)

(** C1, as amended.  The promise that [buildPatterns] returns is never
  rejected: the chain settles fulfilled, or the process is ended by one of
  the fatal paths.  An exception thrown by the pipeline after discovery,
  or a rejection of Phase 1, is caught by the final [catch], which logs it
  on the console; the handler returns nothing, so the promise is
  fulfilled. *)
Theorem buildPatterns_catches_and_fulfils (incrementalBuildsEnabled : bool) (w : World) :
let patterns_dir := source_patterns (paths (config (pl w))) in
let logged (e : Error) (w2 : World) :=
  mkWorld (pl w2) (heap w2) (listeners w2)
    (trace w2 ++ [ConsoleLog ("Error in buildPatterns(): " +:+ e)]) in
(∀ c w', buildPatterns_async incrementalBuildsEnabled w = (c, w') →
   c = Normal Fulfilled ∨ ∃ code, c = Exit code)
∧ (∀ w1 e w2,
     processAllPatternsIterative patterns_dir w = (Normal Fulfilled, w1) →
     after_discovery incrementalBuildsEnabled w1 = (Throw e, w2) →
     buildPatterns_async incrementalBuildsEnabled w = (Normal Fulfilled, logged e w2))
∧ (∀ e w1,
     processAllPatternsIterative patterns_dir w = (Normal (Rejected e), w1) →
     buildPatterns_async incrementalBuildsEnabled w = (Normal Fulfilled, logged e w1)).
Proof.
simpl. split; [|split].
- intros c w'. unfold buildPatterns_async, catch_. unfold bind at 1, get_pl.
  unfold bind at 1.
  destruct (then_ _ _ w) as [[[|e]|e|code] w1] eqn:E.
  + intros [= <- <-]. by left.
  + unfold try_catch, bind, console_log, out, ret. intros [= <- <-]. by left.
  + exfalso. eapply then_never_throws; [|exact E|reflexivity].
    apply processAllPatternsIterative_never_throws.
  + intros [= <- <-]. right. by exists code.
- intros w1 e w2 Hp Ha.
  by rewrite (buildPatterns_async_after_discovery _ _ _ Hp), Ha.
- intros e w1 Hp. unfold buildPatterns_async, catch_, then_.
  unfold bind at 1, get_pl. unfold bind at 1. unfold bind at 1. rewrite Hp.
  reflexivity.
Qed.

(** ** The listeners that [build] registers *)

Lemma then_Fulfilled (p cb : M Settled) w w' :
then_ p cb w = (Normal Fulfilled, w') →
∃ w1, p w = (Normal Fulfilled, w1) ∧ cb w1 = (Normal Fulfilled, w').
Proof.
unfold then_, bind, ret. destruct (p w) as [[[|e]|e|code] w1] eqn:Ep; [|done..].
unfold try_catch. destruct (cb w1) as [[s|e|code] w2] eqn:Ec; intros Heq;
  simplify_eq.
eexists. split; [reflexivity | eassumption].
Qed.

Lemma enter_build_same_listeners options :
preserves same_listeners (enter_build options).
Proof. preserves_auto. Qed.

Lemma buildPatterns_async_same_listeners inc :
preserves same_listeners (buildPatterns_async inc).
Proof. preserves_auto. Qed.

Lemma printDebug_same_listeners : preserves same_listeners printDebug.
Proof. preserves_auto. Qed.

Lemma build_then_registers callback options w c w' :
build_then callback options w = (Normal c, w') →
listeners w' = listeners w ++ registered callback options.
Proof.
unfold build_then. intros Hrun.
apply bind_Normal in Hrun as (u1 & w1 & H1 & Hrun).
apply same_listeners_call in H1.
apply bind_Normal in Hrun as (u2 & w2 & H2 & Hrun).
apply same_listeners_call in H2.
apply bind_Normal in Hrun as (u3 & w3 & [= <-] & Hrun).
apply bind_Normal in Hrun as (u4 & w4 & [= <-] & Hrun).
apply bind_Normal in Hrun as (u5 & w5 & H5 & Hrun).
apply printDebug_same_listeners in H5.
apply bind_Normal in Hrun as (u6 & w6 & [= <-] & Hrun).
apply bind_Normal in Hrun as (u7 & w7 & H7 & [= _ <-]).
apply same_listeners_call in H7.
unfold same_listeners in *. subst. simpl in *.
rewrite H7, H5, <- app_assoc, H2, H1. reflexivity.
Qed.

Lemma build_registers callback options w w' :
isBusy (pl w) = false →
build callback options w = (Normal Fulfilled, w') →
listeners w' = listeners w ++ registered callback options.
Proof.
intros Hbusy. unfold build. intros Hrun.
apply bind_Normal in Hrun as (pr & w1 & He & Hs).
pose proof (enter_build_same_listeners _ _ _ _ He) as Hl1.
unfold enter_build, bind at 1, get_pl in He. rewrite Hbusy in He.
apply bind_Normal in He as (u & w0 & _ & He).
apply bind_Normal in He as (inc & w0' & _ & [= <- _]).
simpl in Hs. apply then_Fulfilled in Hs as (w2 & Ha & Hb).
apply buildPatterns_async_same_listeners in Ha.
apply build_then_registers in Hb.
unfold same_listeners in *. by rewrite Hb, Ha, Hl1.
Qed.

Lemma listeners_of_app name l1 l2 :
listeners_of name (l1 ++ l2) = listeners_of name l1 ++ listeners_of name l2.
Proof. unfold listeners_of. apply filter_app. Qed.

Lemma successful_builds_listeners n w w' :
successful_builds n w w' →
∃ added, listeners w' = listeners w ++ added
  ∧ length (listeners_of pattern_change added) = n
  ∧ length (listeners_of global_change added) = n.
Proof.
induction 1 as [w | n w w1 w2 callback options _ IH Hbusy Hbuild].
- exists []. by rewrite app_nil_r.
- destruct IH as (added & Hl & Hp & Hg).
  exists (added ++ registered callback options).
  rewrite (build_registers _ _ _ _ Hbusy Hbuild), Hl, <- app_assoc.
  split; [done|]. rewrite !listeners_of_app, !length_app, Hp, Hg.
  split; simpl; lia.
Qed.

Lemma mapM_length {A B} (f : A → M B) l : ∀ w rs w',
mapM f l w = (Normal rs, w') → length rs = length l.
Proof.
induction l as [|x l IH]; intros w rs w'; simpl.
- by intros [= <- _].
- intros Hrun. apply bind_Normal in Hrun as (y & w1 & _ & Hrun).
  apply bind_Normal in Hrun as (ys & w2 & Hys & [= <- _]).
  simpl. f_equal. by eapply IH.
Qed.

(** C10. A call of [build] that is entered while the context is not busy
  and whose promise is fulfilled adds two listeners to the event bus, one
  for the pattern-change event and one for the global-change event, after
  the ones that are there; none is removed.  After [n] such builds the bus
  holds [n] more listeners of each event, so that in a session that
  started without listeners one change event calls [n] rebuild handlers.
  A handler looks at nothing but the busy flag: busy, it returns a
  resolved promise and does nothing; not busy, it enters a build. *)
Theorem build_accumulates_listeners (n : nat) (w w' : World)
  (Hbuilds : successful_builds n w w') :
(∀ callback options w'',
   isBusy (pl w') = false →
   build callback options w' = (Normal Fulfilled, w'') →
   listeners w'' = listeners w' ++ registered callback options)
∧ (∃ added, listeners w' = listeners w ++ added
     ∧ length (listeners_of pattern_change added) = n
     ∧ length (listeners_of global_change added) = n)
∧ (∀ name handled w'',
     listeners w = [] →
     name = pattern_change ∨ name = global_change →
     emit_change name w' = (Normal handled, w'') →
     length handled = n)
∧ (∀ l w0,
     on_change l w0 =
       if isBusy (pl w0) then (Normal Resolved, w0)
       else enter_build (rebuild_options l) w0).
Proof.
split; [|split; [|split]].
- intros callback options w'' Hbusy Hbuild. by apply build_registers.
- by apply successful_builds_listeners.
- intros name handled w'' Hnil Hname Hemit.
  destruct (successful_builds_listeners _ _ _ Hbuilds) as (added & Hl & Hp & Hg).
  rewrite Hnil in Hl. simpl in Hl.
  unfold emit_change in Hemit.
  apply bind_Normal in Hemit as (ls & w1 & [= <- <-] & Hmap).
  apply mapM_length in Hmap. rewrite Hmap, Hl.
  by destruct Hname as [-> | ->].
- intros l w0. unfold on_change, bind, get_pl. by destruct (isBusy (pl w0)).
Qed.

(** * Further properties of the build, the configuration check and the
    server *)

(** ** Exceptions of the entry points *)













Lemma buildPatterns_async_outcome inc w c w' :
buildPatterns_async inc w = (c, w') → c = Normal Fulfilled ∨ ∃ code, c = Exit code.
Proof.
unfold buildPatterns_async, catch_. unfold bind at 1, get_pl. unfold bind at 1.
destruct (then_ _ _ w) as [[[|e]|e|code] w1] eqn:E.
- intros [= <- <-]. by left.
- unfold try_catch, bind, console_log, out, ret. intros [= <- <-]. by left.
- exfalso. eapply then_never_throws; [|exact E|reflexivity].
  apply processAllPatternsIterative_never_throws.
- intros [= <- <-]. right. by exists code.
Qed.

(** ** The listeners of a session *)

Lemma patternsonly_same_listeners callback options :
preserves same_listeners (patternsonly callback options).
Proof.
unfold patternsonly.
apply preserves_bind; [tc_solve | apply enter_build_same_listeners | intros pr].
destruct pr as [|inc]; simpl; [apply preserves_ret; tc_solve|].
apply preserves_then; [tc_solve | apply buildPatterns_async_same_listeners |].
unfold patternsonly_then.
apply preserves_bind; [tc_solve | apply printDebug_same_listeners | intros].
preserves_auto.
Qed.

(** X2. [patternsonly] registers nothing: whatever its outcome, the
  listeners of the event bus are the ones it found.  In a session that has
  only ever built with [patternsonly] there is nothing to call when a
  change event is emitted: the event rebuilds nothing. *)
Theorem patternsonly_registers_nothing
  (callback : CallbackId) (options : Options) (w w' : World) (c : Completion Settled)
  (Hrun : patternsonly callback options w = (c, w')) :
listeners w' = listeners w
∧ (listeners w = [] → ∀ name, emit_change name w' = (Normal [], w')).
Proof.
pose proof (patternsonly_same_listeners _ _ _ _ _ Hrun) as Hl.
split; [exact Hl|]. intros Hnone name.
unfold emit_change, bind, get_listeners. rewrite Hl, Hnone. reflexivity.
Qed.

Lemma build_then_listeners callback options w c w' :
build_then callback options w = (c, w') →
listeners w' = listeners w ∨ listeners w' = listeners w ++ registered callback options.
Proof.
unfold build_then. intros Hrun.
destruct (call buildFrontend w) as [[u1|e1|code1] w1] eqn:E1.
2,3: left; unfold bind in Hrun; rewrite E1 in Hrun; injection Hrun as _ <-;
  exact (same_listeners_call _ _ _ _ E1).
rewrite (bind_eq_Normal _ _ _ _ _ E1) in Hrun.
destruct (call (copyAssets options) w1) as [[u2|e2|code2] w2] eqn:E2.
2,3: left; unfold bind in Hrun; rewrite E2 in Hrun; injection Hrun as _ <-;
  rewrite (same_listeners_call _ _ _ _ E2); exact (same_listeners_call _ _ _ _ E1).
rewrite (bind_eq_Normal _ _ _ _ _ E2) in Hrun.
unfold bind at 1 2, add_listener at 1 2 in Hrun. simpl in Hrun.
right.
assert (preserves same_listeners
          (printDebug;; modify_pl (set_isBusy false);;
           call (run_callback callback);; ret Fulfilled)) as Hrest.
{ apply preserves_bind; [tc_solve | apply printDebug_same_listeners | intros].
  preserves_auto. }
rewrite (Hrest _ _ _ Hrun). simpl.
rewrite (same_listeners_call _ _ _ _ E2), (same_listeners_call _ _ _ _ E1).
by rewrite <- app_assoc.
Qed.

Lemma build_listeners callback options w c w' :
build callback options w = (c, w') →
listeners w' = listeners w ∨ listeners w' = listeners w ++ registered callback options.
Proof.
unfold build, bind.
destruct (enter_build options w) as [[[|inc]|e|code] w1] eqn:E;
  pose proof (enter_build_same_listeners _ _ _ _ E) as H1.
- intros [= _ <-]. by left.
- simpl. unfold then_, bind.
  destruct (buildPatterns_async inc w1) as [[[|e]|e|code] w2] eqn:E2;
    pose proof (buildPatterns_async_same_listeners _ _ _ _ E2) as H2.
  + unfold try_catch.
    destruct (build_then callback options w2) as [[s|e|code] w3] eqn:E3;
      intros [= _ <-];
      destruct (build_then_listeners _ _ _ _ _ E3) as [->| ->];
      rewrite H2, H1; auto.
  + intros [= _ <-]. left. by rewrite H2.
  + intros [= _ <-]. left. by rewrite H2.
  + intros [= _ <-]. left. by rewrite H2.
- intros [= _ <-]. by left.
- intros [= _ <-]. by left.
Qed.

Lemma balanced_registered callback options ls :
balanced (ls ++ registered callback options) ↔ balanced ls.
Proof.
unfold balanced. rewrite !listeners_of_app, !length_app.
change (length (listeners_of pattern_change (registered callback options))) with 1%nat.
change (length (listeners_of global_change (registered callback options))) with 1%nat.
lia.
Qed.

(** X3. Whatever the outcome of a call of [build] (fulfilled, rejected,
  dropped, thrown, or the process ended), it has registered either both of
  its listeners, after the ones that were there, or none: the
  pattern-change and the global-change listeners of the bus stay equal in
  number. *)
Theorem build_registers_both_or_none
  (callback : CallbackId) (options : Options) (w w' : World) (c : Completion Settled)
  (Hrun : build callback options w = (c, w')) :
(listeners w' = listeners w
 ∨ listeners w' = listeners w ++ registered callback options)
∧ (balanced (listeners w) → balanced (listeners w')).
Proof.
pose proof (build_listeners _ _ _ _ _ Hrun) as Hl.
split; [exact Hl|].
destruct Hl as [-> | ->]; [done|]. by rewrite balanced_registered.
Qed.

(** ** The busy flag *)

Global Instance same_flag_preorder : PreOrder same_flag.
Proof.
split.
- by intros w.
- intros w1 w2 w3 E1 E2. unfold same_flag in *. by rewrite E2.
Qed.

Lemma same_flag_out ev : preserves same_flag (out ev).
Proof. by intros w c w' [= <- <-]. Qed.

Lemma same_flag_process_exit {A} code : preserves same_flag (@process_exit A code).
Proof. by intros w c w' [= <- <-]. Qed.

Lemma same_flag_assign r f : preserves same_flag (assign r f).
Proof. by intros w c w' [= <- <-]. Qed.

Lemma same_flag_alloc p : preserves same_flag (alloc p).
Proof. by intros w c w' [= <- <-]. Qed.

Lemma same_flag_add_listener l : preserves same_flag (add_listener l).
Proof. by intros w c w' [= <- <-]. Qed.

Lemma same_flag_modify_pl f :
(∀ p, isBusy (f p) = isBusy p) → preserves same_flag (modify_pl f).
Proof. intros Hf w c w' [= <- <-]. apply Hf. Qed.

Lemma same_flag_call {A} (f : Ext A) : leaves_flag f → preserves same_flag (call f).
Proof.
intros Hf w c w'. unfold call. specialize (Hf (pl w, heap w)).
destruct (f (pl w, heap w)) as [c1 [pl1 heap1]]. by intros [= <- <-].
Qed.

Lemma same_flag_call_total f :
(∀ st, isBusy (f st).1 = isBusy st.1) → preserves same_flag (call_total f).
Proof.
intros Hf w c w'. unfold call_total. specialize (Hf (pl w, heap w)).
destruct (f (pl w, heap w)) as [pl1 heap1]. by intros [= <- <-].
Qed.

(** One structural step of a goal on the busy flag. *)
Ltac flag_step :=
lazymatch goal with
| |- preserves same_flag (out _) => apply same_flag_out
| |- preserves same_flag (process_exit _) => apply same_flag_process_exit
| |- preserves same_flag (assign _ _) => apply same_flag_assign
| |- preserves same_flag (alloc _) => apply same_flag_alloc
| |- preserves same_flag (add_listener _) => apply same_flag_add_listener
| |- preserves same_flag (modify_pl _) => apply same_flag_modify_pl; intros; reflexivity
| |- preserves same_flag (call _) => apply same_flag_call; auto
| |- preserves same_flag (call_total _) => apply same_flag_call_total; auto
| |- _ => preserves_step
end.

Lemma buildPatterns_sync_same_flag d :
(∀ st, isBusy (combine_listItems st).1 = isBusy st.1) →
preserves same_flag (buildPatterns_sync d).
Proof. intros Hc. repeat flag_step. Qed.

Lemma enter_build_idle options w c w' :
isBusy (pl w) = false →
enter_build options w = (c, w') →
∃ w0, w0 = mkWorld (set_isBusy true (pl w)) (heap w) (listeners w) (trace w)
  ∧ ((∃ inc, c = Normal (Pending inc)
             ∧ buildPatterns_sync (cleanPublic options) w0 = (Normal inc, w'))
     ∨ (∃ code, c = Exit code
                ∧ buildPatterns_sync (cleanPublic options) w0 = (Exit code, w'))
     ∨ (∃ e, c = Throw e
             ∧ buildPatterns_sync (cleanPublic options) w0 = (Throw e, w'))).
Proof.
intros Hidle. unfold enter_build. unfold bind at 1, get_pl. rewrite Hidle.
unfold bind at 1, modify_pl at 1. intros Hrun. eexists. split; [reflexivity|].
unfold bind in Hrun.
destruct (buildPatterns_sync _ _) as [[inc|e|code] w1] eqn:E.
- injection Hrun as <- <-. left. by exists inc.
- injection Hrun as <- <-. right. right. by exists e.
- injection Hrun as <- <-. right. left. by exists code.
Qed.

Lemma enter_build_raises_flag options w c w' :
(∀ st, isBusy (combine_listItems st).1 = isBusy st.1) →
isBusy (pl w) = false →
enter_build options w = (c, w') →
isBusy (pl w') = true.
Proof.
intros Hc Hidle Hrun.
destruct (enter_build_idle _ _ _ _ Hidle Hrun)
  as (w0 & -> & [(inc & _ & E)|[(code & _ & E)|(e & _ & E)]]);
  by rewrite (buildPatterns_sync_same_flag _ Hc _ _ _ E).
Qed.

Lemma mapM_on_change_busy ls w :
isBusy (pl w) = true →
mapM on_change ls w = (Normal (replicate (length ls) Resolved), w).
Proof.
intros Hbusy. induction ls as [|l ls IH]; simpl; [done|].
unfold bind at 1. unfold on_change at 1, bind at 1, get_pl. rewrite Hbusy. simpl.
unfold bind. by rewrite IH.
Qed.

(** X4. However many listeners a change event has, it starts at most one
  build.  When the context is not busy and no listener ends the process,
  the first listener of the event enters a build, which raises the busy
  flag before it returns its promise; every other listener of the event
  then finds the flag raised and returns a resolved promise without a
  trace.  The world the event leaves is the one that the first listener's
  build left.  (The flag is assumed to survive [combine_listItems], the
  one collaborator that runs before the promise is returned.) *)
Theorem change_event_starts_one_build
  (name : string) (l : Listener) (ls : list Listener) (w w' : World)
  (handled : list Promise)
  (Hflag : ∀ st, isBusy (combine_listItems st).1 = isBusy st.1)
  (Hidle : isBusy (pl w) = false)
  (Hls : listeners_of name (listeners w) = l :: ls)
  (Hrun : emit_change name w = (Normal handled, w')) :
∃ incrementalBuildsEnabled,
  enter_build (rebuild_options l) w = (Normal (Pending incrementalBuildsEnabled), w')
  ∧ handled = Pending incrementalBuildsEnabled :: replicate (length ls) Resolved
  ∧ isBusy (pl w') = true.
Proof.
unfold emit_change in Hrun. unfold bind at 1, get_listeners in Hrun.
rewrite Hls in Hrun. simpl in Hrun.
apply bind_Normal in Hrun as (pr & w1 & Hfirst & Hrun).
unfold on_change in Hfirst. unfold bind at 1, get_pl in Hfirst.
rewrite Hidle in Hfirst. simpl in Hfirst.
pose proof (enter_build_raises_flag _ _ _ _ Hflag Hidle Hfirst) as Hup.
destruct (enter_build_idle _ _ _ _ Hidle Hfirst)
  as (w0 & _ & [(inc & [= ->] & _)|[(code & [=] & _)|(e & [=] & _)]]).
apply bind_Normal in Hrun as (rest & w2 & Hrest & Hrun).
rewrite (mapM_on_change_busy _ _ Hup) in Hrest.
injection Hrest as <- <-. injection Hrun as <- <-. by exists inc.
Qed.

Lemma buildPatterns_sync_run d w c w' :
buildPatterns_sync d w = (c, w') →
let graph := if d then PatternGraph_empty else PatternGraph_loadFromFile (pl w) in
let inc := negb (d || negb (checkVersion graph)) in
(∀ inc', c = Normal inc' → inc' = inc)
∧ ∃ decided rest,
    trace w' = trace w ++ decided ++ rest
    ∧ Forall not_a_clearing rest
    ∧ (if inc then Forall not_a_clearing decided
       else FsEmptyDir (public_patterns (paths (config (pl w)))) ∈ decided).
Proof.
intros Hrun. simpl.
destruct (decide_rebuild_run d w)
  as (c0 & w1 & decided & Hd & Hc0 & Htr & _ & _ & _ & _ & Hclear).
assert (Hin : if negb (d || negb (checkVersion
                                    (if d then PatternGraph_empty
                                     else PatternGraph_loadFromFile (pl w))))
              then Forall not_a_clearing decided
              else FsEmptyDir (public_patterns (paths (config (pl w)))) ∈ decided).
{ simpl in Hclear. destruct (negb _); [done|].
  destruct Hclear as (t & -> & _). apply elem_of_app. right.
  by apply list_elem_of_singleton. }
clear Hclear. unfold buildPatterns_sync in Hrun.
destruct Hc0 as [-> | (_ & e0 & ->)].
- rewrite (bind_eq_Normal _ _ _ _ _ Hd) in Hrun. unfold bind in Hrun.
  destruct (load_global_data w1) as [[u|e|code] w2] eqn:E;
    destruct (load_global_data_no_clearing _ _ _ E) as (rest & Hrest & Hq);
    injection Hrun as <- <-.
  all: split; [by intros inc' [= <-] || by intros inc' [=] |].
  all: exists decided, rest; by rewrite Hrest, Htr, <- app_assoc.
- rewrite (bind_eq_Throw _ _ _ _ _ Hd) in Hrun. injection Hrun as <- <-.
  split; [by intros inc' [=]|]. exists decided, []. by rewrite app_nil_r.
Qed.

(** X5. The two listeners that [build] registers rebuild in different ways,
  whatever the options of the build that registered them.  When the
  context is not busy, the listener of the global-change event enters a
  full rebuild: the public patterns directory is cleared and the build is
  not incremental.  The listener of the pattern-change event enters a build
  that is incremental, and clears nothing, exactly when the version stamp
  of the stored graph is the current one. *)
Theorem change_event_kind_of_rebuild
  (callback : CallbackId) (options : Options) (w : World)
  (Hidle : isBusy (pl w) = false) :
let on_pattern := mkListener pattern_change false callback options in
let on_global := mkListener global_change true callback options in
let clearing := FsEmptyDir (public_patterns (paths (config (pl w)))) in
let stored := PatternGraph_loadFromFile (set_isBusy true (pl w)) in
registered callback options = [on_pattern; on_global]
∧ (∀ c w', on_change on_global w = (c, w') →
     ∃ t, trace w' = trace w ++ t
          ∧ clearing ∈ t
          ∧ ∀ inc, c = Normal (Pending inc) → inc = false)
∧ (∀ c w', on_change on_pattern w = (c, w') →
     ∃ t, trace w' = trace w ++ t
          ∧ if checkVersion stored
            then Forall not_a_clearing t
                 ∧ ∀ inc, c = Normal (Pending inc) → inc = true
            else clearing ∈ t
                 ∧ ∀ inc, c = Normal (Pending inc) → inc = false).
Proof.
simpl. split; [reflexivity|].
assert (∀ l c w', on_change l w = (c, w') →
          ∃ w0 c0, w0 = mkWorld (set_isBusy true (pl w)) (heap w) (listeners w) (trace w)
            ∧ buildPatterns_sync (l_cleanPublic l) w0 = (c0, w')
            ∧ ∀ inc, c = Normal (Pending inc) → c0 = Normal inc) as Hon.
{ intros l c w' Hrun. unfold on_change in Hrun. unfold bind at 1, get_pl in Hrun.
  rewrite Hidle in Hrun. simpl in Hrun.
  destruct (enter_build_idle _ _ _ _ Hidle Hrun)
    as (w0 & -> & [(inc & -> & E)|[(code & -> & E)|(e & -> & E)]]); eexists _, _;
    (split; [reflexivity|]); (split; [exact E|]).
  - by intros inc' [= <-].
  - by intros inc' [=].
  - by intros inc' [=]. }
split.
- intros c w' Hrun. destruct (Hon _ _ _ Hrun) as (w0 & c0 & -> & E & Hc).
  destruct (buildPatterns_sync_run _ _ _ _ E) as (Hinc & decided & rest & Htr & _ & Hin).
  simpl in *. exists (decided ++ rest). split; [done|]. split.
  + apply elem_of_app. by left.
  + intros inc Hp. by apply Hinc, Hc.
- intros c w' Hrun. destruct (Hon _ _ _ Hrun) as (w0 & c0 & -> & E & Hc).
  destruct (buildPatterns_sync_run _ _ _ _ E) as (Hinc & decided & rest & Htr & Hq & Hin).
  simpl in *. exists (decided ++ rest). split; [done|].
  destruct (checkVersion _); simpl in *.
  + split; [by apply Forall_app|]. intros inc Hp. by apply Hinc, Hc.
  + split; [apply elem_of_app; by left|]. intros inc Hp. by apply Hinc, Hc.
Qed.

Lemma mapM_process_same_flag l :
private_flag → ∀ w c w',
mapM (λ pattern,
        out (Called (process_pattern_iterative_call pattern));;
        call (process_pattern_iterative pattern)) l w = (c, w') →
same_flag w w'
∧ ∀ ds, c = Normal ds → Forall (λ d, ∀ work, d = pending work → leaves_flag work) ds.
Proof.
intros Hp. induction l as [|x l IH]; intros w c w'; simpl.
- intros [= <- <-]. split; [done|]. by intros ds [= <-].
- unfold bind at 1 2, out at 1, call at 1. simpl.
  pose proof (flag_process_pattern_iterative Hp x (pl w, heap w)) as Hx.
  pose proof (flag_pending Hp x (pl w, heap w)) as Hw.
  destruct (process_pattern_iterative x (pl w, heap w)) as [[d|e|code] [pl1 heap1]];
    simpl in *; [|by intros [= <- <-]..].
  unfold bind at 1.
  destruct (mapM _ l _) as [[ds|e|code] w2] eqn:E; apply IH in E as [Hf Hds];
    unfold same_flag in *; simpl in *; intros [= <- <-];
    (split; [congruence|]); [|done..].
  intros ds' [= <-]. constructor; [|by apply Hds].
  intros work ->. by apply Hw.
Qed.

Lemma Promise_all_same_flag ds :
Forall (λ d, ∀ work, d = pending work → leaves_flag work) ds →
preserves same_flag (Promise_all ds).
Proof.
induction 1 as [|d ds Hd _ IH]; simpl; [apply preserves_ret; tc_solve|].
apply preserves_bind; [tc_solve| |intros [|e]; [exact IH | apply preserves_ret; tc_solve]].
destruct d as [s|work]; simpl; [apply preserves_ret; tc_solve|].
apply preserves_try_catch; [tc_solve | | intros; apply preserves_ret; tc_solve].
apply same_flag_call. by apply Hd.
Qed.

Lemma process_all_patterns_same_flag :
private_flag → preserves same_flag process_all_patterns.
Proof.
intros Hp w c w'. unfold process_all_patterns. intros Hrun.
apply bind_run in Hrun as (c0 & w0 & [= <- <-] & Hrun).
apply bind_run in Hrun as (c1 & w1 & E & Hrun).
apply (mapM_process_same_flag _ Hp) in E as [Hf Hds].
destruct c1 as [ds|e|code]; [|by destruct Hrun as [_ ->]..].
etrans; [exact Hf|]. eapply Promise_all_same_flag; [by apply Hds | exact Hrun].
Qed.

Lemma buildPatterns_async_same_flag inc :
private_flag → preserves same_flag (buildPatterns_async inc).
Proof.
intros Hp. pose proof (process_all_patterns_same_flag Hp). destruct Hp.
repeat (first [assumption | flag_step]).
Qed.

Lemma printDebug_run w c w' :
printDebug w = (c, w') →
listeners w' = listeners w ∧ pl w' = pl w ∧ heap w' = heap w
∧ (∀ code, c ≠ Exit code)
∧ (∀ e, c = Throw e → debug (config (pl w)) = true).
Proof.
unfold printDebug, bind, get_pl, get_heap, console_log, fs_write, bind, lift, throw,
  out, ret.
destruct (debug _); [|by intros [= <- <-]]. cbn [pl heap listeners trace].
destruct (JSON_stringify_patternlab _ _) as [e|json]; [by intros [= <- <-]|].
cbn [pl heap listeners trace].
destruct (fs_outputFileSync _ _) as [e|[]]; by intros [= <- <-].
Qed.

(** The [then] callback of [build] ends before it has registered a
    listener, or when [printDebug] throws, or after it has lowered the
    flag. *)
Lemma build_then_outcome callback options w c w' :
private_flag →
build_then callback options w = (c, w') →
(listeners w' = listeners w ∧ isBusy (pl w') = isBusy (pl w) ∧ ∀ s, c ≠ Normal s)
∨ (listeners w' = listeners w ++ registered callback options
   ∧ isBusy (pl w') = isBusy (pl w) ∧ debug (config (pl w')) = true
   ∧ ∃ e, c = Throw e)
∨ (listeners w' = listeners w ++ registered callback options ∧ isBusy (pl w') = false).
Proof.
intros Hprivate. unfold build_then. intros Hrun.
destruct (call buildFrontend w) as [[u1|e1|code1] w1] eqn:E1;
  pose proof (same_listeners_call _ _ _ _ E1) as Hl1;
  pose proof (same_flag_call _ (flag_buildFrontend Hprivate) _ _ _ E1) as Hf1.
2,3: left; unfold bind in Hrun; rewrite E1 in Hrun; by injection Hrun as <- <-.
rewrite (bind_eq_Normal _ _ _ _ _ E1) in Hrun.
destruct (call (copyAssets options) w1) as [[u2|e2|code2] w2] eqn:E2;
  pose proof (same_listeners_call _ _ _ _ E2) as Hl2;
  pose proof (same_flag_call _ (flag_copyAssets Hprivate options) _ _ _ E2) as Hf2.
2,3: left; unfold bind in Hrun; rewrite E2 in Hrun; injection Hrun as <- <-;
  unfold same_listeners, same_flag in *; by rewrite Hl2, Hl1, Hf2, Hf1.
rewrite (bind_eq_Normal _ _ _ _ _ E2) in Hrun.
unfold bind at 1 2, add_listener at 1 2 in Hrun. simpl in Hrun.
right. unfold same_listeners, same_flag in *.
apply bind_run in Hrun as (c3 & w3 & E3 & Hrun).
apply printDebug_run in E3 as (Hl3 & Hp3 & _ & Hexit & Hdebug). simpl in *.
destruct c3 as [[]|e|code].
- right. unfold bind at 1, modify_pl at 1 in Hrun.
  assert (preserves same_flag (call (run_callback callback);; ret Fulfilled)) as Hflag.
  { repeat flag_step. apply (flag_run_callback Hprivate). }
  assert (preserves same_listeners (call (run_callback callback);; ret Fulfilled))
    as Hsame by preserves_auto.
  rewrite (Hflag _ _ _ Hrun), (Hsame _ _ _ Hrun). simpl.
  split; [|done]. by rewrite Hl3, Hl2, Hl1, <- app_assoc.
- left. destruct Hrun as [-> ->]. rewrite Hl3, Hp3, Hl2, Hl1, <- app_assoc.
  simpl. rewrite Hf2, Hf1. split; [done|]. split; [done|].
  split; [|by exists e]. rewrite <- (Hdebug e eq_refl). by destruct (pl w2).
- by destruct (Hexit code).
Qed.

(** The [then] callback of [patternsonly] ends when [printDebug] throws,
    or after it has lowered the flag. *)
Lemma patternsonly_then_outcome callback w c w' :
private_flag →
patternsonly_then callback w = (c, w') →
(isBusy (pl w') = isBusy (pl w) ∧ debug (config (pl w')) = true ∧ ∃ e, c = Throw e)
∨ isBusy (pl w') = false.
Proof.
intros Hprivate. unfold patternsonly_then. intros Hrun.
apply bind_run in Hrun as (c3 & w3 & E3 & Hrun).
apply printDebug_run in E3 as (_ & Hp3 & _ & Hexit & Hdebug).
destruct c3 as [[]|e|code].
- right. unfold bind at 1, modify_pl at 1 in Hrun.
  assert (preserves same_flag (call (run_callback callback);; ret Fulfilled)) as Hflag.
  { repeat flag_step. apply (flag_run_callback Hprivate). }
  by rewrite (Hflag _ _ _ Hrun).
- left. destruct Hrun as [-> ->]. rewrite Hp3. split; [done|].
  split; [by apply (Hdebug e) | by exists e].
- by destruct (Hexit code).
Qed.

(** An entry point that is entered while the context is not busy: it
    throws or ends the process with the flag raised, or its [then] callback
    is run with the flag raised. *)
Lemma entered_build_run options (cb : M Settled) w c w' :
private_flag →
isBusy (pl w) = false →
(do pr <- enter_build options; settle cb pr) w = (c, w') →
(∃ e, c = Throw e ∧ isBusy (pl w') = true ∧ listeners w' = listeners w)
∨ (∃ code, c = Exit code)
∨ ∃ w2, listeners w2 = listeners w ∧ isBusy (pl w2) = true
        ∧ try_catch cb (λ e, ret (Rejected e)) w2 = (c, w').
Proof.
intros Hprivate Hidle Hrun. apply bind_run in Hrun as (c1 & w1 & E & Hrun).
pose proof (enter_build_same_listeners _ _ _ _ E) as Hl1.
pose proof (enter_build_raises_flag _ _ _ _ (flag_combine_listItems Hprivate) Hidle E)
  as Hf1.
destruct (enter_build_idle _ _ _ _ Hidle E)
  as (w0 & _ & [(inc & -> & _)|[(code & -> & _)|(e & -> & _)]]).
- simpl in Hrun. unfold then_ in Hrun.
  apply bind_run in Hrun as (c2 & w2 & E2 & Hrun).
  pose proof (buildPatterns_async_same_listeners _ _ _ _ E2) as Hl2.
  pose proof (buildPatterns_async_same_flag _ Hprivate _ _ _ E2) as Hf2.
  unfold same_listeners, same_flag in *.
  destruct (buildPatterns_async_outcome _ _ _ _ E2) as [->|[code ->]].
  + right. right. exists w2. by rewrite Hl2, Hl1, Hf2, Hf1.
  + right. left. exists code. by destruct Hrun as [-> _].
- right. left. exists code. by destruct Hrun as [-> _].
- left. exists e. by destruct Hrun as [-> ->].
Qed.

(** X6. The busy flag of a session, when no collaborator assigns it.  A
  build that is entered while the context is not busy has raised the flag
  when the entry point returns, also when it throws.  [build] lowers it in
  its [then] callback, after the front end is built, the assets are
  copied, the listeners are registered and the debug file is written, and
  before the callback of the caller runs: when the promise of [build] is
  fulfilled the flag is down and the two listeners are registered.  When
  the promise is rejected, either the callback of the caller threw, with
  the flag down and the listeners registered; or the writing of the debug
  file threw, in debug mode, with the listeners registered and the flag
  still raised; or the front end or the asset copy threw, with no listener
  registered and the flag still raised.  Nothing lowers a flag that is
  left raised: every later call of [build] or of [patternsonly] is dropped
  as busy.  The same holds of a build that throws before it returns its
  promise, and of [patternsonly], which registers nothing. *)
Theorem busy_flag_protocol
  (callback : CallbackId) (options : Options) (w : World)
  (Hprivate : private_flag)
  (Hidle : isBusy (pl w) = false) :
let dropped (w' : World) :=
  ∀ callback' options',
    let busy :=
      mkWorld (pl w') (heap w') (listeners w')
        (trace w' ++ [ConsoleLog busy_message]) in
    build callback' options' w' = (Normal Fulfilled, busy)
    ∧ patternsonly callback' options' w' = (Normal Fulfilled, busy) in
(∀ c w', enter_build options w = (c, w') → isBusy (pl w') = true)
∧ (∀ w', build callback options w = (Normal Fulfilled, w') →
     isBusy (pl w') = false
     ∧ listeners w' = listeners w ++ registered callback options)
∧ (∀ e w', build callback options w = (Normal (Rejected e), w') →
     (isBusy (pl w') = false
      ∧ listeners w' = listeners w ++ registered callback options)
     ∨ (isBusy (pl w') = true
        ∧ listeners w' = listeners w ++ registered callback options
        ∧ debug (config (pl w')) = true
        ∧ dropped w')
     ∨ (isBusy (pl w') = true
        ∧ listeners w' = listeners w
        ∧ dropped w'))
∧ (∀ e w', build callback options w = (Throw e, w') →
     isBusy (pl w') = true ∧ listeners w' = listeners w ∧ dropped w')
∧ (∀ w', patternsonly callback options w = (Normal Fulfilled, w') →
     isBusy (pl w') = false ∧ listeners w' = listeners w)
∧ (∀ e w', patternsonly callback options w = (Normal (Rejected e), w') →
     listeners w' = listeners w
     ∧ (isBusy (pl w') = false
        ∨ (isBusy (pl w') = true ∧ debug (config (pl w')) = true ∧ dropped w'))).
Proof.
cbv zeta.
assert (∀ c w', enter_build options w = (c, w') → isBusy (pl w') = true) as Hup.
{ intros c w'. apply enter_build_raises_flag; [|done]. apply (flag_combine_listItems Hprivate). }
split; [exact Hup|].
assert (Hdropped : ∀ w', isBusy (pl w') = true →
          ∀ callback' options',
            build callback' options' w'
            = (Normal Fulfilled,
               mkWorld (pl w') (heap w') (listeners w')
                 (trace w' ++ [ConsoleLog busy_message]))
            ∧ patternsonly callback' options' w'
              = (Normal Fulfilled,
                 mkWorld (pl w') (heap w') (listeners w')
                   (trace w' ++ [ConsoleLog busy_message]))).
{ intros w' Hf callback' options'.
  assert (He : enter_build options' w'
               = (Normal Resolved,
                  mkWorld (pl w') (heap w') (listeners w')
                    (trace w' ++ [ConsoleLog busy_message]))).
  { unfold enter_build, bind, get_pl. simpl. by rewrite Hf. }
  unfold build, patternsonly, bind. by rewrite He. }
pose proof (λ cb c w', entered_build_run options cb w c w' Hprivate Hidle) as Hentered.
assert (Hbuild : ∀ c w', build callback options w = (c, w') →
          (∃ e, c = Throw e ∧ isBusy (pl w') = true ∧ listeners w' = listeners w)
          ∨ (∃ code, c = Exit code)
          ∨ (isBusy (pl w') = false
             ∧ listeners w' = listeners w ++ registered callback options)
          ∨ ∃ e, c = Normal (Rejected e)
                 ∧ isBusy (pl w') = true
                 ∧ ((listeners w' = listeners w ++ registered callback options
                     ∧ debug (config (pl w')) = true)
                    ∨ listeners w' = listeners w)).
{ intros c w' Hrun.
  destruct (Hentered _ _ _ Hrun) as [?|[?|(w2 & Hl2 & Hf2 & Hcb)]];
    [by left | by right; left |].
  unfold try_catch in Hcb.
  destruct (build_then callback options w2) as [[s|e|code] w3] eqn:E3;
    [| |injection Hcb as <- <-; right; left; by exists code];
    destruct (build_then_outcome _ _ _ _ _ Hprivate E3)
      as [(Hl3 & Hf3 & Hc)|[(Hl3 & Hf3 & Hd3 & e' & Hc)|(Hl3 & Hf3)]];
    try discriminate Hc; try (by destruct (Hc s)); injection Hcb as <- <-;
    right; right.
  - left. by rewrite Hl3, Hl2.
  - right. exists e. rewrite Hl3, Hf3, Hl2. split; [done|]. split; [done|]. by right.
  - right. exists e. rewrite Hl3, Hf3, Hl2. split; [done|]. split; [done|]. by left.
  - left. by rewrite Hl3, Hl2. }
assert (Honly : ∀ c w', patternsonly callback options w = (c, w') →
          (∃ e, c = Throw e) ∨ (∃ code, c = Exit code)
          ∨ isBusy (pl w') = false
          ∨ ∃ e, c = Normal (Rejected e) ∧ isBusy (pl w') = true
                 ∧ debug (config (pl w')) = true).
{ intros c w' Hrun.
  destruct (Hentered _ _ _ Hrun) as [(e & -> & _)|[?|(w2 & Hl2 & Hf2 & Hcb)]];
    [left; by exists e | by right; left |].
  unfold try_catch in Hcb.
  destruct (patternsonly_then callback w2) as [[s|e|code] w3] eqn:E3;
    [| |injection Hcb as <- <-; right; left; by exists code];
    destruct (patternsonly_then_outcome _ _ _ _ Hprivate E3)
      as [(Hf3 & Hd3 & e' & Hc)|Hf3];
    try discriminate Hc; injection Hcb as <- <-; right; right.
  - by left.
  - right. exists e. by rewrite Hf3.
  - by left. }
split; [|split; [|split; [|split]]].
- intros w' Hrun.
  destruct (Hbuild _ _ Hrun) as [(e & [=] & _)|[(code & [=])|[?|(e & [=] & _)]]]. done.
- intros e w' Hrun.
  destruct (Hbuild _ _ Hrun)
    as [(e' & [=] & _)|[(code & [=])|[?|(e' & _ & Hf & [[Hl Hd]|Hl])]]].
  + by left.
  + right. left. repeat (split; [done|]). by apply Hdropped.
  + right. right. repeat (split; [done|]). by apply Hdropped.
- intros e w' Hrun.
  destruct (Hbuild _ _ Hrun)
    as [(e' & _ & Hf & Hl)|[(code & [=])|[[Hf Hl]|(e' & [=] & _)]]].
  + repeat (split; [done|]). by apply Hdropped.
  + exfalso. destruct (Hentered _ _ _ Hrun) as [(e' & _ & Hf' & _)|[(code & [=])|(w2 & _ & _ & Hcb)]].
    * congruence.
    * unfold try_catch in Hcb. by destruct (build_then callback options w2) as [[?|?|?] ?].
- intros w' Hrun. split; [|exact (patternsonly_same_listeners _ _ _ _ _ Hrun)].
  destruct (Honly _ _ Hrun) as [(e & [=])|[(code & [=])|[?|(e & [=] & _)]]]. done.
- intros e w' Hrun. split; [exact (patternsonly_same_listeners _ _ _ _ _ Hrun)|].
  destruct (Honly _ _ Hrun) as [(e' & [=])|[(code & [=])|[?|(e' & _ & Hf & Hd)]]].
  + by left.
  + right. repeat (split; [done|]). by apply Hdropped.
Qed.

(** ** The lifecycle of a build *)

Lemma stage_run_app s t1 t2 :
stage_run s (t1 ++ t2) = stage_run s t1 ≫= λ s', stage_run s' t2.
Proof.
revert s. induction t1 as [|ev t1 IH]; intros s; simpl; [done|].
destruct (stage_step s ev) as [s1|]; simpl; [apply IH | done].
Qed.

Lemma stage_run_quiet s t : Forall quiet t → stage_run s t = Some s.
Proof.
induction 1 as [|ev t Hev _ IH]; simpl; [done|].
destruct ev as [| |name [r|]| | | | |]; simpl in *; done.
Qed.

Lemma stage_run_not_lifecycle t :
Forall not_lifecycle t → stage_run (length build_stages) t = Some (length build_stages).
Proof.
induction 1 as [|ev t Hev _ IH]; simpl; [done|].
destruct ev as [| |name [r|]| | | | |]; simpl in *; done.
Qed.

Lemma stage_run_lifecycle t : ∀ s s',
stage_run s t = Some s' →
drop s build_stages = lifecycle t ++ drop s' build_stages.
Proof.
induction t as [|ev t IH]; intros s s'; simpl.
- by intros [= ->].
- destruct (stage_step s ev) as [s1|] eqn:E; simpl; [|done]. intros Hrun.
  apply IH in Hrun.
  destruct ev as [| |name [r|]| | | | |]; simpl in E; simplify_eq; try done.
  + by case_decide; simplify_eq.
  + case_decide as Hs; simplify_eq. simpl.
    rewrite (drop_S _ _ _ Hs). by f_equal.
  + by case_decide; simplify_eq.
Qed.

Lemma stage_run_rendering t1 ev t2 s' :
stage_run 0 (t1 ++ ev :: t2) = Some s' →
¬ before_rendering ev →
lifecycle t1 = build_stages.
Proof.
rewrite stage_run_app. destruct (stage_run 0 t1) as [s1|] eqn:E1; simpl; [|done].
destruct (stage_step s1 ev) as [s2|] eqn:E2; simpl; [|done]. intros _ Hev.
apply stage_run_lifecycle in E1.
destruct ev as [| |name [r|]| | | | |]; simpl in *; try (by destruct Hev).
all: case_decide; simplify_eq; simpl in E1; by rewrite app_nil_r in E1.
Qed.

Lemma advances_trans s1 s2 s3 w1 w2 w3 :
advances s1 s2 w1 w2 → advances s2 s3 w2 w3 → advances s1 s3 w1 w3.
Proof.
intros (t1 & E1 & R1) (t2 & E2 & R2). exists (t1 ++ t2).
rewrite E2, E1, <- app_assoc. split; [done|]. by rewrite stage_run_app, R1.
Qed.

Lemma advances_quiet s w w' : extends quiet w w' → advances s s w w'.
Proof. intros (t & E & Hq). exists t. split; [done|]. by apply stage_run_quiet. Qed.

Lemma reaches_quiet s {A} (m : M A) : preserves (extends quiet) m → reaches s s m.
Proof.
intros Hm w c w' Hrun. exists s. split; [|done]. by eapply advances_quiet, Hm.
Qed.

Lemma reaches_not_lifecycle {A} (m : M A) :
preserves (extends not_lifecycle) m →
reaches (length build_stages) (length build_stages) m.
Proof.
intros Hm w c w' Hrun. exists (length build_stages). split; [|done].
destruct (Hm _ _ _ Hrun) as (t & E & Hq). exists t. split; [done|].
by apply stage_run_not_lifecycle.
Qed.

Lemma reaches_emit s name :
build_stages !! s = Some name → reaches s (S s) (events_emit name None).
Proof.
intros Hs w c w' [= <- <-]. exists (S s). split; [|done].
exists [Emit name None]. split; [done|]. simpl. by rewrite decide_True.
Qed.

Lemma reaches_bind s1 s2 s3 {A B} (m : M A) (k : A → M B) :
reaches s1 s2 m → (∀ a, reaches s2 s3 (k a)) → reaches s1 s3 (bind m k).
Proof.
intros Hm Hk w c w'. unfold bind.
destruct (m w) as [[a|e|code] w1] eqn:E; intros Hrun;
  destruct (Hm _ _ _ E) as (s & Ha & Hs).
- rewrite (Hs a eq_refl) in Ha.
  destruct (Hk _ _ _ _ Hrun) as (s' & Ha' & Hs'). exists s'.
  split; [by eapply advances_trans | done].
- injection Hrun as <- <-. by exists s.
- injection Hrun as <- <-. by exists s.
Qed.

Lemma in_order_bind s1 s2 {A B} (m : M A) (k : A → M B) :
reaches s1 s2 m → (∀ a, in_order s2 (k a)) → in_order s1 (bind m k).
Proof.
intros Hm Hk w c w'. unfold bind.
destruct (m w) as [[a|e|code] w1] eqn:E; intros Hrun;
  destruct (Hm _ _ _ E) as (s & Ha & Hs).
- rewrite (Hs a eq_refl) in Ha.
  destruct (Hk _ _ _ _ Hrun) as (s' & Ha'). exists s'. by eapply advances_trans.
- injection Hrun as <- <-. by exists s.
- injection Hrun as <- <-. by exists s.
Qed.

Lemma in_order_reaches s s' {A} (m : M A) : reaches s s' m → in_order s m.
Proof. intros Hm w c w' Hrun. destruct (Hm _ _ _ Hrun) as (s'' & Ha & _). by exists s''. Qed.

Lemma in_order_then_quiet s {A B} (m : M A) (k : A → M B) :
in_order s m → (∀ a, preserves (extends quiet) (k a)) → in_order s (bind m k).
Proof.
intros Hm Hk w c w'. unfold bind.
destruct (m w) as [[a|e|code] w1] eqn:E; intros Hrun;
  destruct (Hm _ _ _ E) as (s' & Ha).
- exists s'. eapply advances_trans; [exact Ha|]. by eapply advances_quiet, Hk.
- injection Hrun as <- <-. by exists s'.
- injection Hrun as <- <-. by exists s'.
Qed.

Lemma in_order_try_catch s {A} (m : M A) (h : Error → M A) :
in_order s m → (∀ e, preserves (extends quiet) (h e)) → in_order s (try_catch m h).
Proof.
intros Hm Hh w c w'. unfold try_catch.
destruct (m w) as [[a|e|code] w1] eqn:E; intros Hrun;
  destruct (Hm _ _ _ E) as (s' & Ha).
- injection Hrun as <- <-. by exists s'.
- exists s'. eapply advances_trans; [exact Ha|]. by eapply advances_quiet, Hh.
- injection Hrun as <- <-. by exists s'.
Qed.

(** One step of a sequence whose stages are to be found. *)
Ltac stages_step :=
lazymatch goal with
| |- reaches _ _ (bind _ _) =>
    eapply reaches_bind;
    [ first [ apply reaches_quiet; by preserves_auto
            | apply reaches_emit; reflexivity
            | apply reaches_not_lifecycle; by preserves_auto ]
    | intros ]
| |- reaches _ _ (events_emit _ None) => apply reaches_emit; reflexivity
| |- reaches ?s ?s _ =>
    first [ apply reaches_quiet; by preserves_auto
          | apply reaches_not_lifecycle; by preserves_auto ]
| |- reaches _ _ ?m => let h := head_of m in progress unfold h
end.

Lemma decide_rebuild_reaches d : reaches 0 1 (decide_rebuild d).
Proof. repeat stages_step. Qed.

Lemma load_global_data_reaches : reaches 1 2 load_global_data.
Proof. repeat stages_step. Qed.

Lemma expand_patterns_reaches : reaches 2 3 expand_patterns.
Proof. repeat stages_step. Qed.

Lemma after_discovery_reaches inc : reaches 2 3 (after_discovery inc).
Proof.
unfold after_discovery.
eapply reaches_bind; [apply expand_patterns_reaches | intros _].
apply (reaches_not_lifecycle (processHeadPattern;; processFootPattern;; render_and_store inc)).
preserves_auto.
Qed.

Lemma buildPatterns_in_order d : in_order 0 (buildPatterns d).
Proof.
unfold buildPatterns, buildPatterns_sync.
eapply in_order_bind.
{ eapply reaches_bind; [apply decide_rebuild_reaches | intros inc].
  eapply reaches_bind; [apply load_global_data_reaches | intros _].
  apply reaches_quiet. preserves_auto. }
intros inc. unfold buildPatterns_async.
eapply in_order_bind; [apply reaches_quiet; preserves_auto | intros p].
unfold catch_. apply in_order_then_quiet.
2: { intros [|e]; preserves_auto. }
unfold then_.
eapply in_order_bind.
{ apply reaches_quiet. preserves_auto. }
intros [|e].
- apply in_order_try_catch; [|intros; preserves_auto].
  eapply in_order_reaches.
  eapply reaches_bind; [apply after_discovery_reaches | intros _].
  apply (reaches_not_lifecycle (ret Fulfilled)). preserves_auto.
- eapply in_order_reaches. apply reaches_quiet. preserves_auto.
Qed.

(** X7. The lifecycle events of a build come in one order.  Whatever the
  outcome of [buildPatterns], the events it emits that are not about one
  pattern are an initial part of: build-pattern-start,
  build-global-data-end, pattern-iteration-end; none is emitted twice and
  no other is emitted.  An event of a pattern (before-data-merge,
  write-begin, write-end) or a file write occurs only after all three. *)
Theorem lifecycle_events_in_order
  (deletePatternDir : bool) (w w' : World) (c : Completion Settled)
  (Hrun : buildPatterns deletePatternDir w = (c, w')) :
∃ t, trace w' = trace w ++ t
     ∧ lifecycle t `prefix_of` build_stages
     ∧ ∀ t1 ev t2, t = t1 ++ ev :: t2 → ¬ before_rendering ev →
         lifecycle t1 = build_stages.
Proof.
destruct (buildPatterns_in_order _ _ _ _ Hrun) as (s & t & Ht & Hs).
exists t. split; [exact Ht|]. split.
- apply stage_run_lifecycle in Hs. by exists (drop s build_stages).
- intros t1 ev t2 -> Hev. by eapply stage_run_rendering.
Qed.

(** ** The files that a build cannot do without *)

Lemma readable_or_unreadable l : Forall readable l ∨ Exists unreadable l.
Proof.
induction l as [|path l [IH|IH]].
- left. constructor.
- destruct (fs_readFileSync path) as [ex|content] eqn:E.
  + right. apply Exists_cons_hd. by exists ex.
  + left. constructor; [by exists content | done].
- right. by apply Exists_cons_tl.
Qed.

Lemma read_structural_templates_returns w :
Forall readable (structural_templates (config (pl w))) →
∃ w', read_structural_templates w = (Normal (), w').
Proof.
intros Hall. unfold structural_templates in Hall.
set (files := source_patternlabFiles (paths (config (pl w)))) in *.
apply Forall_cons in Hall as [[c1 H1] Hall].
apply Forall_cons in Hall as [[c2 H2] Hall].
apply Forall_cons in Hall as [[c3 H3] Hall].
apply Forall_cons in Hall as [[c4 H4] Hall].
apply Forall_cons in Hall as [[c5 H5] _].
unfold read_structural_templates, fs_read, console_log, plutils_error, bind,
  try_catch, get_pl, lift, out, throw, ret, modify_pl, process_exit.
cbn [pl heap listeners trace]. fold files.
rewrite H1. cbn [pl heap listeners trace].
rewrite H2. cbn [pl heap listeners trace].
rewrite H3. cbn [pl heap listeners trace].
rewrite H4. cbn [pl heap listeners trace].
rewrite H5. by eexists.
Qed.

Lemma setCacheBust_returns w : ∃ w', setCacheBust w = (Normal (), w').
Proof.
unfold setCacheBust, bind, get_pl, get_trace, console_log, out, modify_pl.
destruct (cacheBust _); [destruct (debug _)|]; by eexists.
Qed.

Lemma load_global_data_returns w :
Forall readable (structural_templates (config (pl w))) →
∃ w', load_global_data w = (Normal (), w').
Proof.
intros Hall.
unfold load_global_data, plutils_error, plutils_warning, bind, try_catch, lift,
  get_pl, throw, ret, modify_pl, out.
destruct (buildPatternData _) as [e1|d]; destruct (loadDataFromFile _) as [e2|l];
  cbn [pl heap listeners trace].
all: lazymatch goal with
     | |- context [read_structural_templates ?w0] =>
         destruct (read_structural_templates_returns w0 Hall) as (w1 & ->)
     end.
all: lazymatch goal with
     | |- context [setCacheBust ?w0] =>
         destruct (setCacheBust_returns w0) as (w2 & ->)
     end.
all: unfold call_total, events_emit, out;
  destruct (combine_listItems _) as [pl3 heap3]; by eexists.
Qed.

(** X8. Of the files that [buildPatterns] reads before it returns its
  promise, only the five structural templates are essential.  That part of
  a build returns only when the five templates are readable, and it ends
  the process only when one of them is not: the status is then 1, the
  essential-file error is logged and nothing has been rendered.  The
  global data and the list items are not essential: in a run that gets to
  them (one that does not throw), global data that cannot be built is
  reported with an error, list items that cannot be loaded with a warning,
  and the run goes on to the templates. *)
Theorem only_structural_templates_are_essential
  (deletePatternDir : bool) (w w' : World) (c : Completion bool)
  (Hrun : buildPatterns_sync deletePatternDir w = (c, w')) :
let source_data := source_data (paths (config (pl w))) in
((∃ inc, c = Normal inc) → Forall readable (structural_templates (config (pl w))))
∧ (∀ code, c = Exit code →
     code = 1
     ∧ Exists unreadable (structural_templates (config (pl w)))
     ∧ fatal essential_file_message w w')
∧ (∀ ex,
     (∀ e, c ≠ Throw e) →
     buildPatternData source_data = inl ex →
     ∃ t, trace w' = trace w ++ t
          ∧ Log LError ("missing or malformed" +:+ source_data
                        +:+ "data.json  Pattern Lab may not work without this file.") ∈ t)
∧ (∀ ex,
     (∀ e, c ≠ Throw e) →
     loadDataFromFile (path_resolve2 source_data "listitems") = inl ex →
     ∃ t, trace w' = trace w ++ t
          ∧ Log LWarning ("WARNING: missing or malformed " +:+ source_data
                          +:+ "listitems file.  Pattern Lab may not work without this file.") ∈ t).
Proof.
cbv zeta.
pose proof (buildPatterns_sync_before_rendering _ _ _ _ Hrun) as Hbefore.
destruct (decide_rebuild_run deletePatternDir w)
  as (c0 & w1 & decided & Hd & Hc0 & Htr & Hcfg & _).
cbv zeta in Hc0. unfold buildPatterns_sync in Hrun.
apply bind_run in Hrun as (c0' & w1' & Hd' & Hk).
rewrite Hd in Hd'. injection Hd' as <- <-.
destruct Hc0 as [-> | (_ & e0 & ->)].
2:{ destruct Hk as [-> ->]. split; [by intros [inc [=]]|]. split; [by intros code [=]|].
    split; intros ex Hc; by destruct (Hc e0). }
apply bind_run in Hk as (c2 & w2 & Hl & Hk).
assert (w' = w2) as ->.
{ destruct c2; [by injection Hk as _ <- | by destruct Hk ..]. }
assert (Hdata : ∀ ex, buildPatternData (source_data (paths (config (pl w)))) = inl ex →
          ∃ t, trace w2 = trace w ++ t
               ∧ Log LError ("missing or malformed" +:+ source_data (paths (config (pl w)))
                             +:+ "data.json  Pattern Lab may not work without this file.") ∈ t).
{ intros ex Hdata. rewrite <- Hcfg in Hdata. revert Hl. clear Hk. intros Hl.
  unfold load_global_data in Hl.
  apply bind_run in Hl as (c1 & v2 & [= <- <-] & Hl). cbv beta zeta in Hl.
  apply bind_run in Hl as (c3 & v2 & E & Hl).
  unfold try_catch, bind, lift in E. rewrite Hdata in E.
  unfold throw, plutils_error, out, modify_pl in E. injection E as <- <-.
  lazymatch type of Hl with
  | ?m ?w0 = _ =>
      assert (preserves (extends (λ _, True)) m) as Hm by preserves_auto;
      destruct (Hm _ _ _ Hl) as (t & Ht & _)
  end.
  cbn [trace] in Ht. rewrite Htr in Ht. rewrite Hcfg in Ht.
  eexists. split; [rewrite Ht, <- !app_assoc; reflexivity|].
  apply elem_of_app; right. apply elem_of_app; left. by apply list_elem_of_singleton. }
assert (Hitems : ∀ ex,
          loadDataFromFile (path_resolve2 (source_data (paths (config (pl w)))) "listitems")
          = inl ex →
          ∃ t, trace w2 = trace w ++ t
               ∧ Log LWarning ("WARNING: missing or malformed "
                               +:+ source_data (paths (config (pl w)))
                               +:+ "listitems file.  Pattern Lab may not work without this file.") ∈ t).
{ intros ex Hitems. rewrite <- Hcfg in Hitems. revert Hl. clear Hk. intros Hl.
  unfold load_global_data in Hl.
  apply bind_run in Hl as (c1 & v2 & [= <- <-] & Hl). cbv beta zeta in Hl.
  apply bind_run in Hl as (c3 & v2 & E & Hl).
  assert (c3 = Normal () ∧ ∃ t1, trace v2 = trace w1 ++ t1) as [-> [t1 Ht1]].
  { revert E. unfold try_catch, bind, lift, throw, plutils_error, out, modify_pl.
    destruct (buildPatternData (source_data (paths (config (pl w1)))));
      intros [= <- <-]; (split; [done|]);
      first [by eexists | exists []; by rewrite app_nil_r]. }
  apply bind_run in Hl as (c4 & w3 & E3 & Hl).
  unfold try_catch, bind, lift in E3. rewrite Hitems in E3.
  unfold throw, plutils_warning, out, modify_pl in E3. injection E3 as <- <-.
  lazymatch type of Hl with
  | ?m ?w0 = _ =>
      assert (preserves (extends (λ _, True)) m) as Hm by preserves_auto;
      destruct (Hm _ _ _ Hl) as (t & Ht & _)
  end.
  cbn [trace] in Ht. rewrite Ht1, Htr in Ht. rewrite Hcfg in Ht.
  eexists. split; [rewrite Ht, <- !app_assoc; reflexivity|].
  apply elem_of_app; right. apply elem_of_app; right. apply elem_of_app; left.
  by apply list_elem_of_singleton. }
destruct (readable_or_unreadable (structural_templates (config (pl w))))
  as [Hall|Hex].
- split; [done|]. split; [|split; intros ex _; [apply Hdata | apply Hitems]].
  intros code ->. exfalso. rewrite <- Hcfg in Hall.
  destruct (load_global_data_returns w1 Hall) as (v2 & Hl').
  rewrite Hl in Hl'. injection Hl' as -> _. by injection Hk.
- pose proof Hex as Hex'. rewrite <- Hcfg in Hex'.
  destruct (load_global_data_fatal w1 Hex') as (v2 & ex & t0 & Hl' & Htr').
  rewrite Hl in Hl'. injection Hl' as -> <-. destruct Hk as [-> _].
  split; [by intros [inc [=]]|].
  split; [|split; intros ex' _; [apply (Hdata ex') | apply (Hitems ex')]].
  intros code [= <-]. split; [done|]. split; [done|].
  eapply (fatal_intro _ _ _ (decided ++ t0) [ConsoleLog ex; Log LError _]).
  + rewrite Htr', Htr, <- !app_assoc. reflexivity.
  + rewrite elem_of_cons. right. by apply list_elem_of_singleton.
  + exact Hbefore.
Qed.

(** ** The user head and foot *)





(** ** Objects, continued *)

Lemma obj_get_obj_set_eq k v o : obj_get k (obj_set k v o) = Some v.
Proof.
induction o as [|[k0 v0] o IH]; simpl.
- by rewrite decide_True.
- case_decide as Hk; simpl; [by rewrite decide_True | by rewrite decide_False].
Qed.

Lemma obj_get_obj_set_ne k k' v o : k ≠ k' → obj_get k' (obj_set k v o) = obj_get k' o.
Proof.
intros Hne. induction o as [|[k0 v0] o IH]; simpl.
- by rewrite decide_False.
- case_decide as Hk; simpl.
  + subst. by rewrite !decide_False.
  + case_decide; [done | exact IH].
Qed.

Lemma obj_get_None k o : obj_get k o = None ↔ k ∉ keys o.
Proof.
unfold keys. induction o as [|[k0 v0] o IH]; simpl.
- split; [intros _; apply not_elem_of_nil | done].
- rewrite not_elem_of_cons. case_decide as Hk.
  + split; [done | intros [Hne _]; by destruct Hne].
  + rewrite IH. split; [by intros ? | by intros [_ ?]].
Qed.

Lemma obj_set_overwrite k v v' o : obj_set k v (obj_set k v' o) = obj_set k v o.
Proof.
induction o as [|[k0 v0] o IH]; simpl.
- by rewrite decide_True.
- case_decide as Hk; simpl; [by rewrite decide_True|].
  rewrite decide_False by done. by rewrite IH.
Qed.

Lemma obj_set_fresh k v o : k ∉ keys o → obj_set k v o = o ++ [(k, v)].
Proof.
unfold keys. induction o as [|[k0 v0] o IH]; simpl; [done|].
rewrite not_elem_of_cons. intros [Hne Hnin].
rewrite decide_False by done. by rewrite IH.
Qed.

Lemma obj_set_app_r k v pre o :
k ∉ keys pre → obj_set k v (pre ++ o) = pre ++ obj_set k v o.
Proof.
unfold keys. induction pre as [|[k0 v0] pre IH]; simpl; [done|].
rewrite not_elem_of_cons. intros [Hne Hnin].
rewrite decide_False by done. by rewrite IH.
Qed.

Lemma keys_obj_set_known k v o : k ∈ keys o → keys (obj_set k v o) = keys o.
Proof.
unfold keys. induction o as [|[k0 v0] o IH]; csimpl.
- intros Hin. by apply elem_of_nil in Hin.
- rewrite elem_of_cons. intros Hin. case_decide as Hk; csimpl; [by subst|].
  rewrite IH; [done|]. destruct Hin as [->|Hin]; done.
Qed.

(** [_.extend] keeps the keys of the object in their places and puts the
    new keys after them. *)
Lemma obj_assign_shape d s :
∃ d' extra,
  foldl (λ t kv, obj_set kv.1 kv.2 t) d s = d' ++ extra
  ∧ keys d' = keys d
  ∧ (NoDup (keys d) → NoDup (keys (d' ++ extra))).
Proof.
revert d. induction s as [|[k v] s IH]; intros d; simpl.
- exists d, []. rewrite app_nil_r. done.
- destruct (IH (obj_set k v d)) as (d' & extra & Hfold & Hkeys & Hnd).
  destruct (decide (k ∈ keys d)) as [Hin|Hnin].
  + exists d', extra. split; [done|]. rewrite Hkeys, keys_obj_set_known by done.
    split; [done|]. intros Hd. apply Hnd. by rewrite keys_obj_set_known.
  + rewrite obj_set_fresh in Hkeys, Hnd by done.
    unfold keys in Hkeys. rewrite fmap_app in Hkeys. simpl in Hkeys.
    assert (length d' = S (length d)) as Hlen.
    { apply (f_equal length) in Hkeys. rewrite length_app, !length_fmap in Hkeys.
      simpl in Hkeys. lia. }
    destruct (decide (d' = [])) as [->|Hne]; [done|].
    destruct (exists_last Hne) as (d0 & [k0 v0] & ->).
    rewrite fmap_app in Hkeys. simpl in Hkeys.
    apply app_inj_tail in Hkeys as [Hkeys [= ->]].
    exists d0, ((k, v0) :: extra). rewrite <- app_assoc in Hfold. simpl in Hfold.
    split; [done|]. split; [done|]. intros Hd.
    rewrite <- app_assoc in Hnd. simpl in Hnd. apply Hnd.
    unfold keys. rewrite fmap_app. simpl. apply NoDup_app. split; [done|].
    split; [|apply NoDup_singleton].
    intros k' Hk' Hk''. apply list_elem_of_singleton in Hk''. by subst.
Qed.

Lemma obj_assign_fresh pre extra :
NoDup (keys (pre ++ extra)) →
foldl (λ t kv, obj_set kv.1 kv.2 t) pre extra = pre ++ extra.
Proof.
revert pre. induction extra as [|[k v] extra IH]; intros pre Hnd; simpl.
- by rewrite app_nil_r.
- assert (k ∉ keys pre) as Hnin.
  { unfold keys in *. rewrite fmap_app in Hnd. apply NoDup_app in Hnd as (_ & Hd & _).
    intros Hin. apply (Hd _ Hin). simpl. by left. }
  rewrite obj_set_fresh by done.
  rewrite IH; rewrite <- app_assoc; done.
Qed.

Lemma obj_assign_same pre d m extra :
keys d = keys m →
NoDup (keys (pre ++ m ++ extra)) →
foldl (λ t kv, obj_set kv.1 kv.2 t) (pre ++ d) (m ++ extra) = pre ++ m ++ extra.
Proof.
revert pre d. induction m as [|[k v] m IH]; intros pre d Hkeys Hnd.
- destruct d; [|done]. simpl in *. rewrite app_nil_r. by apply obj_assign_fresh.
- destruct d as [|[k0 v0] d]; [done|]. simpl in Hkeys. injection Hkeys as -> Hkeys.
  simpl.
  assert (k ∉ keys pre) as Hnin.
  { unfold keys in *. rewrite fmap_app in Hnd. apply NoDup_app in Hnd as (_ & Hd & _).
    intros Hin. apply (Hd _ Hin). simpl. by left. }
  rewrite obj_set_app_r by done. simpl. rewrite decide_True by done.
  replace (pre ++ (k, v) :: d) with ((pre ++ [(k, v)]) ++ d) by by rewrite <- app_assoc.
  rewrite IH; [by rewrite <- app_assoc | done | by rewrite <- app_assoc].
Qed.

Lemma obj_assign_idempotent d s :
NoDup (keys d) →
let m := obj_assign d (Some s) in
obj_assign d (Some m) = m.
Proof.
intros Hd. simpl. destruct (obj_assign_shape d s) as (d' & extra & -> & Hkeys & Hnd).
apply (obj_assign_same [] d d' extra); [done|]. by apply Hnd.
Qed.

Lemma obj_get_obj_assign k t s :
NoDup (keys s) →
obj_get k (obj_assign t (Some s))
= match obj_get k s with
  | Some v => Some v
  | None => obj_get k t
  end.
Proof.
simpl. revert t. induction s as [|[k0 v0] s IH]; intros t Hnd; simpl; [done|].
unfold keys in Hnd. simpl in Hnd. apply NoDup_cons in Hnd as [Hnin Hnd].
rewrite IH by done. case_decide as Hk.
- subst. apply obj_get_None in Hnin. rewrite Hnin. apply obj_get_obj_set_eq.
- destruct (obj_get k s); [done|]. by apply obj_get_obj_set_ne.
Qed.

(** ** The values of the metadata *)

Lemma obj_get_obj_delete k k' o :
obj_get k (obj_delete k' o) = if decide (k = k') then None else obj_get k o.
Proof.
unfold obj_delete. induction o as [|[k0 v0] o IH]; simpl.
- by case_decide.
- destruct (decide (k0 = k')) as [->|Hne].
  + rewrite filter_cons_False by (simpl; by intros ?).
    rewrite IH. case_decide as Hk; [done|]. by rewrite decide_False.
  + rewrite filter_cons_True by done. simpl. rewrite IH.
    case_decide as Hk0; [|done]. subst. by rewrite decide_False.
Qed.

Lemma obj_get_obj_assign_default k t s :
NoDup (keys (default [] s)) →
obj_get k (obj_assign t s)
= match obj_get k (default [] s) with
  | Some v => Some v
  | None => obj_get k t
  end.
Proof.
destruct s as [s|]; simpl; [|done]. apply (obj_get_obj_assign k t s).
Qed.

(** X16. The values of the metadata of a rendered pattern.  The three
  lineage flags of [patternData] are computed from the lineage lists at
  every render, whatever the flags of the pattern were: the forward flag
  says that [lineage] is not empty, the reverse flag that [lineageR] is not
  empty, and the third that one of them is not; the [Pattern] object holds
  the same flags.  [patternDesc] is the description when there is one and
  the empty string otherwise.  In [extraOutput], a key that
  [pattern.allMarkdown] has takes its value from there, and any other key
  from [pattern.extraOutput]; the render changes neither of the two
  objects. *)
Theorem patternData_flags_and_values
  (r : ref) (head : string) (w w' : World)
  (Hrun : renderSinglePattern r head w = (Normal true, w')) :
∃ before pattern md extra,
  heap w !! r = Some before
  ∧ heap w' !! r = Some pattern
  ∧ patternData pattern = JSON_stringify (JObj md)
  ∧ lineage pattern = lineage before
  ∧ lineageR pattern = lineageR before
  ∧ patternLineageExists pattern = bool_decide (0 < length (lineage pattern))%nat
  ∧ patternLineageRExists pattern = bool_decide (0 < length (lineageR pattern))%nat
  ∧ obj_get "patternLineageExists" md = Some (JBool (patternLineageExists pattern))
  ∧ obj_get "patternLineageRExists" md = Some (JBool (patternLineageRExists pattern))
  ∧ obj_get "patternLineageEExists" md
    = Some (JBool (bool_decide (0 < length (lineage pattern) + length (lineageR pattern))%nat))
  ∧ obj_get "patternDesc" md
    = Some (JStr (if patternDescExists pattern then patternDesc pattern else ""))
  ∧ extraOutput pattern = extraOutput before
  ∧ allMarkdown pattern = allMarkdown before
  ∧ obj_get "extraOutput" md = Some (JObj extra)
  ∧ (NoDup (keys (default [] (extraOutput pattern))) →
     NoDup (keys (default [] (allMarkdown pattern))) →
     ∀ k, k ≠ "title" → k ≠ "state" → k ≠ "markdown" →
       obj_get k extra
       = match obj_get k (default [] (allMarkdown pattern)) with
         | Some v => Some v
         | None => obj_get k (default [] (extraOutput pattern))
         end).
Proof.
apply renderSinglePattern_Normal in Hrun as [(? & _) | (_ & Hr)]; [done|].
destruct Hr as (p0 & g & st & code & headHTML & footerHTML & logs & allData
                & allFooterData & Hp0 & _ & _ & _ & _ & _ & _ & _ & Hheap & _).
eexists p0, _, _, (extraOutput_dump p0). split; [exact Hp0|]. split; [exact Hheap|].
split; [reflexivity|].
repeat (split; [reflexivity|]).
split.
{ simpl. do 2 f_equal. repeat case_bool_decide; simpl; try done; lia. }
repeat (split; [reflexivity|]).
replace (allMarkdown (set_compileState CLEAN
                        (composed head code (set_compileState BUILDING p0))))
  with (allMarkdown p0) by reflexivity.
replace (extraOutput (set_compileState CLEAN
                        (composed head code (set_compileState BUILDING p0))))
  with (extraOutput p0) by reflexivity.
intros Hnd1 Hnd2 k Hk1 Hk2 Hk3. unfold extraOutput_dump.
rewrite !obj_get_obj_delete, !decide_False by done.
rewrite obj_get_obj_assign_default by done.
destruct (obj_get k (default [] (allMarkdown p0))); [done|].
rewrite obj_get_obj_assign_default by done.
by destruct (obj_get k (default [] (extraOutput p0))).
Qed.

(** ** The order of the render loop *)

Lemma write_begins_app t1 t2 : write_begins (t1 ++ t2) = write_begins t1 ++ write_begins t2.
Proof. unfold write_begins. by rewrite omap_app. Qed.

Lemma write_begins_none t : Forall (λ ev, write_begins [ev] = []) t → write_begins t = [].
Proof.
induction 1 as [|ev t Hev _ IH]; [done|].
change (ev :: t) with ([ev] ++ t). by rewrite write_begins_app, Hev, IH.
Qed.

Lemma writes_in_order_none l {A} (m : M A) :
preserves (extends (λ ev, write_begins [ev] = [])) m → writes_in_order l m.
Proof.
intros Hm w c w' Hrun. destruct (Hm _ _ _ Hrun) as (t & Ht & Hno).
exists t. split; [done|]. rewrite write_begins_none by done. apply sublist_nil_l.
Qed.

Lemma writes_in_order_bind l1 l2 {A B} (m : M A) (k : A → M B) :
writes_in_order l1 m → (∀ a, writes_in_order l2 (k a)) →
writes_in_order (l1 ++ l2) (bind m k).
Proof.
intros Hm Hk w c w'. unfold bind.
destruct (m w) as [[a|e|code] w1] eqn:E; intros Hrun;
  destruct (Hm _ _ _ E) as (t1 & Ht1 & Hs1).
- destruct (Hk _ _ _ _ Hrun) as (t2 & Ht2 & Hs2). exists (t1 ++ t2).
  rewrite Ht2, Ht1, <- app_assoc. split; [done|].
  rewrite write_begins_app. by apply sublist_app.
- injection Hrun as <- <-. exists t1. split; [done|]. by apply sublist_inserts_r.
- injection Hrun as <- <-. exists t1. split; [done|]. by apply sublist_inserts_r.
Qed.

Lemma writes_in_order_out r : writes_in_order [r] (out (write_begin r)).
Proof. intros w c w' [= <- <-]. exists [write_begin r]. split; [done|]. done. Qed.

Lemma renderSinglePattern_in_order r head : writes_in_order [r] (renderSinglePattern r head).
Proof.
unfold renderSinglePattern.
apply (writes_in_order_bind [] [r]); [apply writes_in_order_none; preserves_auto|].
intros pattern.
destruct (negb (isPattern pattern) || bool_decide (compileState pattern = CLEAN)).
{ apply writes_in_order_none. preserves_auto. }
apply (writes_in_order_bind [] [r]); [apply writes_in_order_none; preserves_auto|].
intros _.
apply (writes_in_order_bind [r] []); [|intros; apply writes_in_order_none; preserves_auto].
unfold render_and_write.
repeat (apply (writes_in_order_bind [] [r]);
        [apply writes_in_order_none; solve [preserves_auto]|]; intros).
apply (writes_in_order_bind [r] []); [apply writes_in_order_out|].
intros. apply writes_in_order_none. preserves_auto.
Qed.

(** X17. The render loop begins to write the patterns in the order of the
  render set.  Whatever the outcome of a pass over a render set, the
  patterns of the write-begin events of its trace are, in this order,
  patterns of the render set in the order of the set: a pattern is never
  written before one that stands before it.  (A pattern of the set that is
  skipped, or that comes after a render that threw, has no event.) *)
Theorem render_loop_in_order
  (head : string) (patternsToBuild : list ref) (w w' : World) (c : Completion unit)
  (Hrun : render_loop head patternsToBuild w = (c, w')) :
∃ t, trace w' = trace w ++ t
     ∧ write_begins t `sublist_of` patternsToBuild.
Proof.
revert w c w' Hrun. change (writes_in_order patternsToBuild (render_loop head patternsToBuild)).
unfold render_loop. induction patternsToBuild as [|r l IH]; simpl.
- apply writes_in_order_none. preserves_auto.
- apply (writes_in_order_bind [r] l); [|intros _; exact IH].
  apply (writes_in_order_bind [r] []); [apply renderSinglePattern_in_order|].
  intros. apply writes_in_order_none. preserves_auto.
Qed.

(** ** The configuration check *)

Section Checking.
Context `{!Console}.

Lemma checkConfiguration_run config w c w' :
checkConfiguration config w = (c, w') →
let suffixes := lodash_extend defaultOutputFileSuffixes (obj_get "outputFileSuffixes" config) in
let checked := obj_set "outputFileSuffixes" (JObj suffixes) config in
let w1 := mkWorld (pl w) (heap w) (listeners w)
            (trace w ++ if falsy (obj_get "outputFileSuffixes" config)
                        then suffix_warnings else []) in
match member "source" (obj_get "paths" checked) with
| inl e => c = Throw e ∧ w' = w1
| inr source =>
    match member "patternlabFiles" source with
    | inl e => c = Throw e ∧ w' = w1
    | inr (Some (JStr found)) =>
        c = Normal checked
        ∧ w' = mkWorld (pl w) (heap w) (listeners w)
                 (trace w1 ++ [Log LWarning (patternlabFiles_string_message found);
                               Log LWarning patternlabFiles_object_message])
    | inr _ => c = Normal checked ∧ w' = w1
    end
end.
Proof.
unfold checkConfiguration. cbv zeta.
unfold bind at 1.
destruct (falsy (obj_get "outputFileSuffixes" config)).
- unfold bind at 1 2 3, plutils_warning, console_log, out. cbn [pl heap listeners trace].
  rewrite <- !app_assoc. cbn [app]. fold suffix_warnings.
  unfold bind, lift, throw, ret.
  destruct (member "source" _) as [e|source]; [by intros [= <- <-]|].
  destruct (member "patternlabFiles" source) as [e|[[| | |found| |]|]];
    unfold plutils_warning, out; cbn [pl heap listeners trace];
    intros [= <- <-]; rewrite <- ?app_assoc; done.
- unfold ret at 1. unfold bind, lift, throw, ret.
  destruct w as [p h l t]. cbn [pl heap listeners trace]. rewrite app_nil_r.
  destruct (member "source" _) as [e|source]; [by intros [= <- <-]|].
  destruct (member "patternlabFiles" source) as [e|[[| | |found| |]|]];
    unfold plutils_warning, out; cbn [pl heap listeners trace];
    intros [= <- <-]; rewrite <- ?app_assoc; done.
Qed.

(** X11. When [checkConfiguration] returns, the configuration it leaves
  differs from the one it was given in [outputFileSuffixes] only, which is
  an object that has the three keys [rendered], [rawTemplate] and
  [markupOnly].  When the configuration had no suffixes (or a falsy value
  for them), they are the defaults.  When it had an object, every suffix
  that the object sets is kept, also a key that is none of the three, and
  a suffix it does not set has its default. *)
Theorem checkConfiguration_defaults_suffixes
  (config config' : Obj) (w w' : World)
  (Hrun : checkConfiguration config w = (Normal config', w')) :
∃ suffixes,
  config' = obj_set "outputFileSuffixes" (JObj suffixes) config
  ∧ obj_get "outputFileSuffixes" config' = Some (JObj suffixes)
  ∧ (∀ k, k ≠ "outputFileSuffixes" → obj_get k config' = obj_get k config)
  ∧ (∀ k, k ∈ keys defaultOutputFileSuffixes → k ∈ keys suffixes)
  ∧ (falsy (obj_get "outputFileSuffixes" config) = true →
       suffixes = defaultOutputFileSuffixes)
  ∧ (∀ user, obj_get "outputFileSuffixes" config = Some (JObj user) →
       NoDup (keys user) →
       ∀ k, obj_get k suffixes
            = match obj_get k user with
              | Some v => Some v
              | None => obj_get k defaultOutputFileSuffixes
              end).
Proof.
apply checkConfiguration_run in Hrun. cbv zeta in Hrun.
set (suffixes := lodash_extend _ _) in Hrun.
assert (config' = obj_set "outputFileSuffixes" (JObj suffixes) config) as ->.
{ destruct (member "source" _) as [e|source]; [by destruct Hrun|].
  destruct (member "patternlabFiles" source) as [e|[[| | |found| |]|]];
    destruct Hrun as [Hc _]; congruence. }
clear Hrun. exists suffixes. split; [done|].
split; [apply obj_get_obj_set_eq|].
split; [intros k Hk; by apply obj_get_obj_set_ne|].
unfold suffixes, lodash_extend. split; [|split].
- intros k Hk. destruct (falsy _); [done|]. apply keys_obj_assign. by left.
- by intros ->.
- intros user Huser Hnd k. rewrite Huser. simpl. by apply obj_get_obj_assign.
Qed.

Lemma lodash_extend_idempotent source :
let suffixes := lodash_extend defaultOutputFileSuffixes source in
lodash_extend defaultOutputFileSuffixes (Some (JObj suffixes)) = suffixes.
Proof.
assert (NoDup (keys defaultOutputFileSuffixes)) as Hnd by compute_done.
cbv zeta.
change (lodash_extend defaultOutputFileSuffixes
          (Some (JObj (lodash_extend defaultOutputFileSuffixes source))))
  with (obj_assign defaultOutputFileSuffixes
          (Some (lodash_extend defaultOutputFileSuffixes source))).
unfold lodash_extend. destruct (falsy source); [reflexivity|].
destruct source as [v|].
- by apply (obj_assign_idempotent _ (enumerable v)).
- reflexivity.
Qed.

(** X12. [checkConfiguration] is idempotent.  On a configuration that it has
  returned it returns the same configuration again, key for key and in the
  same order, and the suffixes are not reported as missing: the only
  warnings of the second run are the two about a [patternlabFiles] that is
  a string, when it is one. *)
Theorem checkConfiguration_idempotent
  (config config' : Obj) (w w' : World)
  (Hrun : checkConfiguration config w = (Normal config', w')) :
∃ t, checkConfiguration config' w'
     = (Normal config', mkWorld (pl w') (heap w') (listeners w') (trace w' ++ t))
  ∧ (t = []
     ∨ ∃ found, paths_source_patternlabFiles config = Some (JStr found)
                ∧ t = [Log LWarning (patternlabFiles_string_message found);
                       Log LWarning patternlabFiles_object_message]).
Proof.
apply checkConfiguration_run in Hrun. cbv zeta in Hrun.
set (suffixes := lodash_extend _ (obj_get _ config)) in Hrun.
set (checked := obj_set "outputFileSuffixes" (JObj suffixes) config) in Hrun.
destruct (checkConfiguration config' w') as [c2 w2] eqn:Hrun2.
apply checkConfiguration_run in Hrun2. cbv zeta in Hrun2.
assert (paths_source_patternlabFiles config
        = match member "source" (obj_get "paths" checked) with
          | inr source =>
              match member "patternlabFiles" source with
              | inr v => v
              | inl _ => None
              end
          | inl _ => None
          end) as Hfiles.
{ unfold checked. rewrite obj_get_obj_set_ne by done.
  unfold paths_source_patternlabFiles, paths_source, member.
  destruct (obj_get "paths" config) as [[| | | | |paths]|]; try done.
  destruct (obj_get "source" paths) as [[| | | | |source]|]; done. }
assert (config' = checked) as ->.
{ destruct (member "source" _) as [e|source]; [by destruct Hrun|].
  destruct (member "patternlabFiles" source) as [e|[[| | |found| |]|]];
    destruct Hrun as [Hc _]; congruence. }
assert (obj_get "outputFileSuffixes" checked = Some (JObj suffixes)) as Hget
  by apply obj_get_obj_set_eq.
rewrite Hget in Hrun2. simpl falsy in Hrun2. cbv iota in Hrun2.
pose proof (lodash_extend_idempotent (obj_get "outputFileSuffixes" config)) as Hidem.
cbv zeta in Hidem. fold suffixes in Hidem. rewrite Hidem in Hrun2.
replace (obj_set "outputFileSuffixes" (JObj suffixes) checked) with checked in Hrun2
  by (unfold checked; by rewrite obj_set_overwrite).
rewrite app_nil_r in Hrun2.
destruct (member "source" _) as [e|source]; [by destruct Hrun|].
destruct (member "patternlabFiles" source) as [e|[[| | |found| |]|]];
  destruct Hrun as [Hc ->]; try discriminate Hc; destruct Hrun2 as [-> ->];
  cbn [pl heap listeners trace].
all: try (exists []; rewrite app_nil_r; split; [by destruct w | by left]).
eexists. split; [reflexivity|]. right. by exists found.
Qed.

Lemma checkConfiguration_cases config w c w' :
checkConfiguration config w = (c, w') →
let checked :=
  obj_set "outputFileSuffixes"
    (JObj (lodash_extend defaultOutputFileSuffixes (obj_get "outputFileSuffixes" config)))
    config in
∃ extra,
  w' = mkWorld (pl w) (heap w) (listeners w)
         (trace w ++ (if falsy (obj_get "outputFileSuffixes" config)
                      then suffix_warnings else []) ++ extra)
  ∧ if nullish (paths_source config) then (∃ e, c = Throw e) ∧ extra = []
    else c = Normal checked
         ∧ extra = match paths_source_patternlabFiles config with
                   | Some (JStr found) =>
                       [Log LWarning (patternlabFiles_string_message found);
                        Log LWarning patternlabFiles_object_message]
                   | _ => []
                   end.
Proof.
intros Hrun. apply checkConfiguration_run in Hrun. cbv zeta in *.
rewrite obj_get_obj_set_ne in Hrun by done.
unfold paths_source_patternlabFiles, paths_source, member in *.
destruct (obj_get "paths" config) as [[| | | | |paths]|]; simpl in *;
  try (destruct Hrun as [-> ->]; exists []; rewrite app_nil_r; split; [done|];
       by (split; [eexists|])).
destruct (obj_get "source" paths) as [[| | | | |source]|]; simpl in *;
  try (destruct Hrun as [-> ->]; exists []; rewrite app_nil_r; split; [done|];
       by (split; [eexists|])).
destruct (obj_get "patternlabFiles" source) as [[| | |found| |]|]; simpl in *;
  destruct Hrun as [-> ->]; cbn [pl heap listeners trace];
  try (exists []; rewrite app_nil_r; by split).
eexists. rewrite <- app_assoc. by split.
Qed.

Lemma not_found_is_no_other_warning found :
Log LWarning suffixes_not_found_message
∉ [Log LWarning (patternlabFiles_string_message found);
   Log LWarning patternlabFiles_object_message].
Proof.
intros Hin.
apply elem_of_cons in Hin as [Heq|Hin]; [vm_compute in Heq; discriminate Heq|].
apply elem_of_cons in Hin as [Heq|Hin]; [vm_compute in Heq; discriminate Heq|].
by apply elem_of_nil in Hin.
Qed.

(** X13. What [checkConfiguration] does besides the suffixes.  It leaves
  the context, the patterns and the listeners as they are, writes to the
  log and the console only, and never ends the process.  It throws exactly when
  [config.paths.source] is [undefined] or [null] (or [config.paths] is):
  the constructor then throws with it.  The suffixes are reported as not
  found exactly when the configuration has none.  A [patternlabFiles] that
  is a string is warned about, and is left as the string it is: the
  configuration that is returned still has it. *)
Theorem checkConfiguration_throws_or_warns
  (config : Obj) (w w' : World) (c : Completion Obj)
  (Hrun : checkConfiguration config w = (c, w')) :
∃ t, w' = mkWorld (pl w) (heap w) (listeners w) (trace w ++ t)
  ∧ ((∃ e, c = Throw e) ↔ nullish (paths_source config) = true)
  ∧ (∀ code, c ≠ Exit code)
  ∧ (Log LWarning suffixes_not_found_message ∈ t
     ↔ falsy (obj_get "outputFileSuffixes" config) = true)
  ∧ (∀ found, nullish (paths_source config) = false →
       paths_source_patternlabFiles config = Some (JStr found) →
       Log LWarning (patternlabFiles_string_message found) ∈ t
       ∧ ∃ config', c = Normal config'
                    ∧ paths_source_patternlabFiles config' = Some (JStr found))
  ∧ ((∀ found, paths_source_patternlabFiles config ≠ Some (JStr found)) →
       t = if falsy (obj_get "outputFileSuffixes" config) then suffix_warnings else []).
Proof.
destruct (checkConfiguration_cases _ _ _ _ Hrun) as (extra & -> & Hc). cbv zeta in Hc.
eexists. split; [reflexivity|].
assert (extra = []
        ∨ ∃ found, paths_source_patternlabFiles config = Some (JStr found)
                   ∧ extra = [Log LWarning (patternlabFiles_string_message found);
                              Log LWarning patternlabFiles_object_message]) as Hextra.
{ destruct (nullish _); [left; by destruct Hc|]. destruct Hc as [_ ->].
  destruct (paths_source_patternlabFiles config) as [[| | |found| |]|];
    try (by left). right. by exists found. }
split; [|split; [|split; [|split]]].
- destruct (nullish _).
  + split; [done|]. intros _. by destruct Hc.
  + destruct Hc as [-> _]. split; [by intros [e ?] | done].
- intros code. destruct (nullish _); [destruct Hc as [[e ->] _]|destruct Hc as [-> _]]; done.
- destruct (falsy _).
  + split; [done|]. intros _. apply elem_of_app. left. by left.
  + split; [|done]. simpl. intros Hin.
    destruct Hextra as [->|(found & _ & ->)]; [by apply elem_of_nil in Hin|].
    by destruct (not_found_is_no_other_warning found).
- intros found Hn Hfiles. rewrite Hn in Hc. destruct Hc as [-> ->].
  rewrite Hfiles. split.
  + apply elem_of_app. right. by left.
  + eexists. split; [reflexivity|].
    unfold paths_source_patternlabFiles, paths_source in *.
    by rewrite obj_get_obj_set_ne.
- intros Hnone. destruct Hextra as [->|(found & Hf & _)]; [by rewrite app_nil_r|].
  by destruct (Hnone found).
Qed.

End Checking.

(** ** The live server *)

Section Serving.
Context `{!Server}.

(** With the callback of [serve], the [then] callback of [build] is
    fulfilled, or it ends before it has lowered the flag. *)
Lemma build_then_noop options w c w' :
private_flag →
build_then noop options w = (c, w') →
c = Normal Fulfilled ∨ (isBusy (pl w') = isBusy (pl w) ∧ ∀ s, c ≠ Normal s).
Proof.
intros Hprivate Hrun. unfold build_then in Hrun.
apply bind_run in Hrun as (c1 & w1 & E1 & Hrun).
pose proof (same_flag_call _ (flag_buildFrontend Hprivate) _ _ _ E1) as Hf1.
destruct c1 as [[]|e|code]; [|right; by destruct Hrun as [-> ->]..].
apply bind_run in Hrun as (c2 & w2 & E2 & Hrun).
pose proof (same_flag_call _ (flag_copyAssets Hprivate options) _ _ _ E2) as Hf2.
unfold same_flag in *.
destruct c2 as [[]|e|code];
  [|right; destruct Hrun as [-> ->]; by rewrite Hf2, Hf1..].
unfold bind at 1 2, add_listener at 1 2 in Hrun. simpl in Hrun.
apply bind_run in Hrun as (c5 & w5 & E5 & Hrun).
apply printDebug_run in E5 as (_ & Hp5 & _ & Hexit & _). simpl in Hp5.
destruct c5 as [[]|e|code].
- left. unfold bind, modify_pl, call, ret in Hrun. simpl in Hrun.
  rewrite noop_returns in Hrun. by injection Hrun as <- _.
- right. destruct Hrun as [-> ->]. by rewrite Hp5, Hf2, Hf1.
- by destruct (Hexit code).
Qed.

(** X14. [serve] builds with [options.watch] set and with a callback that
  does nothing, and starts the live server when the promise of the build
  is fulfilled, and only then: when the build is rejected, throws or ends
  the process, the outcome of [serve] is the one of the build, in the
  world that the build left.  When [serve] is called while the context is
  busy, the build is dropped with the busy message and its promise is
  resolved: the server is started without a build.  The listeners of a
  build of [serve] hold the options with [watch] set.  When no
  collaborator assigns the busy flag, a build of [serve] that is rejected
  has left the flag raised, since its callback cannot throw: the session
  stays busy. *)
Theorem serve_starts_server_after_build (options : Options) (w : World) :
let watching := mkOptions (cleanPublic options) true in
let start := try_catch (call serve_module;; ret Fulfilled) (λ e, ret (Rejected e)) in
(∀ w1, build noop watching w = (Normal Fulfilled, w1) →
   serve options w = start w1)
∧ (∀ c w1, build noop watching w = (c, w1) → c ≠ Normal Fulfilled →
     serve options w = (c, w1))
∧ (isBusy (pl w) = true →
     serve options w
     = start (mkWorld (pl w) (heap w) (listeners w)
                (trace w ++ [ConsoleLog busy_message])))
∧ (isBusy (pl w) = false →
     ∀ w1, build noop watching w = (Normal Fulfilled, w1) →
       listeners w1 = listeners w ++ registered noop watching)
∧ (private_flag → isBusy (pl w) = false →
     ∀ e w1, build noop watching w = (Normal (Rejected e), w1) →
       isBusy (pl w1) = true).
Proof.
simpl. split; [|split; [|split; [|split]]].
- intros w1 Hb. unfold serve, then_. by rewrite (bind_eq_Normal _ _ _ _ _ Hb).
- intros c w1 Hb Hc. unfold serve, then_, bind. rewrite Hb.
  by destruct c as [[|e]|e|code].
- intros Hbusy.
  assert (build noop (mkOptions (cleanPublic options) true) w
          = (Normal Fulfilled,
             mkWorld (pl w) (heap w) (listeners w)
               (trace w ++ [ConsoleLog busy_message]))) as Hb.
  { unfold build, enter_build, bind, get_pl. simpl. by rewrite Hbusy. }
  unfold serve, then_. by rewrite (bind_eq_Normal _ _ _ _ _ Hb).
- intros Hidle w1. by apply build_registers.
- intros Hprivate Hidle e w1 Hb.
  destruct (entered_build_run _ _ _ _ _ Hprivate Hidle Hb)
    as [(e' & [=] & _)|[(code & [=])|(w2 & _ & Hf2 & Hcb)]].
  unfold try_catch in Hcb.
  destruct (build_then noop _ w2) as [[s|e'|code] w3] eqn:E3; [| |done];
    destruct (build_then_noop _ _ _ _ Hprivate E3) as [Hc|[Hf3 Hc]];
    try discriminate Hc.
  + injection Hc as ->. discriminate Hcb.
  + by destruct (Hc s).
  + injection Hcb as _ <-. by rewrite Hf3.
Qed.

End Serving.

End Properties.

(** * Examples on the small pattern library *)

(** C1, as stated, fails: with data links that do not parse,
    [parse_data_links] throws in the pipeline after discovery; the exception
    is caught and logged, and the promise of [buildPatterns] is fulfilled,
    not rejected. *)
Lemma buildPatterns_fulfilled_despite_exception :
  fst (@after_discovery Demo.bad_links false Demo.discovered)
    = Throw "TypeError: Cannot read properties of undefined"
  ∧ fst (@buildPatterns Demo.bad_links true Demo.fresh) = Normal Fulfilled
  ∧ last (trace (snd (@buildPatterns Demo.bad_links true Demo.fresh)))
    = Some (ConsoleLog
              "Error in buildPatterns(): TypeError: Cannot read properties of undefined")
  ∧ fst (@buildPatterns Demo.bad_links true Demo.fresh)
    ≠ Normal (Rejected "TypeError: Cannot read properties of undefined").
Proof.
  split; [vm_compute; reflexivity|]. split; [vm_compute; reflexivity|].
  split; [vm_compute; reflexivity|]. vm_compute. discriminate.
Qed.

Lemma buildPatterns_catches_and_fulfils_witness :
  fst (@buildPatterns_async Demo.bad_links false Demo.bootstrapped) = Normal Fulfilled.
Proof.
  rewrite (proj1 (proj2 (@buildPatterns_catches_and_fulfils Demo.bad_links false
                           Demo.bootstrapped))
             Demo.discovered "TypeError: Cannot read properties of undefined"
             (snd (@after_discovery Demo.bad_links false Demo.discovered))).
  - reflexivity.
  - vm_compute. reflexivity.
  - vm_compute. reflexivity.
Defined.

Lemma build_while_busy_is_dropped_witness :
  isBusy (pl Demo.busy) = true
  ∧ @build Demo.sunny 0%nat Demo.options Demo.busy
    = (Normal Fulfilled,
       mkWorld (pl Demo.busy) [] [] [ConsoleLog busy_message]).
Proof.
  split; [reflexivity|].
  apply (@build_while_busy_is_dropped Demo.sunny 0%nat Demo.options Demo.busy).
  reflexivity.
Defined.

Lemma full_or_incremental_rebuild_witness :
  let w1 := Demo.upgrade_at_render_set in
  let marked :=
    mkWorld (pl w1) (mark_all (patterns (pl w1)) (heap w1)) (listeners w1) (trace w1) in
  let head := "<!-- styleguide/general-header.mustache -->" in
  @at_render_set Demo.upgraded false Demo.fresh false head w1
  ∧ @patternsToBuild Demo.upgraded false w1 = (Normal (patterns (pl w1)), marked)
  ∧ @buildPatterns Demo.upgraded false Demo.fresh
    = @render_and_settle Demo.upgraded head (patterns (pl w1)) marked.
Proof.
  cbv zeta.
  assert (Hat : @at_render_set Demo.upgraded false Demo.fresh false
                  "<!-- styleguide/general-header.mustache -->"
                  Demo.upgrade_at_render_set).
  { exists Demo.upgrade_started, Demo.upgrade_loaded, Demo.upgrade_expanded,
      Demo.upgrade_with_head, Demo.upgrade_with_foot.
    repeat split; vm_compute; reflexivity. }
  split; [exact Hat|].
  destruct (@full_or_incremental_rebuild Demo.upgraded false Demo.fresh
              (snd (@buildPatterns Demo.upgraded false Demo.fresh))
              (fst (@buildPatterns Demo.upgraded false Demo.fresh))
              (surjective_pairing _))
    as (_ & _ & Hset & _).
  destruct (Hset false _ _ Hat) as (_ & Hrest & Hmark & _).
  split; [exact Hmark|].
  rewrite (surjective_pairing (@buildPatterns Demo.upgraded false Demo.fresh)).
  exact (Hrest _ _ Hmark).
Defined.

Lemma process_after_complete_walk_witness :
  ∃ w1 promises st,
    forEach (@load_file Demo.sunny "source/_patterns")
      (@dive Demo.sunny "source/_patterns") Demo.fresh = (Normal (), w1)
    ∧ patterns (pl w1) = [0%nat]
    ∧ @start_steps Demo.sunny [0%nat] (pl w1, heap w1) = Some (promises, st)
    ∧ length promises = 1%nat
    ∧ all_fulfilled promises st
      = Some (pl (snd (@processAllPatternsIterative Demo.sunny "source/_patterns"
                         Demo.fresh)),
              heap (snd (@processAllPatternsIterative Demo.sunny "source/_patterns"
                           Demo.fresh))).
Proof.
  destruct (@process_after_complete_walk Demo.sunny "source/_patterns" Demo.fresh)
    as (w1 & loading & H1 & _ & _ & _ & _ & H6 & _).
  assert (Hw1 : w1 = snd (forEach (@load_file Demo.sunny "source/_patterns")
                            (@dive Demo.sunny "source/_patterns") Demo.fresh))
    by (by rewrite H1).
  assert (Hpatterns : patterns (pl w1) = [0%nat])
    by (rewrite Hw1; vm_compute; reflexivity).
  destruct (H6 (Normal Fulfilled)
              (snd (@processAllPatternsIterative Demo.sunny "source/_patterns"
                      Demo.fresh)))
    as (_ & Hiff).
  { vm_compute. reflexivity. }
  destruct (proj1 Hiff eq_refl) as (promises & st & Hs & Hlen & Ha).
  rewrite Hpatterns in Hs, Hlen.
  exists w1, promises, st. split; [exact H1|]. split; [exact Hpatterns|].
  split; [exact Hs|]. split; [exact Hlen | exact Ha].
Defined.

(** C5, as stated, fails for a pattern that is not a pattern: a meta pattern
    that enters with NEEDS_REBUILD is skipped by the guard of
    [renderSinglePattern]; the call returns [false], the state is never
    BUILDING and is NEEDS_REBUILD, not CLEAN, when the call returns. *)
Lemma renderSinglePattern_meta_pattern_not_clean :
  compileStates 0%nat (Demo.loaded false NEEDS_REBUILD)
    = (Some NEEDS_REBUILD, Some NEEDS_REBUILD)
  ∧ @renderSinglePattern Demo.sunny 0%nat "<head>"
      (Demo.loaded false NEEDS_REBUILD)
    = (Normal false, Demo.loaded false NEEDS_REBUILD)
  ∧ compileStates 0%nat (Demo.loaded false NEEDS_REBUILD)
    ≠ (Some CLEAN, Some CLEAN).
Proof. split; [reflexivity|]. split; [reflexivity|]. discriminate. Qed.

Lemma renderSinglePattern_building_then_clean_witness :
  ∃ w1,
    assign_compileState 0%nat BUILDING (Demo.loaded true NEEDS_REBUILD) = (Normal (), w1)
    ∧ compileStates 0%nat w1 = (Some BUILDING, Some BUILDING)
    ∧ ∀ b w',
        @renderSinglePattern Demo.sunny 0%nat "<head>"
          (Demo.loaded true NEEDS_REBUILD) = (Normal b, w') →
        b = true ∧ compileStates 0%nat w' = (Some CLEAN, Some CLEAN).
Proof.
  destruct (@renderSinglePattern_building_then_clean Demo.sunny
              0%nat "<head>" (Demo.loaded true NEEDS_REBUILD)
              (Demo.button "00-atoms/button.mustache")
              (mkGraph 1 {[ 0%nat := NEEDS_REBUILD ]}) NEEDS_REBUILD
              eq_refl eq_refl eq_refl eq_refl eq_refl)
    as (w1 & H1 & H2 & _ & _ & H5 & _).
  exists w1. split; [exact H1|]. split; [exact H2 | exact H5].
Defined.

Lemma renderSinglePattern_noop_at_most_once_witness :
  heap (Demo.loaded true CLEAN) !! 0%nat
    = Some (set_compileState CLEAN (Demo.button "00-atoms/button.mustache"))
  ∧ @renderSinglePattern Demo.sunny 0%nat "<head>" (Demo.loaded true CLEAN)
    = (Normal false, Demo.loaded true CLEAN).
Proof.
  split; [reflexivity|].
  apply (@renderSinglePattern_noop_at_most_once Demo.sunny 0%nat "<head>" (Demo.loaded true CLEAN)
           (set_compileState CLEAN (Demo.button "00-atoms/button.mustache"))).
  - reflexivity.
  - right. reflexivity.
Defined.

Lemma patternData_contract_witness :
  ∃ pattern md extra,
    heap (snd (@renderSinglePattern Demo.sunny 0%nat "<head>"
                 (Demo.loaded true NEEDS_REBUILD))) !! 0%nat = Some pattern
    ∧ patternData pattern = @JSON_stringify Demo.sunny (JObj md)
    ∧ obj_get "cssEnabled" md = Some (JBool false)
    ∧ obj_get "extraOutput" md = Some (JObj extra)
    ∧ "title" ∉ keys extra.
Proof.
  destruct (@patternData_contract Demo.sunny 0%nat "<head>"
              (Demo.loaded true NEEDS_REBUILD)
              (snd (@renderSinglePattern Demo.sunny 0%nat "<head>"
                      (Demo.loaded true NEEDS_REBUILD))))
    as (pattern & md & extra & H1 & H2 & _ & H4 & _ & _ & _ & _ & _ & _ & _ & H12
        & H13 & _).
  - vm_compute. reflexivity.
  - exists pattern, md, extra. repeat (split; [assumption|]). exact H13.
Defined.

Lemma written_output_variants_witness :
  ∃ before,
    trace (snd (@renderSinglePattern Demo.sunny 0%nat "<head>"
                  (Demo.loaded true NEEDS_REBUILD)))
    = before
      ++ [write_begin 0%nat;
          FsOutputFile "public/patterns/atoms-button.rendered.html"
            "<head><button>{{ label }}</button>";
          FsOutputFile "public/patterns/atoms-button.rawTemplate.html"
            "<button>{{ label }}</button>";
          FsOutputFile "public/patterns/atoms-button.markupOnly.html"
            "<button>{{ label }}</button>";
          write_end 0%nat;
          Log LInfo "Built pattern: atoms-button"]
    ∧ Forall not_a_write before.
Proof.
  destruct (@written_output_variants Demo.sunny 0%nat "<head>"
              (Demo.loaded true NEEDS_REBUILD)
              (snd (@renderSinglePattern Demo.sunny 0%nat "<head>"
                      (Demo.loaded true NEEDS_REBUILD))))
    as (g & pattern & source & headHTML & footerHTML & allData & allFooterData
        & before & _ & H2 & _).
  - vm_compute. reflexivity.
  - exists [before_data_merge 0%nat]. split; [vm_compute; reflexivity|].
    by repeat constructor.
Defined.



(** An engine that throws in the middle of a render: the exception is caught
    and logged by [buildPatterns], the build is fulfilled, and the pattern
    is left BUILDING, on the [Pattern] object and on its node. *)
Lemma build_fulfilled_with_pattern_left_building :
  fst (@build Demo.bad_template 0%nat Demo.options Demo.fresh) = Normal Fulfilled
  ∧ compileStates 0%nat (snd (@build Demo.bad_template 0%nat Demo.options Demo.fresh))
    = (Some BUILDING, Some BUILDING)
  ∧ isBusy (pl (snd (@build Demo.bad_template 0%nat Demo.options Demo.fresh))) = false.
Proof. vm_compute. repeat split. Qed.

Lemma build_accumulates_listeners_witness :
  ∃ added,
    listeners (snd (@build Demo.sunny 0%nat Demo.options Demo.fresh))
    = listeners Demo.fresh ++ added
    ∧ length (listeners_of pattern_change added) = 1%nat
    ∧ length (listeners_of global_change added) = 1%nat.
Proof.
  apply (@build_accumulates_listeners Demo.sunny 1 Demo.fresh
           (snd (@build Demo.sunny 0%nat Demo.options Demo.fresh))).
  apply (@next_build Demo.sunny 0 Demo.fresh Demo.fresh _ 0%nat Demo.options).
  - apply no_build.
  - reflexivity.
  - vm_compute. reflexivity.
Defined.

(** * Further examples on the small pattern library *)

Lemma patternsonly_registers_nothing_witness :
  listeners (snd (@patternsonly Demo.sunny 0%nat Demo.options Demo.fresh)) = []
  ∧ @emit_change Demo.sunny pattern_change
      (snd (@patternsonly Demo.sunny 0%nat Demo.options Demo.fresh))
    = (Normal [], snd (@patternsonly Demo.sunny 0%nat Demo.options Demo.fresh)).
Proof.
  destruct (@patternsonly_registers_nothing Demo.sunny 0%nat Demo.options Demo.fresh
              (snd (@patternsonly Demo.sunny 0%nat Demo.options Demo.fresh))
              (fst (@patternsonly Demo.sunny 0%nat Demo.options Demo.fresh)))
    as [Hl He].
  - apply surjective_pairing.
  - split; [exact Hl|]. apply He. reflexivity.
Defined.

Lemma build_registers_both_or_none_witness :
  balanced (listeners (snd (@build Demo.sunny 0%nat Demo.options Demo.fresh))).
Proof.
  apply (proj2 (@build_registers_both_or_none Demo.sunny 0%nat Demo.options
                  Demo.fresh _ _ (surjective_pairing _))).
  reflexivity.
Defined.

Lemma change_event_starts_one_build_witness :
  length (listeners_of pattern_change (listeners Faulty.rebuilt)) = 2%nat
  ∧ ∃ inc,
      fst (@emit_change Demo.sunny pattern_change Faulty.rebuilt)
      = Normal [Pending inc; Resolved].
Proof.
  split; [vm_compute; reflexivity|].
  destruct (@change_event_starts_one_build Demo.sunny pattern_change
              (mkListener pattern_change false 0%nat Demo.options)
              [mkListener pattern_change false 0%nat Demo.options]
              Faulty.rebuilt
              (snd (@emit_change Demo.sunny pattern_change Faulty.rebuilt))
              [Pending true; Resolved])
    as (inc & _ & Hh & _).
  - intros st. reflexivity.
  - vm_compute. reflexivity.
  - vm_compute. reflexivity.
  - vm_compute. reflexivity.
  - exists inc. injection Hh as <-. vm_compute. reflexivity.
Defined.

Lemma change_event_kind_of_rebuild_witness :
  ∃ t, trace (snd (@on_change Demo.sunny
                     (mkListener global_change true 0%nat Demo.options) Demo.fresh))
       = trace Demo.fresh ++ t
       ∧ FsEmptyDir "public/patterns" ∈ t.
Proof.
  destruct (proj1 (proj2 (@change_event_kind_of_rebuild Demo.sunny 0%nat Demo.options
                            Demo.fresh eq_refl)) _ _ (surjective_pairing _))
    as (t & Ht & Hin & _).
  exists t. split; [exact Ht | exact Hin].
Defined.

Lemma faulty_private_flag (no_data broken_frontend undecomposable full_disk : bool) :
  @private_flag (Faulty.env no_data broken_frontend undecomposable full_disk).
Proof.
  split; repeat intro;
    repeat match goal with st : Store |- _ => destruct st end;
    simpl in *;
    try match goal with H : Normal (pending _) = Normal (pending _) |- _ =>
          injection H as <-
        end;
    simpl; by repeat case_match.
Qed.

(** A front end that cannot be built wedges the session: the promise of
    [build] is rejected, the busy flag stays raised, and the next call of
    [build] is dropped as busy.  So does a debug file that cannot be
    written, with the two listeners of the build registered. *)
Lemma busy_flag_protocol_witness :
  (fst (@build Faulty.broken_frontend 0%nat Demo.options Demo.fresh)
     = Normal (Rejected "Error: ENOENT: no such file or directory, scandir 'public/styleguide'")
   ∧ isBusy (pl (snd (@build Faulty.broken_frontend 0%nat Demo.options Demo.fresh)))
     = true
   ∧ fst (@build Faulty.broken_frontend 0%nat Demo.options
            (snd (@build Faulty.broken_frontend 0%nat Demo.options Demo.fresh)))
     = Normal Fulfilled)
  ∧ (fst (@build Faulty.full_disk 0%nat Demo.options Faulty.debugging)
       = Normal (Rejected "ENOSPC: no space left on device, open './patternlab.json'")
     ∧ isBusy (pl (snd (@build Faulty.full_disk 0%nat Demo.options Faulty.debugging)))
       = true
     ∧ listeners (snd (@build Faulty.full_disk 0%nat Demo.options Faulty.debugging))
       = registered 0%nat Demo.options
     ∧ fst (@build Faulty.full_disk 0%nat Demo.options
              (snd (@build Faulty.full_disk 0%nat Demo.options Faulty.debugging)))
       = Normal Fulfilled).
Proof.
  split.
  - split; [vm_compute; reflexivity|].
    destruct (proj1 (proj2 (proj2 (@busy_flag_protocol Faulty.broken_frontend 0%nat
                                     Demo.options Demo.fresh
                                     (faulty_private_flag false true false false)
                                     eq_refl)))
                "Error: ENOENT: no such file or directory, scandir 'public/styleguide'"
                (snd (@build Faulty.broken_frontend 0%nat Demo.options Demo.fresh)))
      as [[Hdown _]|[(Hup & _ & _ & Hdrop)|(Hup & _ & Hdrop)]].
    + vm_compute. reflexivity.
    + vm_compute in Hdown. discriminate Hdown.
    + split; [exact Hup|]. by rewrite (proj1 (Hdrop 0%nat Demo.options)).
    + split; [exact Hup|]. by rewrite (proj1 (Hdrop 0%nat Demo.options)).
  - split; [vm_compute; reflexivity|].
    destruct (proj1 (proj2 (proj2 (@busy_flag_protocol Faulty.full_disk 0%nat
                                     Demo.options Faulty.debugging
                                     (faulty_private_flag false false false true)
                                     eq_refl)))
                "ENOSPC: no space left on device, open './patternlab.json'"
                (snd (@build Faulty.full_disk 0%nat Demo.options Faulty.debugging)))
      as [[Hdown _]|[(Hup & Hl & _ & Hdrop)|(_ & Hl & _)]].
    + vm_compute. reflexivity.
    + vm_compute in Hdown. discriminate Hdown.
    + split; [exact Hup|]. split; [exact Hl|].
      by rewrite (proj1 (Hdrop 0%nat Demo.options)).
    + vm_compute in Hl. discriminate Hl.
Defined.

Lemma lifecycle_events_in_order_witness :
  ∃ t, trace (snd (@buildPatterns Demo.sunny true Demo.fresh)) = trace Demo.fresh ++ t
       ∧ lifecycle t `prefix_of` build_stages.
Proof.
  destruct (@lifecycle_events_in_order Demo.sunny true Demo.fresh _ _
              (surjective_pairing _)) as (t & Ht & Hp & _).
  exists t. split; [exact Ht | exact Hp].
Defined.

Lemma only_structural_templates_are_essential_witness :
  Forall (@readable Faulty.no_data) (@structural_templates Faulty.no_data Demo.config)
  ∧ ∃ t, trace (snd (@buildPatterns_sync Faulty.no_data true Demo.fresh))
         = trace Demo.fresh ++ t
         ∧ Log LError ("missing or malformed" +:+ "source/_data"
                       +:+ "data.json  Pattern Lab may not work without this file.") ∈ t.
Proof.
  destruct (@only_structural_templates_are_essential Faulty.no_data true Demo.fresh
              (snd (@buildPatterns_sync Faulty.no_data true Demo.fresh))
              (fst (@buildPatterns_sync Faulty.no_data true Demo.fresh))
              (surjective_pairing _))
    as (Hreadable & _ & Hdata & _).
  split.
  - apply Hreadable. exists false. vm_compute. reflexivity.
  - apply (Hdata "SyntaxError: Unexpected end of JSON input in source/_data").
    + intros e. vm_compute. discriminate.
    + vm_compute. reflexivity.
Defined.


Lemma checkConfiguration_defaults_suffixes_witness :
  ∃ suffixes,
    obj_get "outputFileSuffixes"
      (obj_set "outputFileSuffixes" (JObj suffixes) Faulty.suffixed)
    = Some (JObj suffixes)
    ∧ obj_get "rendered" suffixes = Some (JStr "")
    ∧ obj_get "rawTemplate" suffixes = Some (JStr "")
    ∧ obj_get "markupOnly" suffixes = Some (JStr ".markup").
Proof.
  destruct (@checkConfiguration_defaults_suffixes Faulty.console Faulty.suffixed
              (obj_set "outputFileSuffixes"
                 (JObj [("rendered", JStr ""); ("rawTemplate", JStr "");
                        ("markupOnly", JStr ".markup")]) Faulty.suffixed)
              Demo.fresh Demo.fresh)
    as (suffixes & Hcfg & Hget & _ & _ & _ & Huser).
  - vm_compute. reflexivity.
  - exists suffixes. rewrite <- Hcfg. split; [exact Hget|].
    specialize (Huser [("rendered", JStr ""); ("markupOnly", JStr ".markup")]
                  eq_refl ltac:(compute_done)).
    split; [exact (Huser "rendered")|]. split; [exact (Huser "rawTemplate")|].
    exact (Huser "markupOnly").
Defined.

Lemma checkConfiguration_idempotent_witness :
  let checked :=
    obj_set "outputFileSuffixes" (JObj defaultOutputFileSuffixes) Faulty.legacy in
  let warned := snd (@checkConfiguration Faulty.console Faulty.legacy Demo.fresh) in
  ∃ t, @checkConfiguration Faulty.console checked warned
       = (Normal checked, mkWorld (pl warned) (heap warned) (listeners warned)
                            (trace warned ++ t)).
Proof.
  simpl.
  destruct (@checkConfiguration_idempotent Faulty.console Faulty.legacy
              (obj_set "outputFileSuffixes" (JObj defaultOutputFileSuffixes) Faulty.legacy)
              Demo.fresh
              (snd (@checkConfiguration Faulty.console Faulty.legacy Demo.fresh)))
    as (t & Hrun & _).
  - vm_compute. reflexivity.
  - exists t. exact Hrun.
Defined.

Lemma checkConfiguration_throws_or_warns_witness :
  ∃ e, fst (@checkConfiguration Faulty.console Faulty.pathless Demo.fresh) = Throw e.
Proof.
  destruct (@checkConfiguration_throws_or_warns Faulty.console Faulty.pathless Demo.fresh _ _
              (surjective_pairing _)) as (t & _ & Hthrow & _).
  apply Hthrow. reflexivity.
Defined.

Lemma serve_starts_server_after_build_witness :
  @serve Demo.sunny Faulty.server Demo.options Demo.busy
  = (Normal Fulfilled, mkWorld (pl Demo.busy) [] [] [ConsoleLog busy_message]).
Proof.
  rewrite (proj1 (proj2 (proj2 (@serve_starts_server_after_build Demo.sunny
                                   Faulty.server Demo.options Demo.busy)))
             eq_refl).
  reflexivity.
Defined.

Lemma patternData_flags_and_values_witness :
  ∃ pattern md extra,
    heap (snd (@renderSinglePattern Demo.sunny 0%nat "<head>"
                 (Demo.loaded true NEEDS_REBUILD))) !! 0%nat = Some pattern
    ∧ patternData pattern = @JSON_stringify Demo.sunny (JObj md)
    ∧ obj_get "patternLineageExists" md = Some (JBool (patternLineageExists pattern))
    ∧ obj_get "extraOutput" md = Some (JObj extra).
Proof.
  destruct (@patternData_flags_and_values Demo.sunny 0%nat "<head>"
              (Demo.loaded true NEEDS_REBUILD)
              (snd (@renderSinglePattern Demo.sunny 0%nat "<head>"
                      (Demo.loaded true NEEDS_REBUILD))))
    as (before & pattern & md & extra & _ & H1 & H2 & _ & _ & _ & _ & H3 & _ & _ & _
        & _ & _ & H4 & _).
  - vm_compute. reflexivity.
  - exists pattern, md, extra. split; [exact H1|]. split; [exact H2|].
    split; [exact H3 | exact H4].
Defined.

Lemma render_loop_in_order_witness :
  ∃ t, trace (snd (@render_loop Demo.sunny "<head>" [0%nat]
                     (Demo.loaded true NEEDS_REBUILD)))
       = trace (Demo.loaded true NEEDS_REBUILD) ++ t
       ∧ write_begins t `sublist_of` [0%nat].
Proof.
  apply (@render_loop_in_order Demo.sunny "<head>" [0%nat]
           (Demo.loaded true NEEDS_REBUILD) _ _ (surjective_pairing _)).
Defined.
